(** * pay_ease: the bill splitter of [pay.py]

    A shallow embedding of the Streamlit script [pay.py] and the properties
    of its bill-splitting logic.

    Modelling conventions.
    - Python floats are read as exact rationals ([Qc], canonical fractions
      with Leibniz equality): the arithmetic of the script is [+] and [/]
      on prices, and the two-decimal rounding of the displayed tables is
      [round2] (round half to even on the value scaled by 100, as numpy
      does it).
    - Python dicts keyed by strings are [gmap string _]; the row order of a
      dict is not part of the model.  JSON objects, whose member order and
      duplicate keys matter while parsing, are association lists.
    - Exceptions are the constructors of [exn]; a computation that may
      raise returns a [result].  The handlers of [main] run in the monad
      [M] over the session state and the list of widgets written so far.
    - Streamlit reruns the script on every interaction: a run is [main]
      applied to the [Inputs] of that interaction, on the session left by
      the run before.  An input widget returns what the user typed into it,
      or else its [value] argument.  Streamlit's own checks (two widgets
      under one key, a row of zero columns) are not part of the model.
*)

From Stdlib Require Import QArith Qcanon Qround Qabs Qcabs Lqa Ascii String.
From stdpp Require Import gmap strings list fin_maps numbers.

Local Open Scope Qc_scope.
Local Open Scope string_scope.
Local Open Scope list_scope.

Set Warnings "-register-all,-clear-no-such-hyp".

(** ** Exceptions and results *)

Inductive exn : Type :=
  | KeyError (k : string)
  | ZeroDivisionError
  | AttributeError
  | UnboundLocalError            (* a subclass of NameError *)
  | JSONDecodeError
  | ValueError
  | TypeError
  | CallError.                   (* whatever the outbound call raised *)

Inductive result (A : Type) : Type :=
  | Ok (a : A)
  | Raise (e : exn).
Arguments Ok {A} a.
Arguments Raise {A} e.

Global Instance exn_eq_dec : EqDecision exn.
Proof. solve_decision. Defined.

Global Instance result_ret : MRet result := @Ok.
Global Instance result_bind : MBind result := λ A B f r,
  match r with
  | Ok a => f a
  | Raise e => Raise e
  end.

(** [is_name_error e]: [except NameError] would catch [e]. *)
Definition is_name_error (e : exn) : bool :=
  match e with UnboundLocalError => true | _ => false end.

(** A Python [for x in l: s = body(s, x)] whose body may raise. *)
Fixpoint for_each {A S : Type} (body : S → A → result S) (s : S) (l : list A)
  : result S :=
  match l with
  | [] => Ok s
  | x :: r => s' ← body s x; for_each body s' r
  end.

(** ** Numbers *)

Definition Qc_of_nat (n : nat) : Qc := Qc_of_Z (Z.of_nat n).

(** [x / n] for a float [x] and an int [n]. *)
Definition py_div (x : Qc) (n : nat) : result Qc :=
  match n with
  | O => Raise ZeroDivisionError
  | S _ => Ok (x / Qc_of_nat n)
  end.

(** Round to the nearest integer, ties to even ([numpy.rint]). *)
Definition rint (q : Q) : Z :=
  let f := Qfloor q in
  match (q - inject_Z f ?= 1 # 2)%Q with
  | Lt => f
  | Gt => (f + 1)%Z
  | Eq => if Z.even f then f else (f + 1)%Z
  end.

(** [Series.round(2)]: scale by 100, round to an integer, scale back. *)
Definition round2 (x : Qc) : Qc :=
  Q2Qc (inject_Z (rint (this x * (100 # 1))%Q) / (100 # 1))%Q.

(** ** Data model *)

(** An entry of [bill['items']]: [{"name": ..., "price": ...}]. *)
Record Item : Type := { name : string; price : Qc }.

(** [edited_bill_data] once Step 3 has run over it. *)
Record Bill : Type := {
  items : list Item;
  subtotal : Qc;
  tax : Qc;
  tip : Qc;
  total : Qc
}.

(** ** Step 5: the split calculation (pay.py, lines 141-168) *)

(** [{name: 0 for name in names}] *)
Definition init_costs (names : list string) : gmap string Qc :=
  foldl (λ m n, <[n := 0]> m) ∅ names.

(** [individual_costs[name] += cost_per_person] *)
Definition add_cost (cost_per_person : Qc) (costs : gmap string Qc)
    (n : string) : result (gmap string Qc) :=
  match costs !! n with
  | Some c => Ok (<[n := c + cost_per_person]> costs)
  | None => Raise (KeyError n)
  end.

(** The body of [for item in ...['items']] (lines 144-148). *)
Definition item_step (allocations : gmap string (list string))
    (costs : gmap string Qc) (item : Item) : result (gmap string Qc) :=
  match allocations !! name item with
  | None => Raise (KeyError (name item))
  | Some allocated_to =>
      match allocated_to with
      | [] => Ok costs
      | _ :: _ =>
          cost_per_person ← py_div (price item) (length allocated_to);
          for_each (add_cost cost_per_person) costs allocated_to
      end
  end.

(** Lines 142-148. *)
Definition individual_costs (names : list string) (its : list Item)
    (allocations : gmap string (list string)) : result (gmap string Qc) :=
  for_each (item_step allocations) (init_costs names) its.

(** Lines 163-166. *)
Definition final_costs (names : list string) (bill : Bill)
    (costs : gmap string Qc) : result (gmap string Qc) :=
  let tax_and_tip := tax bill + tip bill in
  tax_and_tip_per_person ← py_div tax_and_tip (length names);
  mret ((λ cost, cost + tax_and_tip_per_person) <$> costs).

(** The [Amount] column after [.round(2)], keyed by the [Name] column. *)
Definition rounded_table (costs : gmap string Qc) : gmap string Qc :=
  round2 <$> costs.

(** What [Calculate Split] produces: the two dicts and the two tables. *)
Record Split : Type := {
  individual : gmap string Qc;
  results_df : gmap string Qc;
  final : gmap string Qc;
  final_df : gmap string Qc
}.

Definition calculate_split (names : list string) (bill : Bill)
    (allocations : gmap string (list string)) : result Split :=
  costs ← individual_costs names (items bill) allocations;
  fin ← final_costs names bill costs;
  mret {| individual := costs; results_df := rounded_table costs;
          final := fin; final_df := rounded_table fin |}.

(** Sum of the values of a dict. *)
Definition sum_values (m : gmap string Qc) : Qc :=
  map_fold (λ _ v acc, v + acc) 0 m.


(** The fraction [n/d] as a price. *)
Definition qc (n : Z) (d : positive) : Qc := Q2Qc (n # d).


(** ** Python objects that [json.loads] can return *)

Inductive pyobj : Type :=
  | PNone
  | PBool (b : bool)
  | PNum (x : Qc)
  | PStr (s : string)
  | PList (l : list pyobj)
  | PDict (d : list (string * pyobj)).

(** [d[k] = v] on a dict kept as an association list: an existing key keeps
    its position, a new key goes last. *)
Fixpoint dict_set (d : list (string * pyobj)) (k : string) (v : pyobj)
  : list (string * pyobj) :=
  match d with
  | [] => [(k, v)]
  | (k', v') :: r =>
      if String.eqb k' k then (k, v) :: r else (k', v') :: dict_set r k v
  end.

Fixpoint dict_get (d : list (string * pyobj)) (k : string) : option pyobj :=
  match d with
  | [] => None
  | (k', v') :: r => if String.eqb k' k then Some v' else dict_get r k
  end.

(** ** A model of [json.loads]

    The library function is not part of the repository; it is modelled for
    the JSON grammar of RFC 8259 as a lexer followed by a stack parser, both
    structurally recursive on their input.  Outside the model: the
    non-standard literals [NaN] and [Infinity], the pairing of UTF-16
    surrogate escapes, and the binary rounding of number literals. *)

Inductive token : Type :=
  | TLBrace | TRBrace | TLBracket | TRBracket | TColon | TComma
  | TString (s : string)
  | TNumber (x : Qc)
  | TTrue | TFalse | TNull.

(** The double quote character. *)
Definition quote : ascii := ascii_of_nat 34.

Definition is_ws (c : ascii) : bool :=
  let n := nat_of_ascii c in
  (n =? 32)%nat || (n =? 9)%nat || (n =? 10)%nat || (n =? 13)%nat.

Definition digit_val (c : ascii) : option Z :=
  let n := Z.of_nat (nat_of_ascii c) in
  if (48 <=? n)%Z && (n <=? 57)%Z then Some (n - 48)%Z else None.

Definition hex_val (c : ascii) : option Z :=
  let n := Z.of_nat (nat_of_ascii c) in
  if (48 <=? n)%Z && (n <=? 57)%Z then Some (n - 48)%Z
  else if (65 <=? n)%Z && (n <=? 70)%Z then Some (n - 55)%Z
  else if (97 <=? n)%Z && (n <=? 102)%Z then Some (n - 87)%Z
  else None.

(** The characters of numbers and of the literals [true], [false], [null]. *)
Definition is_word_char (c : ascii) : bool :=
  let n := Z.of_nat (nat_of_ascii c) in
  ((48 <=? n)%Z && (n <=? 57)%Z) || ((65 <=? n)%Z && (n <=? 90)%Z)
  || ((97 <=? n)%Z && (n <=? 122)%Z)
  || (n =? 43)%Z || (n =? 45)%Z || (n =? 46)%Z.

(** The longest prefix of digits, as their values, and the rest. *)
Fixpoint take_digits (s : list ascii) : list Z * list ascii :=
  match s with
  | [] => ([], [])
  | c :: r =>
      match digit_val c with
      | Some d => let '(ds, r') := take_digits r in (d :: ds, r')
      | None => ([], s)
      end
  end.

Definition digits_value (ds : list Z) : Z :=
  foldl (λ acc d, (10 * acc + d)%Z) 0%Z ds.

Definition pow10 (e : Z) : Qc :=
  if (0 <=? e)%Z then Qc_of_Z (10 ^ e)
  else Q2Qc (1 # Z.to_pos (10 ^ (- e))).

(** A JSON number: an optional minus sign, an integer part without a
    leading zero, an optional fraction and an optional exponent. *)
Definition number_of_word (w : list ascii) : option Qc :=
  let '(neg, w1) :=
    match w with
    | c :: r => if Ascii.eqb c "-" then (true, r) else (false, w)
    | [] => (false, w)
    end in
  let '(ip, w2) := take_digits w1 in
  match ip with
  | [] => None
  | d :: ds =>
      if (d =? 0)%Z && negb (bool_decide (ds = [])) then None else
      let frac :=
        match w2 with
        | c :: r =>
            if Ascii.eqb c "." then
              let '(fs, r') := take_digits r in
              match fs with
              | [] => None
              | _ :: _ => Some (fs, r')
              end
            else Some ([], w2)
        | [] => Some ([], w2)
        end in
      '(fs, w3) ← frac;
      let mantissa :=
        Qc_of_Z (digits_value ip)
        + Qc_of_Z (digits_value fs) * pow10 (- Z.of_nat (length fs)) in
      let expo :=
        match w3 with
        | [] => Some 0%Z
        | c :: r =>
            if Ascii.eqb c "e" || Ascii.eqb c "E" then
              let '(eneg, r1) :=
                match r with
                | s :: r' =>
                    if Ascii.eqb s "-" then (true, r')
                    else if Ascii.eqb s "+" then (false, r')
                    else (false, r)
                | [] => (false, r)
                end in
              match take_digits r1 with
              | ((_ :: _) as es, []) =>
                  Some (if eneg then (- digits_value es)%Z
                        else digits_value es)
              | _ => None
              end
            else None
        end in
      e ← expo;
      let v := mantissa * pow10 e in
      Some (if neg then - v else v)
  end.

Definition word_token (w : list ascii) : option token :=
  let s := string_of_list_ascii w in
  if String.eqb s "true" then Some TTrue
  else if String.eqb s "false" then Some TFalse
  else if String.eqb s "null" then Some TNull
  else TNumber <$> number_of_word w.

(** The UTF-8 bytes of the code unit of a [\uXXXX] escape. *)
Definition utf8 (v : Z) : list ascii :=
  let byte (n : Z) := ascii_of_nat (Z.to_nat n) in
  if (v <? 128)%Z then [byte v]
  else if (v <? 2048)%Z then
    [byte (192 + v / 64)%Z; byte (128 + v mod 64)%Z]
  else [byte (224 + v / 4096)%Z; byte (128 + (v / 64) mod 64)%Z;
        byte (128 + v mod 64)%Z].

Inductive lex_state : Type :=
  | LIdle
  | LWord (w : list ascii)                       (* reversed *)
  | LStr (cs : list ascii)                       (* reversed *)
  | LEsc (cs : list ascii)
  | LHex (cs : list ascii) (todo : nat) (v : Z).

Definition lex_idle (c : ascii) : option (lex_state * list token) :=
  if is_ws c then Some (LIdle, [])
  else if Ascii.eqb c "{" then Some (LIdle, [TLBrace])
  else if Ascii.eqb c "}" then Some (LIdle, [TRBrace])
  else if Ascii.eqb c "[" then Some (LIdle, [TLBracket])
  else if Ascii.eqb c "]" then Some (LIdle, [TRBracket])
  else if Ascii.eqb c ":" then Some (LIdle, [TColon])
  else if Ascii.eqb c "," then Some (LIdle, [TComma])
  else if Ascii.eqb c quote then Some (LStr [], [])
  else if is_word_char c then Some (LWord [c], [])
  else None.

Definition unescape (c : ascii) : option ascii :=
  if Ascii.eqb c quote then Some c
  else if Ascii.eqb c "\" then Some c
  else if Ascii.eqb c "/" then Some c
  else if Ascii.eqb c "b" then Some (ascii_of_nat 8)
  else if Ascii.eqb c "f" then Some (ascii_of_nat 12)
  else if Ascii.eqb c "n" then Some (ascii_of_nat 10)
  else if Ascii.eqb c "r" then Some (ascii_of_nat 13)
  else if Ascii.eqb c "t" then Some (ascii_of_nat 9)
  else None.

Definition lex_step (st : lex_state) (c : ascii)
  : option (lex_state * list token) :=
  match st with
  | LIdle => lex_idle c
  | LWord w =>
      if is_word_char c then Some (LWord (c :: w), [])
      else
        t ← word_token (rev w);
        '(st', ts) ← lex_idle c;
        Some (st', t :: ts)
  | LStr cs =>
      if Ascii.eqb c quote then
        Some (LIdle, [TString (string_of_list_ascii (rev cs))])
      else if Ascii.eqb c "\" then Some (LEsc cs, [])
      else if (nat_of_ascii c <? 32)%nat then None
      else Some (LStr (c :: cs), [])
  | LEsc cs =>
      if Ascii.eqb c "u" then Some (LHex cs 4 0%Z, [])
      else c' ← unescape c; Some (LStr (c' :: cs), [])
  | LHex cs todo v =>
      d ← hex_val c;
      let v' := (16 * v + d)%Z in
      match todo with
      | 1%nat => Some (LStr (rev (utf8 v') ++ cs), [])
      | _ => Some (LHex cs (pred todo) v', [])
      end
  end.

Fixpoint lex (st : lex_state) (s : list ascii) : option (list token) :=
  match s with
  | [] =>
      match st with
      | LIdle => Some []
      | LWord w => t ← word_token (rev w); Some [t]
      | _ => None
      end
  | c :: r =>
      '(st', ts) ← lex_step st c;
      rest ← lex st' r;
      Some (ts ++ rest)
  end.

(** The enclosing containers of the value being read. *)
Inductive frame : Type :=
  | FList (done : list pyobj)                           (* reversed *)
  | FDict (done : list (string * pyobj)) (key : string).

Inductive parse_state : Type :=
  | PValue (stack : list frame)          (* a value must follow *)
  | PFirstElem (stack : list frame)      (* just after '[' *)
  | PFirstKey (stack : list frame)       (* just after '{' *)
  | PKey (done : list (string * pyobj)) (stack : list frame)
  | PColon (done : list (string * pyobj)) (key : string) (stack : list frame)
  | PListNext (done : list pyobj) (stack : list frame)   (* ',' or ']' *)
  | PDictNext (done : list (string * pyobj)) (stack : list frame)
  | PDone (v : pyobj).

(** A value [v] is complete: hand it to the enclosing container. *)
Definition close_value (v : pyobj) (stack : list frame) : parse_state :=
  match stack with
  | [] => PDone v
  | FList done :: stack' => PListNext (v :: done) stack'
  | FDict done key :: stack' => PDictNext (dict_set done key v) stack'
  end.

Definition open_value (t : token) (stack : list frame) : option parse_state :=
  match t with
  | TLBrace => Some (PFirstKey stack)
  | TLBracket => Some (PFirstElem stack)
  | TString s => Some (close_value (PStr s) stack)
  | TNumber x => Some (close_value (PNum x) stack)
  | TTrue => Some (close_value (PBool true) stack)
  | TFalse => Some (close_value (PBool false) stack)
  | TNull => Some (close_value PNone stack)
  | _ => None
  end.

Definition parse_step (st : parse_state) (t : token) : option parse_state :=
  match st, t with
  | PValue stack, _ => open_value t stack
  | PFirstElem stack, TRBracket => Some (close_value (PList []) stack)
  | PFirstElem stack, _ => open_value t (FList [] :: stack)
  | PFirstKey stack, TRBrace => Some (close_value (PDict []) stack)
  | PFirstKey stack, TString k => Some (PColon [] k stack)
  | PKey done stack, TString k => Some (PColon done k stack)
  | PColon done k stack, TColon => Some (PValue (FDict done k :: stack))
  | PListNext done stack, TComma => Some (PValue (FList done :: stack))
  | PListNext done stack, TRBracket =>
      Some (close_value (PList (rev done)) stack)
  | PDictNext done stack, TComma => Some (PKey done stack)
  | PDictNext done stack, TRBrace => Some (close_value (PDict done) stack)
  | _, _ => None
  end.

Fixpoint parse (st : parse_state) (ts : list token) : option pyobj :=
  match ts with
  | [] => match st with PDone v => Some v | _ => None end
  | t :: r => st' ← parse_step st t; parse st' r
  end.

Definition json_loads (text : string) : result pyobj :=
  match lex LIdle (list_ascii_of_string text) ≫= parse (PValue []) with
  | Some v => Ok v
  | None => Raise JSONDecodeError
  end.

(** ** [re.search(r'\{.*\}', text, re.DOTALL)]

    The leftmost match starts at the first ['{'] that has a ['}'] after it;
    every later ['{'] sees the same closing braces, so that is the first
    ['{'] of the text.  The greedy [.*], which with DOTALL also crosses
    line ends, extends the match to the last ['}'] of the text. *)

(** The suffix starting at the first ['{']. *)
Fixpoint from_first_open (s : list ascii) : option (list ascii) :=
  match s with
  | [] => None
  | c :: r => if Ascii.eqb c "{" then Some s else from_first_open r
  end.

(** The prefix ending at the last ['}']. *)
Fixpoint upto_last_close (s : list ascii) : option (list ascii) :=
  match s with
  | [] => None
  | c :: r =>
      match upto_last_close r with
      | Some p => Some (c :: p)
      | None => if Ascii.eqb c "}" then Some [c] else None
      end
  end.

Definition re_search_braces (text : string) : option string :=
  match from_first_open (list_ascii_of_string text) with
  | Some (c :: r) =>
      p ← upto_last_close r; Some (string_of_list_ascii (c :: p))
  | _ => None
  end.

(** ** The session and the page *)

(** What a run of the script writes on the page (the widgets the properties
    below speak about). *)
Inductive widget : Type :=
  | st_error (msg : string)
  | st_error_exn (e : exn)            (* "Error processing the image: {e}" *)
  | st_code (body : string)
  | st_success (msg : string)
  | st_write_total (x : Qc)           (* "Total: ${total:.2f}" *)
  | st_table (rows : gmap string Qc).

(** [st.session_state]: a field is [None] while its key is absent. *)
Record Session : Type := {
  names : option (list string);
  original_bill_data : option pyobj;
  edited_bill_data : option pyobj;
  allocations : option (gmap string (list string))
}.

Definition new_session : Session :=
  {| names := None; original_bill_data := None; edited_bill_data := None;
     allocations := None |}.

Record state : Type := { session : Session; page : list widget }.

(** Handlers mutate the session in place: what was written before an
    exception stays written. *)
Definition M (A : Type) : Type := state → result A * state.

Global Instance M_ret : MRet M := λ A a s, (Ok a, s).
Global Instance M_bind : MBind M := λ A B f m s,
  match m s with
  | (Ok a, s') => f a s'
  | (Raise e, s') => (Raise e, s')
  end.

Definition raise {A : Type} (e : exn) : M A := λ s, (Raise e, s).
Definition lift {A : Type} (r : result A) : M A := λ s, (r, s).
Definition get_session : M Session := λ s, (Ok (session s), s).
Definition update (f : Session → Session) : M unit :=
  λ s, (Ok (), {| session := f (session s); page := page s |}).
Definition show (w : widget) : M unit :=
  λ s, (Ok (), {| session := session s; page := page s ++ [w] |}).

Fixpoint for_each_M {A : Type} (body : A → M unit) (l : list A) : M unit :=
  match l with
  | [] => mret ()
  | x :: r => body x;; for_each_M body r
  end.

Definition set_names (v : list string) (s : Session) : Session :=
  {| names := Some v; original_bill_data := original_bill_data s;
     edited_bill_data := edited_bill_data s; allocations := allocations s |}.
Definition set_original_bill_data (v : pyobj) (s : Session) : Session :=
  {| names := names s; original_bill_data := Some v;
     edited_bill_data := edited_bill_data s; allocations := allocations s |}.
Definition set_edited_bill_data (v : pyobj) (s : Session) : Session :=
  {| names := names s; original_bill_data := original_bill_data s;
     edited_bill_data := Some v; allocations := allocations s |}.
Definition set_allocations (v : gmap string (list string)) (s : Session)
  : Session :=
  {| names := names s; original_bill_data := original_bill_data s;
     edited_bill_data := edited_bill_data s; allocations := Some v |}.

(** What the user did before this run of the script. *)
Record Inputs : Type := {
  names_input : string;
  uploaded_file : bool;
  analyze_bill : bool;                   (* st.button("Analyze Bill") *)
  generate_content : result string;      (* the reply's text, or the call raised *)
  item_name_input : nat → option string; (* typed into "Item i Name" *)
  item_price_input : nat → option Qc;
  subtotal_input : option Qc;
  tax_input : option Qc;
  tip_input : option Qc;
  checkbox : string → bool;              (* by widget key *)
  calculate_split_button : bool          (* st.button("Calculate Split") *)
}.

(** ** [get_gemini_response] (pay.py, lines 39-58) *)

(** The body of the outer [try]. *)
Definition try_extract (call : result string) : result pyobj :=
  response ← call;
  match json_loads response with
  | Ok v => Ok v
  | Raise JSONDecodeError =>
      match re_search_braces response with
      | Some json_match => json_loads json_match
      | None => Raise ValueError
      end
  | Raise e => Raise e
  end.

Definition get_gemini_response (call : result string) : M pyobj :=
  match try_extract call with
  | Ok v => mret v
  | Raise e =>
      show (st_error_exn e);;
      show (st_error "Raw response from Gemini:");;
      match call with
      | Ok response => show (st_code response);; mret PNone
      | Raise _ => raise UnboundLocalError   (* [response] was never bound *)
      end
  end.

(** ** Step 1: names (lines 68-72) *)

Definition is_space (c : ascii) : bool :=
  let n := nat_of_ascii c in
  (n =? 32)%nat || ((9 <=? n)%nat && (n <=? 13)%nat)
  || ((28 <=? n)%nat && (n <=? 31)%nat).

Fixpoint lstrip (s : list ascii) : list ascii :=
  match s with
  | c :: r => if is_space c then lstrip r else s
  | [] => []
  end.

Definition strip (s : list ascii) : list ascii :=
  rev (lstrip (rev (lstrip s))).

(** [s.split(",")], with [cur] the reversed piece read so far. *)
Fixpoint split_commas (cur : list ascii) (s : list ascii)
  : list (list ascii) :=
  match s with
  | [] => [rev cur]
  | c :: r =>
      if Ascii.eqb c "," then rev cur :: split_commas [] r
      else split_commas (c :: cur) r
  end.

Definition parse_names (names_input : string) : list string :=
  (λ n, string_of_list_ascii (strip n))
    <$> split_commas [] (list_ascii_of_string names_input).

Fixpoint join (sep : string) (l : list string) : string :=
  match l with
  | [] => ""
  | [x] => x
  | x :: r => x +:+ sep +:+ join sep r
  end.

Definition enter_names (inp : Inputs) : M unit :=
  if String.eqb (names_input inp) "" then mret ()
  else
    let ns := parse_names (names_input inp) in
    update (set_names ns);;
    show (st_success ("Names added: " +:+ join ", " ns)).

(** ** Step 2: upload and analyze (lines 78-88) *)

(** [bill_data.copy()]: dicts and lists have the method. *)
Definition py_copy (o : pyobj) : result pyobj :=
  match o with
  | PDict d => Ok (PDict d)
  | PList l => Ok (PList l)
  | _ => Raise AttributeError
  end.

Definition upload_and_process (inp : Inputs) : M unit :=
  if uploaded_file inp && analyze_bill inp then
    bill_data ← get_gemini_response (generate_content inp);
    update (set_original_bill_data bill_data);;
    copy ← lift (py_copy bill_data);
    update (set_edited_bill_data copy);;
    show (st_success "Bill processed successfully!")
  else mret ().

(** ** Step 3: verify and edit (lines 91-116) *)

(** [o[k]] *)
Definition getitem (o : pyobj) (k : string) : result pyobj :=
  match o with
  | PDict d =>
      match dict_get d k with
      | Some v => Ok v
      | None => Raise (KeyError k)
      end
  | _ => Raise TypeError
  end.

(** [o[k] = v] *)
Definition setitem (o : pyobj) (k : string) (v : pyobj) : result pyobj :=
  match o with
  | PDict d => Ok (PDict (dict_set d k v))
  | _ => Raise TypeError
  end.

(** [float(o)].  A string is read with the JSON number grammar, which is
    narrower than the grammar of Python's [float]. *)
Definition py_float (o : pyobj) : result Qc :=
  match o with
  | PNum x => Ok x
  | PBool b => Ok (if b then 1 else 0)
  | PStr s =>
      match number_of_word (strip (list_ascii_of_string s)) with
      | Some x => Ok x
      | None => Raise ValueError
      end
  | _ => Raise TypeError
  end.

(** The elements a [for] loop over [o] visits, when each is then indexed by
    a string: a non-empty dict or string yields strings, whose indexing by
    ["name"] raises [TypeError] like the iteration of a non-iterable. *)
Definition elements_of (o : pyobj) : result (list pyobj) :=
  match o with
  | PList l => Ok l
  | PDict [] => Ok []
  | PStr "" => Ok []
  | _ => Raise TypeError
  end.

(** The value shown in a text box.  Streamlit shows [str(value)]; a name that
    is not a JSON string is outside the model. *)
Definition as_str (o : pyobj) : result string :=
  match o with
  | PStr s => Ok s
  | _ => Raise TypeError
  end.

Definition as_num (o : pyobj) : result Qc :=
  match o with
  | PNum x => Ok x
  | PBool b => Ok (if b then 1 else 0)
  | _ => Raise TypeError
  end.

(** [{"name": new_name, "price": new_price}] *)
Definition item_dict (it : Item) : pyobj :=
  PDict [("name", PStr (name it)); ("price", PNum (price it))].

(** A widget returns what the user typed, or else its [value] argument. *)
Definition widget_value {A : Type} (typed : option A) (value : A) : A :=
  default value typed.

(** [st.session_state['edited_bill_data']] *)
Definition edited : M pyobj :=
  s ← get_session;
  match edited_bill_data s with
  | Some ed => mret ed
  | None => raise (KeyError "edited_bill_data")
  end.

(** [st.session_state['edited_bill_data'][k] = v] *)
Definition set_edited (k : string) (v : pyobj) : M unit :=
  ed ← edited;
  ed' ← lift (setitem ed k v);
  update (set_edited_bill_data ed').

(** [st.session_state['edited_bill_data']['items'][i] = v] *)
Definition set_edited_item (i : nat) (v : pyobj) : M unit :=
  ed ← edited;
  its ← lift (getitem ed "items");
  match its with
  | PList l => set_edited "items" (PList (<[i := v]> l))
  | _ => raise TypeError
  end.

(** The body of the loop of lines 96-102. *)
Definition edit_item (inp : Inputs) (entry : nat * pyobj) : M unit :=
  let '(i, item) := entry in
  shown_name ← lift (getitem item "name" ≫= as_str);
  let new_name := widget_value (item_name_input inp i) shown_name in
  shown_price ← lift (getitem item "price" ≫= py_float);
  let new_price := widget_value (item_price_input inp i) shown_price in
  set_edited_item i (item_dict {| name := new_name; price := new_price |}).

(** Lines 106-108: one [number_input] written back under its key. *)
Definition edit_number (k : string) (typed : option Qc) : M unit :=
  ed ← edited;
  shown ← lift (getitem ed k ≫= py_float);
  set_edited k (PNum (widget_value typed shown)).

(** Lines 111-115. *)
Definition recalculate_total : M Qc :=
  ed ← edited;
  sub ← lift (getitem ed "subtotal" ≫= as_num);
  tx ← lift (getitem ed "tax" ≫= as_num);
  tp ← lift (getitem ed "tip" ≫= as_num);
  set_edited "total" (PNum (sub + tx + tp));;
  mret (sub + tx + tp).

Definition verify_and_edit (inp : Inputs) : M unit :=
  s ← get_session;
  match edited_bill_data s with
  | None => mret ()
  | Some ed =>
      its ← lift (getitem ed "items" ≫= elements_of);
      for_each_M (edit_item inp) (imap (λ i item, (i, item)) its);;
      edit_number "subtotal" (subtotal_input inp);;
      edit_number "tax" (tax_input inp);;
      edit_number "tip" (tip_input inp);;
      t ← recalculate_total;
      show (st_write_total t)
  end.

(** ** Step 4: allocate items (lines 119-134) *)

Definition read_item (o : pyobj) : result Item :=
  n ← getitem o "name" ≫= as_str;
  p ← getitem o "price" ≫= as_num;
  mret {| name := n; price := p |}.

(** [st.session_state['edited_bill_data']['items']] as Steps 4 and 5 read
    it. *)
Definition read_items (ed : pyobj) : result (list Item) :=
  its ← getitem ed "items" ≫= elements_of;
  mapM read_item its.

Definition read_bill (ed : pyobj) : result Bill :=
  its ← read_items ed;
  sub ← getitem ed "subtotal" ≫= as_num;
  tx ← getitem ed "tax" ≫= as_num;
  tp ← getitem ed "tip" ≫= as_num;
  tot ← getitem ed "total" ≫= as_num;
  mret {| items := its; subtotal := sub; tax := tx; tip := tp; total := tot |}.

(** [{item['name']: [] for item in ...['items']}] *)
Definition init_allocations (its : list Item) : gmap string (list string) :=
  foldl (λ m it, <[name it := []]> m) ∅ its.

(** [l.remove(x)] for an [x] that is in [l]: the first occurrence goes. *)
Fixpoint py_remove (x : string) (l : list string) : list string :=
  match l with
  | [] => []
  | y :: r => if String.eqb y x then r else y :: py_remove x r
  end.

(** [name in l] *)
Definition py_in (x : string) (l : list string) : bool :=
  existsb (String.eqb x) l.

(** Lines 129-134 for one checkbox, on the allocations dict. *)
Definition toggle (item_name person : string) (checked : bool)
    (al : gmap string (list string)) : result (gmap string (list string)) :=
  match al !! item_name with
  | None => Raise (KeyError item_name)
  | Some sharers =>
      if checked then
        if negb (py_in person sharers)
        then Ok (<[item_name := sharers ++ [person]]> al)
        else Ok al
      else
        if py_in person sharers
        then Ok (<[item_name := py_remove person sharers]> al)
        else Ok al
  end.

(** The two operations of the allocation tracker. *)
Definition assign (item_name person : string) := toggle item_name person true.
Definition unassign (item_name person : string) :=
  toggle item_name person false.

(** [allocation.sharers(item)] *)
Definition sharers_of (al : gmap string (list string)) (item_name : string)
  : gset string :=
  list_to_set (default [] (al !! item_name)).

(** [st.session_state['allocations']] updated in place by [f]. *)
Definition on_allocations
    (f : gmap string (list string) → result (gmap string (list string)))
  : M unit :=
  s ← get_session;
  match allocations s with
  | None => raise (KeyError "allocations")
  | Some al => al' ← lift (f al); update (set_allocations al')
  end.

(** The key of the checkbox of an item and a person: [f"{item}_{name}"]. *)
Definition checkbox_key (item_name person : string) : string :=
  item_name +:+ "_" +:+ person.

Definition allocate_items (inp : Inputs) : M unit :=
  s ← get_session;
  match edited_bill_data s, names s with
  | Some ed, Some ns =>
      its ← lift (read_items ed);
      match allocations s with
      | None => update (set_allocations (init_allocations its))
      | Some _ => mret ()
      end;;
      for_each_M (λ item,
        for_each_M (λ person,
          on_allocations
            (toggle (name item) person
               (checkbox inp (checkbox_key (name item) person)))) ns) its
  | _, _ => mret ()
  end.

(** ** Step 5 inside the page (lines 137-171)

    Step 3 has run before in the same run of the script, so the edited bill
    holds items with a name and a number as price, and numbers under its
    four summary keys; [read_bill] reads them at once. *)

Definition calculate (inp : Inputs) : M unit :=
  if calculate_split_button inp then
    s ← get_session;
    match allocations s, edited_bill_data s with
    | Some al, Some ed =>
        ns ← match names s with
             | Some ns => mret ns
             | None => raise (KeyError "names")
             end;
        bill ← lift (read_bill ed);
        costs ← lift (individual_costs ns (items bill) al);
        show (st_table (rounded_table costs));;
        show (st_write_total (total bill));;
        fin ← lift (final_costs ns bill costs);
        show (st_table (rounded_table fin))
    | _, _ => mret ()
    end
  else mret ().

(** ** One run of the script *)

Definition main (inp : Inputs) : M unit :=
  enter_names inp;;
  upload_and_process inp;;
  verify_and_edit inp;;
  allocate_items inp;;
  calculate inp.

(** A run starts on an empty page. *)
Definition run_main (inp : Inputs) (s : Session) : result unit * state :=
  main inp {| session := s; page := [] |}.

(** The session after the runs for a list of interactions. *)
Definition run_all (inps : list Inputs) (s : Session) : Session :=
  foldl (λ s inp, session (run_main inp s).2) s inps.

(** ** Preconditions of the split, as checks

    [sharers_known]: the item has an entry in the allocations and every
    sharer of it is a participant.  [sharers_nonempty]: the item has at
    least one sharer. *)

Definition sharers_known (names : list string)
    (al : gmap string (list string)) (it : Item) : bool :=
  match al !! name it with
  | Some sharers => forallb (λ n, existsb (String.eqb n) names) sharers
  | None => false
  end.

Definition sharers_nonempty (al : gmap string (list string)) (it : Item)
  : bool :=
  match al !! name it with
  | Some (_ :: _) => true
  | _ => false
  end.

(** ** The bill of the end-to-end scenario *)

Definition pizza_soda : Bill :=
  {| items := [ {| name := "Pizza"; price := qc 20 1 |};
                {| name := "Soda"; price := qc 4 1 |} ];
     subtotal := qc 24 1; tax := qc 2 1; tip := qc 3 1; total := qc 29 1 |}.

Definition pizza_soda_allocations : gmap string (list string) :=
  <["Pizza" := ["Alice"; "Bob"]]> (<["Soda" := ["Alice"]]> ∅).

(** The fractions stored in a dict of prices, for comparing dicts of
    concrete numbers. *)
Definition fractions (m : gmap string Qc) : gmap string Q := this <$> m.

(** ** The allocation toggles as functions on a list of sharers *)

(** What [toggle] leaves in the list of an item that has an entry. *)
Definition toggled (person : string) (checked : bool) (sharers : list string)
  : list string :=
  if checked then
    if py_in person sharers then sharers else sharers ++ [person]
  else py_remove person sharers.

(** Two allocation dicts with the same keys and, under each key, the same
    sharers up to their order. *)
Definition same_allocations (a b : gmap string (list string)) : Prop :=
  dom a = dom b ∧ ∀ i, default [] (a !! i) ≡ₚ default [] (b !! i).

(** ** The outermost container of a parse *)

(** The stack of a parse whose outermost container is a JSON object. *)
Definition rooted (stack : list frame) : bool :=
  match list.last stack with
  | Some (FDict _ _) => true
  | _ => false
  end.

(** The states of a parse that can only end in a dict. *)
Definition root_is_dict (st : parse_state) : bool :=
  match st with
  | PValue stack | PFirstElem stack | PListNext _ stack => rooted stack
  | PFirstKey stack | PKey _ stack | PColon _ _ stack | PDictNext _ stack =>
      bool_decide (stack = []) || rooted stack
  | PDone (PDict _) => true
  | PDone _ => false
  end.

(** The reply of the specification's fallback example. *)
Definition chatty_reply : string :=
  let q := String quote "" in
  "Here you go: {" +:+ q +:+ "items" +:+ q +:+ ":[],"
  +:+ q +:+ "subtotal" +:+ q +:+ ":0," +:+ q +:+ "tax" +:+ q +:+ ":0,"
  +:+ q +:+ "tip" +:+ q +:+ ":0," +:+ q +:+ "total" +:+ q +:+ ":0} thanks!".

(** ** Interactions used in the examples *)

(** A run in which the user touches nothing. *)
Definition idle : Inputs :=
  {| names_input := ""; uploaded_file := false; analyze_bill := false;
     generate_content := Raise CallError;
     item_name_input := λ _, None; item_price_input := λ _, None;
     subtotal_input := None; tax_input := None; tip_input := None;
     checkbox := λ _, false; calculate_split_button := false |}.

(** Pressing "Analyze Bill" on an uploaded image, with the outcome of the
    call to the model. *)
Definition press_analyze (call : result string) : Inputs :=
  {| names_input := ""; uploaded_file := true; analyze_bill := true;
     generate_content := call;
     item_name_input := λ _, None; item_price_input := λ _, None;
     subtotal_input := None; tax_input := None; tip_input := None;
     checkbox := λ _, false; calculate_split_button := false |}.

(** ** Step 3 as a function of the bill

    What a run of Step 3 that raises nothing stores as the edited bill. *)

(** The items the loop of lines 96-102 stores, from position [i] on. *)
Fixpoint edited_items (inp : Inputs) (i : nat) (shown : list pyobj)
  : result (list Item) :=
  match shown with
  | [] => Ok []
  | item :: rest =>
      shown_name ← getitem item "name" ≫= as_str;
      shown_price ← getitem item "price" ≫= py_float;
      its ← edited_items inp (S i) rest;
      mret ({| name := widget_value (item_name_input inp i) shown_name;
               price := widget_value (item_price_input inp i) shown_price |}
            :: its)
  end.

Definition edit_bill (inp : Inputs) (ed : pyobj) : result pyobj :=
  shown ← getitem ed "items" ≫= elements_of;
  its ← edited_items inp 0 shown;
  ed ← match shown with
       | [] => Ok ed
       | _ :: _ => setitem ed "items" (PList (item_dict <$> its))
       end;
  sub ← getitem ed "subtotal" ≫= py_float;
  ed ← setitem ed "subtotal" (PNum (widget_value (subtotal_input inp) sub));
  tx ← getitem ed "tax" ≫= py_float;
  ed ← setitem ed "tax" (PNum (widget_value (tax_input inp) tx));
  tp ← getitem ed "tip" ≫= py_float;
  ed ← setitem ed "tip" (PNum (widget_value (tip_input inp) tp));
  setitem ed "total"
    (PNum (widget_value (subtotal_input inp) sub
           + widget_value (tax_input inp) tx
           + widget_value (tip_input inp) tp)).

(** A bill as extracted, with a total that is not the sum of its parts. *)
Definition stale_total_bill : pyobj :=
  PDict [("items", PList [PDict [("name", PStr "Pizza");
                                 ("price", PNum (qc 20 1))]]);
         ("subtotal", PNum (qc 20 1)); ("tax", PNum (qc 3 1));
         ("tip", PNum 0); ("total", PNum (qc 99 1))].

(** The user sets the subtotal to 10.00, the tax to 1.00, the tip to 2.00. *)
Definition edit_ten_one_two : Inputs :=
  {| names_input := ""; uploaded_file := false; analyze_bill := false;
     generate_content := Raise CallError;
     item_name_input := λ _, None; item_price_input := λ _, None;
     subtotal_input := Some (qc 10 1); tax_input := Some (qc 1 1);
     tip_input := Some (qc 2 1);
     checkbox := λ _, false; calculate_split_button := false |}.

(** ** Properties of handlers *)

(** [keeps f m]: a run of [m] leaves the part [f] of the session as it
    was, in every state and whether or not it raises. *)
Definition keeps {A B : Type} (f : Session → B) (m : M A) : Prop :=
  ∀ st, f (session (m st).2) = f (session st).

(** [raises_only P m]: every exception that [m] raises satisfies [P]. *)
Definition raises_only {A : Type} (P : exn → Prop) (m : M A) : Prop :=
  ∀ st e, (m st).1 = Raise e → P e.

(** The keys of the allocations dict, when there is one. *)
Definition allocation_keys (s : Session) : option (gset string) :=
  dom <$> allocations s.

(** What every session of the script satisfies: a stored list of names is
    not empty, and there are allocations only if there are names. *)
Definition has_participants (s : Session) : Prop :=
  names s ≠ Some [] ∧ (allocations s ≠ None → names s ≠ None).

(** A result that is not a division by zero. *)
Definition no_zero_division {A : Type} (r : result A) : Prop :=
  r ≠ Raise ZeroDivisionError.

(** Between two sessions: allocations that exist are still there, under the
    same keys. *)
Definition same_keys (s s' : Session) : Prop :=
  ∀ al, allocations s = Some al →
        ∃ al', allocations s' = Some al' ∧ dom al' = dom al.

(** ** Sessions of the examples *)

(** A bill with one item, as Step 3 stores it. *)
Definition one_pizza : pyobj :=
  PDict [("items", PList [PDict [("name", PStr "Pizza");
                                 ("price", PNum (qc 20 1))]]);
         ("subtotal", PNum (qc 20 1)); ("tax", PNum (qc 2 1));
         ("tip", PNum (qc 3 1)); ("total", PNum (qc 25 1))].

(** Alice and Bob have looked at that bill: the allocations exist. *)
Definition pizza_session : Session :=
  {| names := Some ["Alice"; "Bob"];
     original_bill_data := Some one_pizza;
     edited_bill_data := Some one_pizza;
     allocations := Some {[ "Pizza" := [] ]} |}.

(** The user renames the first item to Pasta. *)
Definition rename_to_pasta : Inputs :=
  {| names_input := ""; uploaded_file := false; analyze_bill := false;
     generate_content := Raise CallError;
     item_name_input := λ i, match i with O => Some "Pasta" | _ => None end;
     item_price_input := λ _, None;
     subtotal_input := None; tax_input := None; tip_input := None;
     checkbox := λ _, false; calculate_split_button := false |}.

(** Unallocated items and no participant at all. *)
Definition nobody_allocations : gmap string (list string) :=
  <["Pizza" := []]> (<["Soda" := []]> ∅).

(** The two loops of Step 4 (lines 125-134), for the names [ns]. *)
Definition toggle_rows (inp : Inputs) (ns : list string)
  : list Item → M unit :=
  for_each_M (λ item,
    for_each_M (λ person,
      on_allocations
        (toggle (name item) person
           (checkbox inp (checkbox_key (name item) person)))) ns).

(** ** The split, participant by participant *)

(** How often [p] occurs in a list of sharers. *)
Fixpoint occurrences (p : string) (l : list string) : nat :=
  match l with
  | [] => 0
  | x :: r => (if String.eqb x p then 1 else 0) + occurrences p r
  end.

(** What the item loop adds to the cost of [p] for one item: one share of
    the price per occurrence of [p] among the sharers of the item. *)
Definition share_of (al : gmap string (list string)) (p : string)
    (it : Item) : Qc :=
  match al !! name it with
  | Some sharers =>
      Qc_of_nat (occurrences p sharers)
      * (price it / Qc_of_nat (length sharers))
  | None => 0
  end.

Definition expected_cost (al : gmap string (list string)) (p : string)
    (its : list Item) : Qc :=
  foldr (λ it acc, share_of al p it + acc) 0 its.


(** [p] is a sharer of none of the items. *)
Definition shares_nothing (al : gmap string (list string)) (p : string)
    (its : list Item) : bool :=
  forallb (λ it, negb (py_in p (default [] (al !! name it)))) its.

(** All prices are at least zero. *)
Definition prices_nonnegative (its : list Item) : bool :=
  forallb (λ it, Qle_bool 0 (this (price it))) its.

(** Whether a result is a value. *)
Definition is_ok {A : Type} (r : result A) : bool :=
  match r with Ok _ => true | Raise _ => false end.

(** A key the item loop cannot find: the name of an item without an entry
    in the allocations, or a sharer of an item who is not a participant. *)
Definition missing_key (names : list string)
    (al : gmap string (list string)) (its : list Item) (k : string) : Prop :=
  ∃ it, it ∈ its
    ∧ ((k = name it ∧ al !! name it = None)
       ∨ ∃ sharers, al !! name it = Some sharers ∧ k ∈ sharers ∧ k ∉ names).

(** ** The pieces of the names input *)




(** ** Kinds of replies *)

(** What the run of the script that analyzes a bill raises when the reply
    parses to [v]: nothing is wrong with a dict at this point; a list is
    copied but cannot be indexed by ["items"]; anything else has no
    [copy]. *)
Definition unusable_reply (v : pyobj) : option exn :=
  match v with
  | PDict _ => None
  | PList _ => Some TypeError
  | _ => Some AttributeError
  end.

(** ** Step 4 and the lists of sharers *)

(** No list of sharers holds a name twice. *)
Definition distinct_sharers (al : gmap string (list string)) : Prop :=
  ∀ k l, al !! k = Some l → NoDup l.

Definition sharers_distinct (s : Session) : Prop :=
  ∀ al, allocations s = Some al → distinct_sharers al.

(** The session has allocations, and they satisfy [P]. *)
Definition with_allocations (P : gmap string (list string) → Prop)
    (s : Session) : Prop :=
  ∃ al, allocations s = Some al ∧ P al.

(** [p] is a sharer of item [i] exactly when their checkbox is ticked. *)
Definition mirrors (inp : Inputs) (al : gmap string (list string))
    (i p : string) : Prop :=
  p ∈ default [] (al !! i) ↔ checkbox inp (checkbox_key i p) = true.

(** The user ticks the checkbox of Alice under Pizza, and no other. *)
Definition tick_pizza_alice : Inputs :=
  {| names_input := ""; uploaded_file := false; analyze_bill := false;
     generate_content := Raise CallError;
     item_name_input := λ _, None; item_price_input := λ _, None;
     subtotal_input := None; tax_input := None; tip_input := None;
     checkbox := String.eqb "Pizza_Alice"; calculate_split_button := false |}.

(** ** The Calculate Split button *)

(** The same interaction without the press of the button. *)
Definition without_calculate (inp : Inputs) : Inputs :=
  {| names_input := names_input inp; uploaded_file := uploaded_file inp;
     analyze_bill := analyze_bill inp;
     generate_content := generate_content inp;
     item_name_input := item_name_input inp;
     item_price_input := item_price_input inp;
     subtotal_input := subtotal_input inp; tax_input := tax_input inp;
     tip_input := tip_input inp; checkbox := checkbox inp;
     calculate_split_button := false |}.

(** The user presses Calculate Split and nothing else. *)
Definition press_calculate : Inputs :=
  {| names_input := ""; uploaded_file := false; analyze_bill := false;
     generate_content := Raise CallError;
     item_name_input := λ _, None; item_price_input := λ _, None;
     subtotal_input := None; tax_input := None; tip_input := None;
     checkbox := λ _, false; calculate_split_button := true |}.

(** ** Exceptions caught in [get_gemini_response] *)

(** The exceptions raised inside the [try] of [get_gemini_response], which
    its [except Exception] catches: the parser's and the call's. *)
Definition handled (e : exn) : bool :=
  match e with
  | JSONDecodeError | CallError => true
  | _ => false
  end.

(** A result that is not one of those exceptions. *)
Definition unhandled_only {A : Type} (r : result A) : Prop :=
  ∀ e, r = Raise e → handled e = false.

(** * Properties *)

(** ** Results and loops *)

Lemma for_each_app {A S : Type} (body : S → A → result S) s l1 l2 :
  for_each body s (l1 ++ l2) = s' ← for_each body s l1; for_each body s' l2.
Proof.
  revert s. induction l1 as [|x l1 IH]; intros s; simpl; [done|].
  destruct (body s x) as [s'|e]; simpl; [apply IH|done].
Qed.

(** ** Sums of dicts *)

Section sums.
Implicit Types (m : gmap string Qc) (k : string) (v : Qc).


Lemma sum_values_insert m k v :
  m !! k = None → sum_values (<[k := v]> m) = v + sum_values m.
Proof.
  intros Hk. unfold sum_values.
  apply (map_fold_insert_L (λ _ x acc, x + acc)); [|done].
  intros. ring.
Qed.

Lemma sum_values_delete m k v :
  m !! k = Some v → sum_values m = v + sum_values (delete k m).
Proof.
  intros Hk. unfold sum_values.
  apply (map_fold_delete_L (λ _ x acc, x + acc)); [|done].
  intros. ring.
Qed.

Lemma sum_values_update m k v v' :
  m !! k = Some v → sum_values (<[k := v']> m) = sum_values m - v + v'.
Proof.
  intros Hk. rewrite (sum_values_delete m k v Hk).
  rewrite <- insert_delete_eq.
  rewrite sum_values_insert by apply lookup_delete_eq. ring.
Qed.
End sums.

(** ** Rounding *)



Lemma Qc_of_nat_S (n : nat) : Qc_of_nat (S n) = 1 + Qc_of_nat n.
Proof.
  apply Qc_is_canon. unfold Qc_of_nat, Qc_of_Z, Qcplus. simpl this.
  rewrite Qred_correct, Nat2Z.inj_succ, <- Z.add_1_l, inject_Z_plus.
  reflexivity.
Qed.

Lemma Qc_of_nat_0 : Qc_of_nat 0 = 0.
Proof. apply Qc_is_canon. reflexivity. Qed.

Lemma Qc_of_nat_nonzero (n : nat) : Qc_of_nat (S n) ≠ 0.
Proof.
  intros H. apply (f_equal this) in H.
  unfold Qc_of_nat, Qc_of_Z in H. simpl in H.
  injection H. lia.
Qed.


(** ** The split calculation *)

Lemma existsb_eqb_elem_of (x : string) (l : list string) :
  existsb (String.eqb x) l = true ↔ x ∈ l.
Proof.
  rewrite existsb_exists. split.
  - intros (y & Hy & Heq). apply String.eqb_eq in Heq. subst.
    by apply list_elem_of_In.
  - intros Hx. exists x. split; [by apply list_elem_of_In|apply String.eqb_refl].
Qed.

Lemma sharers_known_spec names al it :
  sharers_known names al it = true ↔
  ∃ sharers, al !! name it = Some sharers ∧ ∀ n, n ∈ sharers → n ∈ names.
Proof.
  unfold sharers_known. destruct (al !! name it) as [sharers|].
  - rewrite forallb_forall. split.
    + intros H. exists sharers. split; [done|]. intros n Hn.
      apply existsb_eqb_elem_of, H. by apply list_elem_of_In.
    + intros (? & [= <-] & H) n Hn.
      apply existsb_eqb_elem_of, H. by apply list_elem_of_In.
  - split; [done|]. by intros (? & ? & _).
Qed.

Section split.
Implicit Types (costs : gmap string Qc) (al : gmap string (list string)).

Lemma init_costs_lookup_gen names costs n :
  foldl (λ m n, <[n := 0]> m) costs names !! n
  = if decide (n ∈ names) then Some 0 else costs !! n.
Proof.
  revert costs. induction names as [|x names IH]; intros costs;
    cbn [foldl].
  - case_decide as Hn; [by apply elem_of_nil in Hn|done].
  - rewrite IH. destruct (decide (n = x)) as [->|Hne].
    + rewrite lookup_insert_eq.
      destruct (decide (x ∈ names)), (decide (x ∈ x :: names));
        try done; set_solver.
    + rewrite lookup_insert_ne by done.
      destruct (decide (n ∈ names)), (decide (n ∈ x :: names));
        try done; set_solver.
Qed.

Lemma init_costs_lookup names n :
  init_costs names !! n = if decide (n ∈ names) then Some 0 else None.
Proof. unfold init_costs. by rewrite init_costs_lookup_gen, lookup_empty. Qed.

Lemma init_costs_dom names : dom (init_costs names) = list_to_set names.
Proof.
  apply set_eq. intros n.
  rewrite elem_of_dom, init_costs_lookup, elem_of_list_to_set.
  destruct (decide (n ∈ names)); split; try done.
  all: try (by intros _; eexists); try (by intros [? ?]).
Qed.



Lemma add_cost_Some c costs n v :
  costs !! n = Some v → add_cost c costs n = Ok (<[n := v + c]> costs).
Proof. unfold add_cost. by intros ->. Qed.

Lemma add_cost_None c costs n :
  costs !! n = None → add_cost c costs n = Raise (KeyError n).
Proof. unfold add_cost. by intros ->. Qed.

(** The inner loop: every sharer that is a key gets the share. *)
Lemma add_costs_ok c sharers costs :
  (∀ n, n ∈ sharers → n ∈ dom costs) →
  ∃ costs', for_each (add_cost c) costs sharers = Ok costs'
    ∧ dom costs' = dom costs
    ∧ sum_values costs' = sum_values costs + Qc_of_nat (length sharers) * c.
Proof.
  revert costs. induction sharers as [|n sharers IH]; intros costs Hin.
  - exists costs. cbn [length for_each]. rewrite Qc_of_nat_0.
    repeat split. ring.
  - assert (n ∈ dom costs) as [v Hv]%elem_of_dom by (apply Hin; set_solver).
    cbn [for_each]. rewrite (add_cost_Some _ _ _ _ Hv).
    cbn [mbind result_bind].
    destruct (IH (<[n := v + c]> costs)) as (costs' & Hrun & Hdom & Hsum).
    { intros k Hk. rewrite dom_insert_L.
      apply elem_of_union_r, Hin. by right. }
    exists costs'. split; [done|]. split.
    + rewrite Hdom, dom_insert_L.
      assert (n ∈ dom costs) by (apply elem_of_dom; eauto). set_solver.
    + cbn [length].
      rewrite Hsum, (sum_values_update _ _ _ _ Hv), Qc_of_nat_S. ring.
Qed.

Lemma add_costs_raise c sharers costs e :
  for_each (add_cost c) costs sharers = Raise e → ∃ k, e = KeyError k.
Proof.
  revert costs. induction sharers as [|n sharers IH]; intros costs;
    cbn [for_each].
  - done.
  - destruct (costs !! n) as [v|] eqn:Hn.
    + rewrite (add_cost_Some _ _ _ _ Hn). apply IH.
    + rewrite (add_cost_None _ _ _ Hn). intros [= <-]. eauto.
Qed.

Lemma item_step_raise al costs it e :
  item_step al costs it = Raise e → ∃ k, e = KeyError k.
Proof.
  unfold item_step. destruct (al !! name it) as [[|n sharers]|].
  - done.
  - cbn [py_div mbind result_bind length]. apply add_costs_raise.
  - intros [= <-]. eauto.
Qed.

(** An unallocated item leaves the costs as they are. *)
Lemma item_step_unallocated al costs it :
  al !! name it = Some [] → item_step al costs it = Ok costs.
Proof. unfold item_step. by intros ->. Qed.

(** An allocated item adds its price to the sum of the costs. *)
Lemma item_step_allocated names al costs it :
  dom costs = list_to_set names →
  sharers_known names al it = true → sharers_nonempty al it = true →
  ∃ costs', item_step al costs it = Ok costs'
    ∧ dom costs' = dom costs
    ∧ sum_values costs' = sum_values costs + price it.
Proof.
  intros Hdom (sharers & Hal & Hin)%sharers_known_spec Hne.
  unfold sharers_nonempty in Hne. unfold item_step. rewrite Hal in *.
  destruct sharers as [|n sharers]; [done|].
  cbn [py_div mbind result_bind length].
  destruct (add_costs_ok (price it / Qc_of_nat (S (length sharers)))
              (n :: sharers) costs) as (costs' & Hrun & Hd & Hs).
  { intros k Hk. rewrite Hdom, elem_of_list_to_set. by apply Hin. }
  exists costs'. split; [exact Hrun|]. split; [done|].
  rewrite Hs. cbn [length]. f_equal.
  field. apply Qc_of_nat_nonzero.
Qed.

Lemma individual_costs_raise names its al e :
  individual_costs names its al = Raise e → ∃ k, e = KeyError k.
Proof.
  unfold individual_costs. generalize (init_costs names).
  induction its as [|it its IH]; intros costs; simpl; [done|].
  destruct (item_step al costs it) as [costs'|e'] eqn:Hstep; simpl.
  - apply IH.
  - intros [= <-]. by eapply item_step_raise.
Qed.


(** Without the non-emptiness of the sharers the loop still returns. *)
Lemma for_each_items_ok names al its costs :
  dom costs = list_to_set names →
  forallb (sharers_known names al) its = true →
  ∃ costs', for_each (item_step al) costs its = Ok costs'
    ∧ dom costs' = list_to_set names.
Proof.
  revert costs. induction its as [|it its IH]; intros costs Hdom Hall.
  - by exists costs.
  - simpl in Hall. apply andb_true_iff in Hall as [Hk Hall].
    assert (∃ costs1, item_step al costs it = Ok costs1
              ∧ dom costs1 = dom costs) as (costs1 & Hstep & Hd1).
    { destruct (sharers_nonempty al it) eqn:Hn.
      - destruct (item_step_allocated names al costs it Hdom Hk Hn)
          as (c1 & ? & ? & _). eauto.
      - exists costs. split; [|done].
        apply sharers_known_spec in Hk as (sharers & Hal & _).
        unfold sharers_nonempty in Hn. rewrite Hal in Hn.
        destruct sharers; [|done]. by apply item_step_unallocated. }
    destruct (IH costs1) as (costs' & Hrun & Hd); [congruence|done|].
    exists costs'. simpl. rewrite Hstep. by simpl.
Qed.
End split.

Lemma final_costs_nonempty names bill costs :
  names ≠ [] →
  final_costs names bill costs
  = Ok ((λ cost, cost + (tax bill + tip bill) / Qc_of_nat (length names))
          <$> costs).
Proof. destruct names; [done|]. intros _. reflexivity. Qed.

Lemma final_costs_empty bill costs :
  final_costs [] bill costs = Raise ZeroDivisionError.
Proof. reflexivity. Qed.






(** C3.  An item whose list of sharers is empty is skipped: the loop body
    returns the costs it was given, so the individual costs are those of the
    bill without the item, and no participant receives a share of it.  The
    length of the sharers is divided by only after the emptiness test, so
    the item loop never raises ZeroDivisionError, for any input. *)
Theorem C3_unallocated_items_excluded al it :
  al !! name it = Some [] →
  (∀ costs, item_step al costs it = Ok costs)
  ∧ (∀ names before after,
       individual_costs names (before ++ it :: after) al
       = individual_costs names (before ++ after) al)
  ∧ (∀ names its al', individual_costs names its al'
                       ≠ Raise ZeroDivisionError).
Proof.
  intros Hit. split; [|split].
  - intros costs. by apply item_step_unallocated.
  - intros names before after. unfold individual_costs.
    rewrite !for_each_app.
    destruct (for_each (item_step al) (init_costs names) before)
      as [costs|e]; [|done].
    cbn [mbind result_bind for_each].
    by rewrite (item_step_unallocated _ _ _ Hit).
  - intros names its al' H.
    apply individual_costs_raise in H as [k Hk]. discriminate.
Qed.

Lemma C3_unallocated_items_excluded_witness :
  let al : gmap string (list string) :=
    <["Pizza" := ["Alice"]]> (<["Water" := []]> ∅) in
  let water := {| name := "Water"; price := qc 3 1 |} in
  (∀ costs, item_step al costs water = Ok costs)
  ∧ (∀ names before after,
       individual_costs names (before ++ water :: after) al
       = individual_costs names (before ++ after) al)
  ∧ (∀ names its al', individual_costs names its al'
                       ≠ Raise ZeroDivisionError).
Proof.
  intros al water. apply (C3_unallocated_items_excluded al water).
  vm_compute. reflexivity.
Defined.

(** The end-to-end scenario of the specification: Pizza 20.00 shared by
    Alice and Bob, Soda 4.00 for Alice, tax 2.00 and tip 3.00. *)
Example split_end_to_end :
  ∃ r, calculate_split ["Alice"; "Bob"] pizza_soda pizza_soda_allocations = Ok r
    ∧ fractions (individual r) = <["Alice" := 14 # 1]> (<["Bob" := 10 # 1]> ∅)
    ∧ fractions (results_df r) = <["Alice" := 14 # 1]> (<["Bob" := 10 # 1]> ∅)
    ∧ fractions (final r) = <["Alice" := 33 # 2]> (<["Bob" := 25 # 2]> ∅)
    ∧ fractions (final_df r) = <["Alice" := 33 # 2]> (<["Bob" := 25 # 2]> ∅).
Proof. eexists. split; [reflexivity|]. vm_compute. auto. Qed.

(** Three participants and 9.00 of tax and tip: 3.00 each. *)
Example even_share_of_nine :
  ∃ fin, final_costs ["A"; "B"; "C"]
           {| items := []; subtotal := 0; tax := qc 5 1; tip := qc 4 1;
              total := qc 9 1 |} (init_costs ["A"; "B"; "C"]) = Ok fin
    ∧ fractions fin
      = <["A" := 3 # 1]> (<["B" := 3 # 1]> (<["C" := 3 # 1]> ∅)).
Proof. eexists. split; [reflexivity|]. vm_compute. auto. Qed.

(** ** The allocation toggles *)

Section toggles.
Implicit Types (al : gmap string (list string)) (l : list string).

Lemma py_in_elem_of x l : py_in x l = true ↔ x ∈ l.
Proof. apply existsb_eqb_elem_of. Qed.

Lemma py_in_app x l y : py_in x (l ++ [y]) = py_in x l || String.eqb x y.
Proof.
  unfold py_in. rewrite existsb_app. simpl. by rewrite orb_false_r.
Qed.

Lemma py_remove_absent x l : py_in x l = false → py_remove x l = l.
Proof.
  induction l as [|y l IH]; [done|]. simpl.
  rewrite (String.eqb_sym x y). destruct (String.eqb y x); [done|].
  simpl. intros H. by rewrite IH.
Qed.

Lemma py_remove_app_same x l :
  py_in x l = false → py_remove x (l ++ [x]) = l.
Proof.
  induction l as [|y l IH]; simpl.
  - by rewrite String.eqb_refl.
  - rewrite (String.eqb_sym x y). destruct (String.eqb y x); [done|].
    simpl. intros H. by rewrite IH.
Qed.

Lemma py_remove_app_other x y l :
  x ≠ y → py_remove x (l ++ [y]) = py_remove x l ++ [y].
Proof.
  intros Hne. induction l as [|z l IH]; simpl.
  - destruct (String.eqb_spec y x); congruence.
  - destruct (String.eqb z x); [done|]. by rewrite IH.
Qed.

Lemma py_in_remove_other x y l :
  x ≠ y → py_in x (py_remove y l) = py_in x l.
Proof.
  intros Hne. induction l as [|z l IH]; [done|]. simpl.
  destruct (String.eqb_spec z y) as [->|Hzy].
  - destruct (String.eqb_spec x y); [congruence|done].
  - simpl. fold (py_in x (py_remove y l)). fold (py_in x l).
    by rewrite IH.
Qed.

Lemma py_remove_comm x y l :
  py_remove x (py_remove y l) = py_remove y (py_remove x l).
Proof.
  induction l as [|z l IH]; [done|]. simpl.
  destruct (String.eqb z y) eqn:Ey, (String.eqb z x) eqn:Ex; simpl;
    rewrite ?Ey, ?Ex; try done.
  - apply String.eqb_eq in Ey, Ex. congruence.
  - by rewrite IH.
Qed.

Lemma py_in_toggled_other x y c l :
  x ≠ y → py_in x (toggled y c l) = py_in x l.
Proof.
  intros Hne. unfold toggled. destruct c.
  - destruct (py_in y l); [done|]. rewrite py_in_app.
    destruct (String.eqb_spec x y); [congruence|]. apply orb_false_r.
  - by apply py_in_remove_other.
Qed.

(** [toggle] rewrites the entry of the item and fails without one. *)
Lemma toggle_eq i p c al :
  toggle i p c al
  = match al !! i with
    | Some l => Ok (<[i := toggled p c l]> al)
    | None => Raise (KeyError i)
    end.
Proof.
  unfold toggle, toggled. destruct (al !! i) as [l|] eqn:Hi; [|done].
  destruct c, (py_in p l) eqn:Hp; simpl; try done.
  - by rewrite insert_id.
  - by rewrite (py_remove_absent _ _ Hp), insert_id.
Qed.

Lemma toggled_comm p1 c1 p2 c2 l :
  p1 ≠ p2 →
  toggled p2 c2 (toggled p1 c1 l) ≡ₚ toggled p1 c1 (toggled p2 c2 l).
Proof.
  intros Hne.
  assert (String.eqb p1 p2 = false) as E12 by by apply String.eqb_neq.
  assert (String.eqb p2 p1 = false) as E21
    by (apply String.eqb_neq; congruence).
  destruct c1, c2; unfold toggled.
  - destruct (py_in p1 l) eqn:H1, (py_in p2 l) eqn:H2;
      rewrite ?py_in_app, ?H1, ?H2, ?E12, ?E21; simpl; try done.
    rewrite <- !(assoc_L (++)). apply Permutation_app_head, perm_swap.
  - rewrite (py_in_remove_other p1 p2) by done.
    destruct (py_in p1 l); [done|].
    rewrite py_remove_app_other by congruence. done.
  - rewrite (py_in_remove_other p2 p1) by congruence.
    destruct (py_in p2 l); [done|].
    rewrite py_remove_app_other by congruence. done.
  - by rewrite py_remove_comm.
Qed.

Lemma same_allocations_refl al : same_allocations al al.
Proof. by split. Qed.

Lemma toggle_comm al i1 p1 c1 i2 p2 c2 :
  (i1, p1) ≠ (i2, p2) →
  match toggle i1 p1 c1 al ≫= toggle i2 p2 c2,
        toggle i2 p2 c2 al ≫= toggle i1 p1 c1 with
  | Ok a, Ok b => same_allocations a b
  | Raise (KeyError _), Raise (KeyError _) => True
  | _, _ => False
  end.
Proof.
  intros Hne. rewrite (toggle_eq i1), (toggle_eq i2 p2 c2 al).
  destruct (decide (i1 = i2)) as [->|Hi].
  - assert (p1 ≠ p2) by congruence.
    destruct (al !! i2) as [l|] eqn:Hl; cbn [mbind result_bind]; [|done].
    rewrite !toggle_eq, !lookup_insert_eq, !insert_insert_eq.
    split.
    + by rewrite !dom_insert_L.
    + intros i. destruct (decide (i = i2)) as [->|].
      * rewrite !lookup_insert_eq. simpl. by apply toggled_comm.
      * by rewrite !lookup_insert_ne.
  - destruct (al !! i1) as [l1|] eqn:H1, (al !! i2) as [l2|] eqn:H2;
      cbn [mbind result_bind]; rewrite ?toggle_eq, ?lookup_insert_ne by done;
      rewrite ?H1, ?H2; try done.
    rewrite (insert_insert_ne al i2 i1) by done.
    apply same_allocations_refl.
Qed.
End toggles.

(** C7 (as amended).  Assigning a participant to an item twice is the same as
    assigning once.  Unassigning after assigning gives back the allocations
    as they were when the participant was not a sharer of the item before;
    when the participant already was one, the pair acts as a plain unassign
    and the participant is no longer a sharer.  Two toggles on distinct
    (item, participant) pairs commute: in both orders they fail with a
    KeyError when an item has no entry, and otherwise leave the same keys
    with the same sharers up to the order of the lists, so the same sharer
    sets. *)
Theorem C7_allocation_toggles :
  (∀ al i p, assign i p al ≫= assign i p = assign i p al)
  ∧ (∀ al i p l, al !! i = Some l → p ∉ l →
       assign i p al ≫= unassign i p = Ok al)
  ∧ (∀ al i p l, al !! i = Some l → p ∈ l →
       assign i p al ≫= unassign i p = unassign i p al
       ∧ (NoDup l → ∃ al', unassign i p al = Ok al' ∧ p ∉ sharers_of al' i))
  ∧ (∀ al i1 p1 c1 i2 p2 c2, (i1, p1) ≠ (i2, p2) →
       match toggle i1 p1 c1 al ≫= toggle i2 p2 c2,
             toggle i2 p2 c2 al ≫= toggle i1 p1 c1 with
       | Ok a, Ok b =>
           same_allocations a b ∧ ∀ i, sharers_of a i = sharers_of b i
       | Raise (KeyError _), Raise (KeyError _) => True
       | _, _ => False
       end).
Proof.
  split; [|split; [|split]].
  - intros al i p. unfold assign. rewrite (toggle_eq i p true al).
    destruct (al !! i) as [l|] eqn:Hl; cbn [mbind result_bind]; [|done].
    rewrite toggle_eq, lookup_insert_eq, insert_insert_eq.
    do 2 f_equal. unfold toggled at 1.
    destruct (py_in p (toggled p true l)) eqn:Hin; [done|].
    unfold toggled in Hin. destruct (py_in p l) eqn:Hp; [congruence|].
    rewrite py_in_app, String.eqb_refl, orb_true_r in Hin. done.
  - intros al i p l Hl Hp. unfold assign, unassign.
    rewrite (toggle_eq i p true al), Hl. cbn [mbind result_bind].
    rewrite toggle_eq, lookup_insert_eq, insert_insert_eq.
    assert (py_in p l = false) as Hin.
    { destruct (py_in p l) eqn:E; [|done]. by apply py_in_elem_of in E. }
    unfold toggled. rewrite Hin, (py_remove_app_same _ _ Hin).
    by rewrite insert_id.
  - intros al i p l Hl Hp. apply py_in_elem_of in Hp as Hin. split.
    + unfold assign, unassign.
      rewrite (toggle_eq i p true al), Hl. cbn [mbind result_bind].
      unfold toggled at 1. rewrite Hin. by rewrite insert_id.
    + intros Hnd. unfold unassign. rewrite toggle_eq, Hl.
      eexists. split; [done|]. unfold sharers_of.
      rewrite lookup_insert_eq. simpl. rewrite elem_of_list_to_set.
      clear Hl Hp Hin. induction Hnd as [|x l Hx Hnd IH]; simpl.
      * apply not_elem_of_nil.
      * destruct (String.eqb_spec x p) as [->|Hxp]; [done|].
        rewrite elem_of_cons. intros [?|?]; [congruence|done].
  - intros al i1 p1 c1 i2 p2 c2 Hne.
    pose proof (toggle_comm al i1 p1 c1 i2 p2 c2 Hne) as H.
    destruct (toggle i1 p1 c1 al ≫= toggle i2 p2 c2) as [a|[]],
             (toggle i2 p2 c2 al ≫= toggle i1 p1 c1) as [b|[]]; try done.
    split; [done|]. intros i. unfold sharers_of.
    destruct H as [_ H]. apply set_eq. intros x.
    rewrite !elem_of_list_to_set. by rewrite (H i).
Qed.

(** C7, the second part as the claim states it, fails for a participant who
    already shares the item: assigning Alice to Pizza again and then
    unassigning her leaves Pizza without sharers, not with Alice. *)
Lemma C7_unassign_after_assign_counterexample :
  let al : gmap string (list string) := {[ "Pizza" := ["Alice"] ]} in
  ∃ al', assign "Pizza" "Alice" al ≫= unassign "Pizza" "Alice" = Ok al'
    ∧ sharers_of al' "Pizza" ≠ sharers_of al "Pizza".
Proof.
  intros al. eexists. split; [vm_compute; reflexivity|].
  intros H. assert ("Alice" ∈ sharers_of al "Pizza") as Hin.
  { unfold sharers_of, al. rewrite lookup_singleton_eq. set_solver. }
  rewrite <- H in Hin. vm_compute in Hin. set_solver.
Qed.

(** ** Extraction *)

Lemma json_loads_raise text e : json_loads text = Raise e → e = JSONDecodeError.
Proof. unfold json_loads. destruct (_ ≫= _); congruence. Qed.

Section regex.
Implicit Types s r p : list ascii.

Lemma from_first_open_spec s r :
  from_first_open s = Some r →
  ∃ pre rest, s = pre ++ "{"%char :: rest ∧ r = "{"%char :: rest
    ∧ "{"%char ∉ pre.
Proof.
  induction s as [|c s IH]; simpl; [done|].
  destruct (Ascii.eqb_spec c "{") as [->|Hc].
  - intros [= <-]. exists [], s. repeat split. apply not_elem_of_nil.
  - intros (pre & rest & -> & -> & Hpre)%IH.
    exists (c :: pre), rest. repeat split. set_solver.
Qed.


Lemma upto_last_close_spec s p :
  upto_last_close s = Some p →
  ∃ mid post, s = mid ++ "}"%char :: post ∧ p = mid ++ ["}"%char]
    ∧ "}"%char ∉ post.
Proof.
  revert p. induction s as [|c s IH]; intros p; simpl; [done|].
  destruct (upto_last_close s) as [q|] eqn:Hq.
  - intros [= <-]. destruct (IH q eq_refl) as (mid & post & -> & -> & Hpost).
    by exists (c :: mid), post.
  - destruct (Ascii.eqb_spec c "}") as [->|Hc]; [|done].
    intros [= <-]. exists [], s. repeat split.
    clear IH. induction s as [|d s IH]; [apply not_elem_of_nil|].
    simpl in Hq. destruct (upto_last_close s); [done|].
    destruct (Ascii.eqb_spec d "}"); [done|].
    apply not_elem_of_cons. split; [congruence|]. by apply IH.
Qed.


(** The match is the text from its first open brace to its last closing
    brace, whatever lies between them, line ends included. *)
Lemma re_search_braces_some text m :
  re_search_braces text = Some m →
  ∃ pre mid post,
    list_ascii_of_string text = pre ++ "{"%char :: mid ++ "}"%char :: post
    ∧ list_ascii_of_string m = "{"%char :: mid ++ ["}"%char]
    ∧ ("{"%char ∉ pre) ∧ ("}"%char ∉ post).
Proof.
  unfold re_search_braces.
  destruct (from_first_open _) as [[|c r]|] eqn:Hopen; try done.
  apply from_first_open_spec in Hopen as (pre & rest & Htext & [= -> ->] & Hpre).
  destruct (upto_last_close rest) as [p|] eqn:Hclose; [|done].
  apply upto_last_close_spec in Hclose as (mid & post & -> & -> & Hpost).
  intros [= <-]. exists pre, mid, post.
  change (String "{" (string_of_list_ascii (mid ++ ["}"%char])))
    with (string_of_list_ascii ("{"%char :: mid ++ ["}"%char])).
  by rewrite list_ascii_of_string_of_list_ascii.
Qed.

End regex.

Section parser.
Implicit Types (stack : list frame) (st : parse_state).

Lemma rooted_cons f stack :
  stack ≠ [] → rooted (f :: stack) = rooted stack.
Proof. by destruct stack. Qed.

Lemma rooted_nonempty stack : rooted stack = true → stack ≠ [].
Proof. by destruct stack. Qed.

Lemma close_value_rooted v stack :
  rooted stack = true → root_is_dict (close_value v stack) = true.
Proof.
  destruct stack as [|[acc|acc key] stack]; [done|..]; intros H; simpl.
  - destruct stack; [done|]. by rewrite rooted_cons in H.
  - destruct stack; [done|]. rewrite rooted_cons in H by done.
    by rewrite H, orb_true_r.
Qed.

Lemma close_dict_rooted d stack :
  bool_decide (stack = []) || rooted stack = true →
  root_is_dict (close_value (PDict d) stack) = true.
Proof.
  destruct stack as [|f stack]; [done|]. simpl bool_decide. intros H.
  by apply close_value_rooted.
Qed.

Lemma open_value_rooted t stack st :
  rooted stack = true → open_value t stack = Some st →
  root_is_dict st = true.
Proof.
  intros H. destruct t; simpl; intros [= <-];
    try (by apply close_value_rooted); simpl; try done.
  by rewrite H, orb_true_r.
Qed.

Lemma parse_step_root st t st' :
  root_is_dict st = true → parse_step st t = Some st' →
  root_is_dict st' = true.
Proof.
  destruct st as [stack|stack|stack|acc stack|acc key stack
                 |acc stack|acc stack|v]; simpl; intros H.
  - by apply open_value_rooted.
  - destruct t; try (intros Hopen; eapply open_value_rooted; [|exact Hopen];
                     by rewrite rooted_cons by by apply rooted_nonempty).
    intros [= <-]. by apply close_value_rooted.
  - destruct t; try done; intros [= <-]; [|done].
    by apply close_dict_rooted.
  - destruct t; try done. by intros [= <-].
  - destruct t; try done. intros [= <-]. simpl.
    apply orb_true_iff in H as [->%bool_decide_eq_true|H]; [done|].
    by rewrite rooted_cons by by apply rooted_nonempty.
  - destruct t; try done; intros [= <-]; simpl.
    + by apply close_value_rooted.
    + by rewrite rooted_cons by by apply rooted_nonempty.
  - destruct t; try done; intros [= <-]; [|done].
    by apply close_dict_rooted.
  - done.
Qed.

Lemma parse_root st ts v :
  root_is_dict st = true → parse st ts = Some v → ∃ d, v = PDict d.
Proof.
  revert st. induction ts as [|t ts IH]; intros st Hroot; simpl.
  - destruct st as [| | | | | | |w]; try done. intros [= ->].
    destruct v; try done. eauto.
  - destruct (parse_step st t) as [st'|] eqn:Hstep; [|done]. simpl.
    apply IH. by eapply parse_step_root.
Qed.

(** A text that starts with an open brace parses to a dict or not at
    all. *)
Lemma json_loads_brace m rest v :
  list_ascii_of_string m = "{"%char :: rest →
  json_loads m = Ok v → ∃ d, v = PDict d.
Proof.
  unfold json_loads. intros ->.
  change (lex LIdle ("{"%char :: rest))
    with (ts ← lex LIdle rest; Some ([TLBrace] ++ ts)).
  destruct (lex LIdle rest) as [ts|]; [|done]. simpl.
  destruct (parse (PFirstKey []) ts) as [w|] eqn:Hparse; [|done].
  intros [= <-]. exact (parse_root (PFirstKey []) ts w eq_refl Hparse).
Qed.
End parser.

Lemma try_extract_raise (text : string) e :
  try_extract (Ok text) = Raise e →
  json_loads text = Raise JSONDecodeError
  ∧ (re_search_braces text = None ∧ e = ValueError
     ∨ ∃ m, re_search_braces text = Some m
            ∧ json_loads m = Raise JSONDecodeError ∧ e = JSONDecodeError).
Proof.
  unfold try_extract. cbn [mbind result_bind].
  destruct (json_loads text) as [v|e1] eqn:H1; [done|].
  pose proof (json_loads_raise _ _ H1) as ->. intros H2. split; [done|].
  destruct (re_search_braces text) as [m|].
  - pose proof (json_loads_raise _ _ H2) as ->. right. eauto.
  - injection H2 as <-. by left.
Qed.

Lemma try_extract_none (text : string) :
  try_extract (Ok text) = Ok PNone → json_loads text = Ok PNone.
Proof.
  unfold try_extract. cbn [mbind result_bind].
  destruct (json_loads text) as [v|e1] eqn:H1; [congruence|].
  pose proof (json_loads_raise _ _ H1) as ->.
  destruct (re_search_braces text) as [m|] eqn:Hm; [|done].
  apply re_search_braces_some in Hm as (pre & mid & post & _ & Hm & _).
  intros H2. by destruct (json_loads_brace _ _ _ Hm H2).
Qed.

Lemma M_bind_run {A B : Type} (m : M A) (f : A → M B) st :
  (m ≫= f) st
  = match m st with
    | (Ok a, st') => f a st'
    | (Raise e, st') => (Raise e, st')
    end.
Proof. reflexivity. Qed.

Lemma M_ret_run {A : Type} (a : A) st : (mret a : M A) st = (Ok a, st).
Proof. reflexivity. Qed.

(** Run the monadic steps of a handler on the state at hand. *)
Ltac run_M :=
  repeat (rewrite ?M_bind_run, ?M_ret_run;
          unfold show, update, lift, raise, get_session;
          cbn [fst snd session page]).

Lemma M_bind_ok {A B : Type} (m : M A) (f : A → M B) st a st' :
  m st = (Ok a, st') → (m ≫= f) st = f a st'.
Proof. unfold mbind, M_bind. by intros ->. Qed.


Lemma get_gemini_response_ok call v st :
  try_extract call = Ok v → get_gemini_response call st = (Ok v, st).
Proof. unfold get_gemini_response. by intros ->. Qed.

Lemma get_gemini_response_unparsed (text : string) e st :
  try_extract (Ok text) = Raise e →
  get_gemini_response (Ok text) st
  = (Ok PNone,
     {| session := session st;
        page := page st ++ [st_error_exn e;
                            st_error "Raw response from Gemini:";
                            st_code text] |}).
Proof.
  unfold get_gemini_response. intros ->. destruct st as [s pg].
  run_M. by rewrite <- !(assoc_L (++)).
Qed.

Lemma get_gemini_response_call_raised e st :
  get_gemini_response (Raise e) st
  = (Raise UnboundLocalError,
     {| session := session st;
        page := page st ++ [st_error_exn e;
                            st_error "Raw response from Gemini:"] |}).
Proof.
  destruct st as [s pg]. unfold get_gemini_response. cbn [try_extract mbind result_bind].
  run_M. by rewrite <- !(assoc_L (++)).
Qed.

Lemma enter_names_run inp st :
  ∃ shown ns,
    enter_names inp st
    = (Ok (), {| session :=
                   {| names := ns;
                      original_bill_data := original_bill_data (session st);
                      edited_bill_data := edited_bill_data (session st);
                      allocations := allocations (session st) |};
                 page := page st ++ shown |})
    ∧ (∀ w, w ∈ shown → ∃ msg, w = st_success ("Names added: " +:+ msg))
    ∧ (ns = names (session st) ∨ ns = Some (parse_names (names_input inp))).
Proof.
  unfold enter_names. destruct st as [[ns ob eb al] pg].
  destruct (String.eqb (names_input inp) "").
  - exists [], ns. run_M. rewrite app_nil_r. repeat split; [|by left].
    intros w Hw. by apply elem_of_nil in Hw.
  - eexists [_], _. run_M. unfold set_names. cbn.
    repeat split; [|by right].
    intros w ->%list_elem_of_singleton. eauto.
Qed.


(** C5, as the claim states it, fails: for a reply without braces the
    extraction does not fail with an error carrying the reply; the function
    returns None, after showing the parse error and the reply. *)
Lemma C5_no_extraction_error_counterexample :
  let reply := "Sorry, I cannot read this image." in
  let st := {| session := new_session; page := [] |} in
  json_loads reply = Raise JSONDecodeError
  ∧ re_search_braces reply = None
  ∧ get_gemini_response (Ok reply) st
    = (Ok PNone,
       {| session := new_session;
          page := [st_error_exn ValueError;
                   st_error "Raw response from Gemini:";
                   st_code reply] |}).
Proof. vm_compute. auto. Qed.




(** C8, as the claim states it, fails when the extraction fails because the
    call raises: the run ends with UnboundLocalError, not AttributeError,
    and the session is left untouched. *)
Lemma C8_call_failure_counterexample :
  let inp := press_analyze (Raise CallError) in
  (run_main inp new_session).1 = Raise UnboundLocalError
  ∧ (run_main inp new_session).1 ≠ Raise AttributeError
  ∧ session (run_main inp new_session).2 = new_session.
Proof. vm_compute. repeat split. discriminate. Qed.

(** C9 (as amended).  If the call to the model raises, the handler of
    [get_gemini_response] shows its two error lines and then fails on the
    unbound local [response] with UnboundLocalError, a NameError: nothing is
    returned and no raw reply text is shown.  The function returns None only
    when a reply was received, and then either the reply could not be parsed
    or the whole reply is JSON for None (the literal null). *)
Theorem C9_unbound_response :
  (∀ e st,
     get_gemini_response (Raise e) st
     = (Raise UnboundLocalError,
        {| session := session st;
           page := page st ++ [st_error_exn e;
                               st_error "Raw response from Gemini:"] |})
     ∧ is_name_error UnboundLocalError = true
     ∧ ∀ body, st_code body ∉ [st_error_exn e;
                               st_error "Raw response from Gemini:"])
  ∧ (∀ call st st',
       get_gemini_response call st = (Ok PNone, st') →
       ∃ text : string, call = Ok text
         ∧ ((∃ e, try_extract (Ok text) = Raise e)
            ∨ json_loads text = Ok PNone)).
Proof.
  split.
  - intros e st. split; [apply get_gemini_response_call_raised|].
    split; [done|]. intros body. set_solver.
  - intros [text|e] st st' Hret.
    + exists text. split; [done|].
      destruct (try_extract (Ok text)) as [v|e] eqn:Hx; [|eauto].
      right. rewrite (get_gemini_response_ok _ _ _ Hx) in Hret.
      injection Hret as -> _. by apply try_extract_none.
    + by rewrite get_gemini_response_call_raised in Hret.
Qed.

(** C9, the last part as the claim states it, fails: the reply [null] is
    received and parses, to None, which the function returns. *)
Lemma C9_null_reply_counterexample :
  let st := {| session := new_session; page := [] |} in
  json_loads "null" = Ok PNone
  ∧ try_extract (Ok "null") = Ok PNone
  ∧ get_gemini_response (Ok "null") st = (Ok PNone, st).
Proof. vm_compute. auto. Qed.

(** ** Step 3 *)

Lemma M_bind_inv_ok {A B : Type} (m : M A) (f : A → M B) st b st' :
  (m ≫= f) st = (Ok b, st') →
  ∃ a st1, m st = (Ok a, st1) ∧ f a st1 = (Ok b, st').
Proof.
  unfold mbind, M_bind. destruct (m st) as [[a|e] st1]; [eauto|done].
Qed.

Section dicts.
Implicit Types (d : list (string * pyobj)) (k : string) (v : pyobj).

Lemma dict_get_set_eq d k v : dict_get (dict_set d k v) k = Some v.
Proof.
  induction d as [|[k' v'] d IH]; simpl.
  - by rewrite String.eqb_refl.
  - destruct (String.eqb k' k) eqn:E; simpl.
    + by rewrite String.eqb_refl.
    + by rewrite E.
Qed.

Lemma dict_get_set_ne d k k' v :
  k ≠ k' → dict_get (dict_set d k v) k' = dict_get d k'.
Proof.
  intros Hne. induction d as [|[k0 v0] d IH]; simpl.
  - destruct (String.eqb_spec k k'); [done|done].
  - destruct (String.eqb_spec k0 k) as [->|Hk0]; simpl.
    + destruct (String.eqb_spec k k'); [done|].
      destruct (String.eqb_spec k k'); done.
    + destruct (String.eqb k0 k'); [done|apply IH].
Qed.

Lemma getitem_num_inv ed k x :
  (getitem ed k ≫= as_num) = Ok x → ∃ d, ed = PDict d.
Proof. destruct ed; try done. eauto. Qed.
End dicts.

(** One [number_input] as a function of the state. *)
Lemma edit_number_run k typed st :
  edit_number k typed st
  = match edited_bill_data (session st) with
    | None => (Raise (KeyError "edited_bill_data"), st)
    | Some ed =>
        match getitem ed k ≫= py_float with
        | Raise e => (Raise e, st)
        | Ok shown =>
            match setitem ed k (PNum (widget_value typed shown)) with
            | Ok ed' =>
                (Ok (), {| session := set_edited_bill_data ed' (session st);
                           page := page st |})
            | Raise e => (Raise e, st)
            end
        end
    end.
Proof.
  unfold edit_number, set_edited, edited. destruct st as [s pg]. run_M.
  destruct (edited_bill_data s) as [ed|] eqn:Hed. 2:{ reflexivity. } run_M.
  destruct (getitem ed k ≫= py_float) as [shown|e]; [|done]. run_M.
  rewrite Hed. run_M.
  by destruct (setitem ed k _).
Qed.

Lemma recalculate_total_run st :
  recalculate_total st
  = match edited_bill_data (session st) with
    | None => (Raise (KeyError "edited_bill_data"), st)
    | Some ed =>
        match getitem ed "subtotal" ≫= as_num with
        | Raise e => (Raise e, st)
        | Ok sub =>
            match getitem ed "tax" ≫= as_num with
            | Raise e => (Raise e, st)
            | Ok tx =>
                match getitem ed "tip" ≫= as_num with
                | Raise e => (Raise e, st)
                | Ok tp =>
                    match setitem ed "total" (PNum (sub + tx + tp)) with
                    | Ok ed' =>
                        (Ok (sub + tx + tp),
                         {| session := set_edited_bill_data ed' (session st);
                            page := page st |})
                    | Raise e => (Raise e, st)
                    end
                end
            end
        end
    end.
Proof.
  unfold recalculate_total, set_edited, edited. destruct st as [s pg]. run_M.
  destruct (edited_bill_data s) as [ed|] eqn:Hed; [|done]. run_M.
  destruct (getitem ed "subtotal" ≫= as_num) as [sub|e]; [|done]. run_M.
  destruct (getitem ed "tax" ≫= as_num) as [tx|e]; [|done]. run_M.
  destruct (getitem ed "tip" ≫= as_num) as [tp|e]; [|done]. run_M.
  rewrite Hed. run_M.
  by destruct (setitem ed "total" _).
Qed.

(** A successful [number_input] leaves a dict whose entry is the number
    returned by the widget, and changes no other entry. *)
Lemma edit_number_ok k typed st st' :
  edit_number k typed st = (Ok (), st') →
  ∃ d shown,
    edited_bill_data (session st) = Some (PDict d)
    ∧ edited_bill_data (session st')
      = Some (PDict (dict_set d k (PNum (widget_value typed shown))))
    ∧ page st' = page st.
Proof.
  rewrite edit_number_run.
  destruct (edited_bill_data (session st)) as [ed|]; [|done].
  destruct (getitem ed k ≫= py_float) as [shown|e]; [|done].
  destruct ed as [| | | | |d]; try done. simpl.
  intros [= <-]. by exists d, shown.
Qed.

(** The summary part of Step 3: the three number inputs and the total. *)
Lemma edit_summary_ok inp st st1 st2 st3 st' t :
  edit_number "subtotal" (subtotal_input inp) st = (Ok (), st1) →
  edit_number "tax" (tax_input inp) st1 = (Ok (), st2) →
  edit_number "tip" (tip_input inp) st2 = (Ok (), st3) →
  recalculate_total st3 = (Ok t, st') →
  ∃ d sub tx tp,
    edited_bill_data (session st') = Some (PDict d)
    ∧ dict_get d "subtotal" = Some (PNum sub)
    ∧ dict_get d "tax" = Some (PNum tx)
    ∧ dict_get d "tip" = Some (PNum tp)
    ∧ dict_get d "total" = Some (PNum (sub + tx + tp))
    ∧ t = sub + tx + tp
    ∧ page st' = page st
    ∧ (∀ x, subtotal_input inp = Some x → sub = x)
    ∧ (∀ x, tax_input inp = Some x → tx = x)
    ∧ (∀ x, tip_input inp = Some x → tp = x).
Proof.
  intros H1 H2 H3 H.
  apply edit_number_ok in H1 as (d0 & s0 & _ & E1 & P1).
  apply edit_number_ok in H2 as (d1 & s1 & E1' & E2 & P2).
  apply edit_number_ok in H3 as (d2 & s2 & E2' & E3 & P3).
  rewrite E1 in E1'. injection E1' as <-.
  rewrite E2 in E2'. injection E2' as <-.
  rewrite recalculate_total_run, E3 in H.
  set (a := widget_value (subtotal_input inp) s0) in *.
  set (b := widget_value (tax_input inp) s1) in *.
  set (c := widget_value (tip_input inp) s2) in *.
  cbn [getitem mbind result_bind] in H.
  rewrite dict_get_set_ne, dict_get_set_ne, dict_get_set_eq in H by done.
  cbn [as_num] in H.
  rewrite dict_get_set_ne, dict_get_set_eq in H by done.
  cbn [as_num] in H.
  rewrite dict_get_set_eq in H. cbn [as_num setitem] in H.
  injection H as <- <-.
  eexists _, a, b, c. cbn [session page set_edited_bill_data edited_bill_data].
  split; [reflexivity|].
  rewrite dict_get_set_eq.
  rewrite !(dict_get_set_ne _ "total") by done.
  rewrite dict_get_set_eq.
  rewrite !(dict_get_set_ne _ "tip") by done.
  rewrite dict_get_set_eq.
  rewrite !(dict_get_set_ne _ "tax") by done.
  rewrite dict_get_set_eq.
  repeat split; try congruence; unfold a, b, c; by intros x ->.
Qed.

Section step3.
Implicit Types (d : list (string * pyobj)) (s : Session).

Lemma dict_set_set d k a b : dict_set (dict_set d k a) k b = dict_set d k b.
Proof.
  induction d as [|[k' v'] d IH]; simpl.
  - by rewrite String.eqb_refl.
  - destruct (String.eqb k' k) eqn:E; simpl.
    + by rewrite String.eqb_refl.
    + by rewrite E, IH.
Qed.

Lemma dict_set_id d k v : dict_get d k = Some v → dict_set d k v = d.
Proof.
  induction d as [|[k' v'] d IH]; simpl; [done|].
  destruct (String.eqb_spec k' k) as [->|Hne].
  - by intros [= ->].
  - intros H. by rewrite IH.
Qed.

Lemma set_edited_same s ed :
  edited_bill_data s = Some ed → set_edited_bill_data ed s = s.
Proof. destruct s. simpl. by intros ->. Qed.

Lemma set_edited_twice s ed ed' :
  set_edited_bill_data ed' (set_edited_bill_data ed s)
  = set_edited_bill_data ed' s.
Proof. done. Qed.

Lemma set_edited_item_run i v d l s pg :
  edited_bill_data s = Some (PDict d) →
  dict_get d "items" = Some (PList l) →
  set_edited_item i v {| session := s; page := pg |}
  = (Ok (),
     {| session :=
          set_edited_bill_data
            (PDict (dict_set d "items" (PList (<[i := v]> l)))) s;
        page := pg |}).
Proof.
  intros Hed Hit. unfold set_edited_item, set_edited, edited. run_M.
  rewrite Hed. run_M. cbn [getitem]. rewrite Hit. run_M.
  rewrite Hed. run_M. reflexivity.
Qed.

(** The loop of lines 96-102 from position [length before] on. *)
Lemma edit_items_loop inp rest : ∀ before d s pg new,
  edited_bill_data s = Some (PDict d) →
  dict_get d "items" = Some (PList (before ++ rest)) →
  edited_items inp (length before) rest = Ok new →
  for_each_M (edit_item inp)
    (imap (λ i item, ((length before + i)%nat, item)) rest)
    {| session := s; page := pg |}
  = (Ok (),
     {| session :=
          set_edited_bill_data
            (PDict (dict_set d "items"
                      (PList (before ++ (item_dict <$> new))))) s;
        page := pg |}).
Proof.
  induction rest as [|item rest IH]; intros before d s pg new Hed Hit Hnew.
  - injection Hnew as <-. cbn [imap for_each_M fmap list_fmap]. run_M.
    by rewrite (dict_set_id _ _ _ Hit), (set_edited_same _ _ Hed).
  - cbn [edited_items] in Hnew.
    destruct (getitem item "name" ≫= as_str) as [nm|] eqn:Hnm; [|done].
    cbn [mbind result_bind] in Hnew.
    destruct (getitem item "price" ≫= py_float) as [pr|] eqn:Hpr; [|done].
    cbn [mbind result_bind] in Hnew.
    destruct (edited_items inp (S (length before)) rest) as [its|] eqn:Hits;
      [|done].
    injection Hnew as <-.
    cbn [imap for_each_M]. rewrite M_bind_run.
    unfold edit_item at 1. rewrite Hnm. run_M. rewrite Hpr. run_M.
    rewrite (set_edited_item_run _ _ d (before ++ item :: rest)) by done.
    rewrite insert_app_r, !Nat.add_0_r. cbn [insert list_insert].
    set (it := {| name := widget_value (item_name_input inp (length before)) nm;
                  price := widget_value (item_price_input inp (length before)) pr |}).
    erewrite (imap_ext _ (λ i x, ((length (before ++ [item_dict it]) + i)%nat, x))).
    2:{ intros i x _. unfold compose. rewrite length_app. simpl.
        f_equal. lia. }
    rewrite (IH (before ++ [item_dict it])
               (dict_set d "items" (PList (before ++ item_dict it :: rest)))
               _ _ its).
    + rewrite dict_set_set, set_edited_twice, <- (assoc_L (++)). done.
    + done.
    + by rewrite dict_get_set_eq, <- (assoc_L (++)).
    + rewrite length_app. simpl. by rewrite Nat.add_1_r.
Qed.
End step3.

Lemma elements_of_nonempty o x l :
  elements_of o = Ok (x :: l) → o = PList (x :: l).
Proof.
  destruct o as [| | |s|l'|d]; simpl; try done.
  - by destruct s.
  - by intros [= ->].
  - by destruct d.
Qed.

(** Step 3 stores what [edit_bill] computes, and shows the new total. *)
Lemma verify_and_edit_run inp s pg ed ed' :
  edited_bill_data s = Some ed →
  edit_bill inp ed = Ok ed' →
  ∃ t, verify_and_edit inp {| session := s; page := pg |}
       = (Ok (), {| session := set_edited_bill_data ed' s;
                    page := pg ++ [st_write_total t] |})
    ∧ getitem ed' "total" = Ok (PNum t).
Proof.
  intros Hed Hedit. unfold edit_bill in Hedit.
  destruct (getitem ed "items" ≫= elements_of) as [shown|] eqn:Hshown;
    [|done].
  cbn [mbind result_bind] in Hedit.
  destruct (edited_items inp 0 shown) as [its|] eqn:Hits; [|done].
  cbn [mbind result_bind] in Hedit.
  assert (∃ d, ed = PDict d) as [d ->].
  { destruct ed; try done. eauto. }
  set (d1 := match shown with
             | [] => d
             | _ :: _ => dict_set d "items" (PList (item_dict <$> its))
             end).
  assert (for_each_M (edit_item inp) (imap (λ i item, (i, item)) shown)
            {| session := s; page := pg |}
          = (Ok (), {| session := set_edited_bill_data (PDict d1) s;
                       page := pg |})) as Hloop.
  { unfold d1. destruct shown as [|x shown].
    - cbn [imap for_each_M]. run_M. by rewrite (set_edited_same _ _ Hed).
    - cbn [getitem] in Hshown.
      destruct (dict_get d "items") as [o|] eqn:Ho; [|done].
      cbn [mbind result_bind] in Hshown.
      apply elements_of_nonempty in Hshown as ->.
      exact (edit_items_loop inp (x :: shown) [] d s pg its Hed Ho Hits). }
  assert ((match shown with
           | [] => Ok (PDict d)
           | _ :: _ => setitem (PDict d) "items" (PList (item_dict <$> its))
           end) = Ok (PDict d1)) as Hd1 by by destruct shown.
  rewrite Hd1 in Hedit. cbn [mbind result_bind] in Hedit. clear Hd1.
  destruct (getitem (PDict d1) "subtotal" ≫= py_float) as [sub|] eqn:Hsub;
    [|done].
  cbn [mbind result_bind setitem] in Hedit.
  set (a := widget_value (subtotal_input inp) sub) in *.
  destruct (getitem (PDict (dict_set d1 "subtotal" (PNum a))) "tax"
            ≫= py_float) as [tx|] eqn:Htx; [|done].
  cbn [mbind result_bind setitem] in Hedit.
  set (b := widget_value (tax_input inp) tx) in *.
  destruct (getitem
              (PDict (dict_set (dict_set d1 "subtotal" (PNum a)) "tax"
                        (PNum b))) "tip" ≫= py_float) as [tp|] eqn:Htp;
    [|done].
  cbn [mbind result_bind setitem] in Hedit.
  set (c := widget_value (tip_input inp) tp) in *.
  injection Hedit as <-.
  exists (a + b + c). split.
  - unfold verify_and_edit. run_M. rewrite Hed, Hshown. run_M.
    rewrite Hloop. run_M.
    rewrite edit_number_run.
    cbn [session page set_edited_bill_data edited_bill_data].
    rewrite Hsub. fold a. cbn [setitem]. run_M.
    rewrite edit_number_run.
    cbn [session page set_edited_bill_data edited_bill_data].
    rewrite Htx. fold b. cbn [setitem]. run_M.
    rewrite edit_number_run.
    cbn [session page set_edited_bill_data edited_bill_data].
    rewrite Htp. fold c. cbn [setitem]. run_M.
    rewrite recalculate_total_run.
    cbn [session page set_edited_bill_data edited_bill_data getitem].
    rewrite dict_get_set_ne, dict_get_set_ne, dict_get_set_eq by done.
    cbn [mbind result_bind as_num].
    rewrite dict_get_set_ne, dict_get_set_eq by done.
    cbn [mbind result_bind as_num].
    rewrite dict_get_set_eq.
    cbn [mbind result_bind as_num setitem]. run_M. reflexivity.
  - cbn [getitem]. by rewrite dict_get_set_eq.
Qed.

Lemma read_item_dict it : read_item (item_dict it) = Ok it.
Proof. by destruct it. Qed.

Lemma read_items_dicts its : mapM read_item (item_dict <$> its) = Ok its.
Proof.
  induction its as [|it its IH]; [done|].
  cbn [fmap list_fmap mapM]. rewrite read_item_dict.
  cbn [mbind result_bind]. fold (mapM read_item (item_dict <$> its)).
  by rewrite IH.
Qed.

(** The bill that Steps 4 and 5 read after a Step 3 without exception. *)
Lemma edit_bill_readable inp ed ed' :
  edit_bill inp ed = Ok ed' →
  ∃ bill, read_bill ed' = Ok bill
    ∧ total bill = subtotal bill + tax bill + tip bill
    ∧ (∀ x, subtotal_input inp = Some x → subtotal bill = x)
    ∧ (∀ x, tax_input inp = Some x → tax bill = x)
    ∧ (∀ x, tip_input inp = Some x → tip bill = x)
    ∧ ∃ shown, getitem ed "items" ≫= elements_of = Ok shown
        ∧ edited_items inp 0 shown = Ok (items bill).
Proof.
  intros Hedit. unfold edit_bill in Hedit.
  destruct (getitem ed "items" ≫= elements_of) as [shown|] eqn:Hshown;
    [|done].
  cbn [mbind result_bind] in Hedit.
  destruct (edited_items inp 0 shown) as [its|] eqn:Hits; [|done].
  cbn [mbind result_bind] in Hedit.
  assert (∃ d, ed = PDict d) as [d ->].
  { destruct ed; try done. eauto. }
  set (d1 := match shown with
             | [] => d
             | _ :: _ => dict_set d "items" (PList (item_dict <$> its))
             end).
  assert ((match shown with
           | [] => Ok (PDict d)
           | _ :: _ => setitem (PDict d) "items" (PList (item_dict <$> its))
           end) = Ok (PDict d1)) as Hd1 by by destruct shown.
  rewrite Hd1 in Hedit. cbn [mbind result_bind] in Hedit. clear Hd1.
  assert (getitem (PDict d1) "items" ≫= elements_of
          = Ok (item_dict <$> its)) as Hitems.
  { unfold d1. destruct shown as [|x shown].
    - injection Hits as <-. exact Hshown.
    - cbn [getitem]. by rewrite dict_get_set_eq. }
  destruct (getitem (PDict d1) "subtotal" ≫= py_float) as [sub|]; [|done].
  cbn [mbind result_bind setitem] in Hedit.
  set (a := widget_value (subtotal_input inp) sub) in *.
  destruct (getitem (PDict (dict_set d1 "subtotal" (PNum a))) "tax"
            ≫= py_float) as [tx|]; [|done].
  cbn [mbind result_bind setitem] in Hedit.
  set (b := widget_value (tax_input inp) tx) in *.
  destruct (getitem
              (PDict (dict_set (dict_set d1 "subtotal" (PNum a)) "tax"
                        (PNum b))) "tip" ≫= py_float) as [tp|]; [|done].
  cbn [mbind result_bind setitem] in Hedit.
  set (c := widget_value (tip_input inp) tp) in *.
  injection Hedit as <-.
  exists {| items := its; subtotal := a; tax := b; tip := c;
            total := a + b + c |}.
  cbn [items subtotal tax tip total]. split; [|split; [done|]].
  - unfold read_bill, read_items. cbn [getitem] in *.
    rewrite !(dict_get_set_ne _ _ "items") by done.
    rewrite Hitems. cbn [mbind result_bind].
    rewrite read_items_dicts. cbn [mbind result_bind].
    rewrite (dict_get_set_ne _ "total" "subtotal"),
      (dict_get_set_ne _ "tip" "subtotal"),
      (dict_get_set_ne _ "tax" "subtotal"), dict_get_set_eq by done.
    cbn [mbind result_bind as_num].
    rewrite (dict_get_set_ne _ "total" "tax"),
      (dict_get_set_ne _ "tip" "tax"), dict_get_set_eq by done.
    cbn [mbind result_bind as_num].
    rewrite (dict_get_set_ne _ "total" "tip"), dict_get_set_eq by done.
    cbn [mbind result_bind as_num].
    rewrite dict_get_set_eq. reflexivity.
  - repeat split; try (unfold a, b, c; by intros x ->).
    exists shown. by split.
Qed.

Lemma lift_inv_ok {A : Type} (r : result A) st a st' :
  lift r st = (Ok a, st') → r = Ok a ∧ st' = st.
Proof. unfold lift. by intros [= -> ->]. Qed.

Lemma edited_inv_ok st ed st' :
  edited st = (Ok ed, st') → st' = st.
Proof.
  unfold edited. run_M.
  destruct (edited_bill_data (session st)); run_M; by intros [= _ <-].
Qed.

(** The loop of Step 3 writes nothing on the page. *)
Lemma edit_item_page inp entry st st' :
  edit_item inp entry st = (Ok (), st') → page st' = page st.
Proof.
  destruct entry as [i item]. unfold edit_item. intros Hitem.
  apply M_bind_inv_ok in Hitem as (nm & sta & [_ ->]%lift_inv_ok & Hitem).
  apply M_bind_inv_ok in Hitem as (pr & stb & [_ ->]%lift_inv_ok & Hitem).
  unfold set_edited_item, set_edited in Hitem.
  apply M_bind_inv_ok in Hitem as (e1 & stc & ->%edited_inv_ok & Hitem).
  apply M_bind_inv_ok in Hitem as (o & std & [_ ->]%lift_inv_ok & Hitem).
  destruct o; try done.
  apply M_bind_inv_ok in Hitem as (e2 & ste & ->%edited_inv_ok & Hitem).
  apply M_bind_inv_ok in Hitem as (e3 & stf & [_ ->]%lift_inv_ok & Hitem).
  unfold update in Hitem. by injection Hitem as <-.
Qed.

Lemma edit_items_page inp l st st' :
  for_each_M (edit_item inp) l st = (Ok (), st') → page st' = page st.
Proof.
  revert st. induction l as [|entry l IH]; intros st Hloop;
    cbn [for_each_M] in Hloop.
  - by injection Hloop as <-.
  - apply M_bind_inv_ok in Hloop as ([] & stm & Hitem & Hloop).
    rewrite (IH _ Hloop). by eapply edit_item_page.
Qed.

(** C4.  Whenever Step 3 runs to its end, whatever total the edited bill
    held before, it holds afterwards numbers under subtotal, tax and tip,
    which are the edited values where the user edited them, and under total
    their sum, which is also the total written on the page; with the
    subtotal edited to 10.00, the tax to 1.00 and the tip to 2.00 the
    total is 13.00. *)
Theorem C4_total_recomputation inp s pg ed :
  edited_bill_data s = Some ed →
  (verify_and_edit inp {| session := s; page := pg |}).1 = Ok () →
  ∃ ed' sub tx tp,
    edited_bill_data
      (session (verify_and_edit inp {| session := s; page := pg |}).2)
    = Some ed'
    ∧ getitem ed' "subtotal" = Ok (PNum sub)
    ∧ getitem ed' "tax" = Ok (PNum tx)
    ∧ getitem ed' "tip" = Ok (PNum tp)
    ∧ getitem ed' "total" = Ok (PNum (sub + tx + tp))
    ∧ page (verify_and_edit inp {| session := s; page := pg |}).2
      = pg ++ [st_write_total (sub + tx + tp)]
    ∧ (∀ x, subtotal_input inp = Some x → sub = x)
    ∧ (∀ x, tax_input inp = Some x → tx = x)
    ∧ (∀ x, tip_input inp = Some x → tp = x)
    ∧ (subtotal_input inp = Some (qc 10 1) → tax_input inp = Some (qc 1 1) →
       tip_input inp = Some (qc 2 1) →
       getitem ed' "total" = Ok (PNum (qc 13 1))).
Proof.
  intros Hed Hok.
  destruct (verify_and_edit inp {| session := s; page := pg |})
    as [[[]|e] st'] eqn:Hrun; [clear Hok|done].
  unfold verify_and_edit in Hrun. rewrite M_bind_run in Hrun.
  unfold get_session in Hrun. cbn [session] in Hrun. rewrite Hed in Hrun.
  apply M_bind_inv_ok in Hrun as (shown & st0 & Hl & Hrun).
  apply lift_inv_ok in Hl as [_ ->].
  apply M_bind_inv_ok in Hrun as ([] & st1 & Hloop & Hrun).
  apply M_bind_inv_ok in Hrun as ([] & st2 & H1 & Hrun).
  apply M_bind_inv_ok in Hrun as ([] & st3 & H2 & Hrun).
  apply M_bind_inv_ok in Hrun as ([] & st4 & H3 & Hrun).
  apply M_bind_inv_ok in Hrun as (t & st5 & H4 & Hrun).
  destruct (edit_summary_ok inp st1 st2 st3 st4 st5 t H1 H2 H3 H4)
    as (d & sub & tx & tp & Hd & Hsub & Htx & Htp & Htot & -> & Hpg
        & Es & Et & Ep).
  unfold show in Hrun. injection Hrun as <-.
  exists (PDict d), sub, tx, tp. cbn [snd session page getitem].
  rewrite Hsub, Htx, Htp, Htot, Hpg.
  rewrite (edit_items_page _ _ _ _ Hloop). cbn [page].
  do 9 (split; [done|]).
  intros E1 E2 E3.
  pose proof (Es _ E1) as ->. pose proof (Et _ E2) as ->.
  pose proof (Ep _ E3) as ->.
  do 2 f_equal.
Qed.

Lemma C4_total_recomputation_witness :
  let s := set_edited_bill_data stale_total_bill new_session in
  ∃ ed', edited_bill_data
           (session (verify_and_edit edit_ten_one_two
                       {| session := s; page := [] |}).2) = Some ed'
    ∧ getitem stale_total_bill "total" = Ok (PNum (qc 99 1))
    ∧ getitem ed' "total" = Ok (PNum (qc 13 1)).
Proof.
  intros s.
  destruct (C4_total_recomputation edit_ten_one_two s [] stale_total_bill)
    as (ed' & sub & tx & tp & Hed & _ & _ & _ & _ & _ & _ & _ & _ & H13);
    [reflexivity|vm_compute; reflexivity|].
  exists ed'. split; [exact Hed|]. split; [reflexivity|].
  apply H13; reflexivity.
Defined.

(** ** Handlers and the session *)

Section keeps.
Context {B : Type} (f : Session → B).

Lemma keeps_ret {A} (a : A) : keeps f (mret a).
Proof. by intros st. Qed.

Lemma keeps_lift {A} (r : result A) : keeps f (lift r).
Proof. by intros st. Qed.

Lemma keeps_raise {A} e : keeps f (raise e : M A).
Proof. by intros st. Qed.

Lemma keeps_show w : keeps f (show w).
Proof. by intros st. Qed.

Lemma keeps_get_session : keeps f get_session.
Proof. by intros st. Qed.

Lemma keeps_update g : (∀ s, f (g s) = f s) → keeps f (update g).
Proof. intros Hg st. apply Hg. Qed.

Lemma keeps_bind {A C} (m : M A) (k : A → M C) :
  keeps f m → (∀ a, keeps f (k a)) → keeps f (m ≫= k).
Proof.
  intros Hm Hk st. rewrite M_bind_run. specialize (Hm st).
  destruct (m st) as [[a|e] st1]; cbn [snd] in *; [|done].
  by rewrite Hk.
Qed.

Lemma keeps_for_each {A} (body : A → M unit) l :
  (∀ x, keeps f (body x)) → keeps f (for_each_M body l).
Proof.
  intros Hbody. induction l as [|x l IH]; cbn [for_each_M].
  - apply keeps_ret.
  - apply keeps_bind; [apply Hbody|]. by intros [].
Qed.
End keeps.

Section raises_only.
Context (P : exn → Prop).

Lemma raises_only_ret {A} (a : A) : raises_only P (mret a).
Proof. by intros st e. Qed.

Lemma raises_only_lift {A} (r : result A) :
  (∀ e, r = Raise e → P e) → raises_only P (lift r).
Proof. intros Hr st e. apply Hr. Qed.

Lemma raises_only_raise {A} e : P e → raises_only P (raise e : M A).
Proof. intros He st e' [= <-]. done. Qed.

Lemma raises_only_show w : raises_only P (show w).
Proof. by intros st e. Qed.

Lemma raises_only_get_session : raises_only P get_session.
Proof. by intros st e. Qed.

Lemma raises_only_update g : raises_only P (update g).
Proof. by intros st e. Qed.

Lemma raises_only_bind {A C} (m : M A) (k : A → M C) :
  raises_only P m → (∀ a, raises_only P (k a)) → raises_only P (m ≫= k).
Proof.
  intros Hm Hk st e. rewrite M_bind_run. specialize (Hm st).
  destruct (m st) as [[a|e'] st1]; cbn [fst] in *.
  - apply Hk.
  - intros [= <-]. by apply Hm.
Qed.

Lemma raises_only_for_each {A} (body : A → M unit) l :
  (∀ x, raises_only P (body x)) → raises_only P (for_each_M body l).
Proof.
  intros Hbody. induction l as [|x l IH]; cbn [for_each_M].
  - apply raises_only_ret.
  - apply raises_only_bind; [apply Hbody|]. by intros [].
Qed.
End raises_only.

(** Take a handler apart along its binds, loops and case distinctions. *)
Ltac handler_steps :=
  repeat first
    [ apply keeps_ret | apply keeps_lift | apply keeps_raise
    | apply keeps_show | apply keeps_get_session
    | apply keeps_bind; [|intros ?]
    | apply keeps_for_each; intros ?
    | apply raises_only_ret | apply raises_only_show
    | apply raises_only_get_session | apply raises_only_update
    | apply raises_only_bind; [|intros ?]
    | apply raises_only_for_each; intros ?
    | match goal with
      | |- keeps _ (match ?x with _ => _ end) => destruct x
      | |- raises_only _ (match ?x with _ => _ end) => destruct x
      end ].

Ltac frame :=
  handler_steps;
  try (apply keeps_update; intros ?; reflexivity);
  handler_steps.

Section frames.
Context {B : Type} (f : Session → B).

Lemma get_gemini_response_keeps call : keeps f (get_gemini_response call).
Proof. unfold get_gemini_response. frame. Qed.

Lemma calculate_keeps inp : keeps f (calculate inp).
Proof. unfold calculate. frame. Qed.

Lemma edited_keeps : keeps f edited.
Proof. unfold edited. frame. Qed.
End frames.

(** Steps 2 and 3 touch neither the names nor the allocations. *)
Lemma upload_and_process_keeps_names inp :
  keeps names (upload_and_process inp).
Proof.
  unfold upload_and_process. destruct (_ && _); [|apply keeps_ret].
  apply keeps_bind; [apply get_gemini_response_keeps|]. intros ?. frame.
Qed.

Lemma upload_and_process_keeps_allocations inp :
  keeps allocations (upload_and_process inp).
Proof.
  unfold upload_and_process. destruct (_ && _); [|apply keeps_ret].
  apply keeps_bind; [apply get_gemini_response_keeps|]. intros ?. frame.
Qed.

Lemma verify_and_edit_keeps_names inp : keeps names (verify_and_edit inp).
Proof.
  unfold verify_and_edit, edit_item, edit_number, recalculate_total,
    set_edited_item, set_edited, edited.
  frame.
Qed.

Lemma verify_and_edit_keeps_allocations inp :
  keeps allocations (verify_and_edit inp).
Proof.
  unfold verify_and_edit, edit_item, edit_number, recalculate_total,
    set_edited_item, set_edited, edited.
  frame.
Qed.

Lemma allocate_items_keeps_names inp : keeps names (allocate_items inp).
Proof. unfold allocate_items, on_allocations. frame. Qed.

(** A toggle, and so the loops of Step 4, keep the keys of the
    allocations. *)
Lemma toggle_dom i p c al al' : toggle i p c al = Ok al' → dom al' = dom al.
Proof.
  rewrite toggle_eq. destruct (al !! i) as [l|] eqn:Hl; [|done].
  intros [= <-]. rewrite dom_insert_L.
  assert (i ∈ dom al) by (apply elem_of_dom; eauto). set_solver.
Qed.

Lemma on_allocations_toggle_keeps i p c :
  keeps allocation_keys (on_allocations (toggle i p c)).
Proof.
  intros [s pg]. unfold on_allocations. run_M.
  destruct (allocations s) as [al|] eqn:Hal; run_M; [|done].
  destruct (toggle i p c al) as [al'|e] eqn:Ht; run_M; [|done].
  unfold allocation_keys. cbn. rewrite Hal. cbn.
  by rewrite (toggle_dom _ _ _ _ _ Ht).
Qed.

Lemma allocate_items_keeps_keys inp st :
  allocations (session st) ≠ None →
  allocation_keys (session (allocate_items inp st).2)
  = allocation_keys (session st).
Proof.
  intros Hal. unfold allocate_items. rewrite M_bind_run.
  unfold get_session. cbn [session].
  destruct (edited_bill_data (session st)) as [ed|]; [|done].
  destruct (names (session st)) as [ns|]; [|done].
  destruct (allocations (session st)) as [al|]; [clear Hal|done].
  revert st. refine (keeps_bind allocation_keys _ _ _ _).
  - apply keeps_lift.
  - intros its. apply keeps_bind; [apply keeps_ret|]. intros _.
    apply keeps_for_each. intros item. apply keeps_for_each. intros person.
    apply on_allocations_toggle_keeps.
Qed.

(** ** Exceptions of the handlers *)

Section no_zero_division.
Lemma nzd_ok {A} (a : A) : no_zero_division (Ok a).
Proof. done. Qed.

Lemma nzd_bind {A C} (r : result A) (k : A → result C) :
  no_zero_division r → (∀ a, no_zero_division (k a)) →
  no_zero_division (r ≫= k).
Proof.
  destruct r as [a|e].
  - intros _ Hk. apply Hk.
  - intros Hr _ [= ->]. by apply Hr.
Qed.

Lemma nzd_mapM {A C} (f : A → result C) l :
  (∀ x, no_zero_division (f x)) → no_zero_division (mapM f l).
Proof.
  intros Hf. induction l as [|x l IH]; [done|].
  cbn [mapM]. apply nzd_bind; [apply Hf|]. intros y.
  apply nzd_bind; [apply IH|]. done.
Qed.

Lemma nzd_getitem o k : no_zero_division (getitem o k).
Proof. destruct o; try done. simpl. by destruct (dict_get _ _). Qed.

Lemma nzd_setitem o k v : no_zero_division (setitem o k v).
Proof. by destruct o. Qed.

Lemma nzd_as_str o : no_zero_division (as_str o).
Proof. by destruct o. Qed.

Lemma nzd_as_num o : no_zero_division (as_num o).
Proof. by destruct o. Qed.

Lemma nzd_py_float o : no_zero_division (py_float o).
Proof. destruct o; try done. simpl. by destruct (number_of_word _). Qed.

Lemma nzd_elements_of o : no_zero_division (elements_of o).
Proof. destruct o as [| | |[|??]| |[|??]]; done. Qed.

Lemma nzd_py_copy o : no_zero_division (py_copy o).
Proof. by destruct o. Qed.

Lemma nzd_read_items ed : no_zero_division (read_items ed).
Proof.
  unfold read_items.
  apply nzd_bind; [apply nzd_bind; [apply nzd_getitem|apply nzd_elements_of]|].
  intros its. apply nzd_mapM. intros o. unfold read_item.
  apply nzd_bind; [apply nzd_bind; [apply nzd_getitem|apply nzd_as_str]|].
  intros n.
  apply nzd_bind; [apply nzd_bind; [apply nzd_getitem|apply nzd_as_num]|].
  done.
Qed.

Lemma nzd_read_bill ed : no_zero_division (read_bill ed).
Proof.
  unfold read_bill. apply nzd_bind; [apply nzd_read_items|]. intros its.
  do 4 (apply nzd_bind;
          [apply nzd_bind; [apply nzd_getitem|apply nzd_as_num]|intros ?]).
  done.
Qed.

Lemma nzd_toggle i p c al : no_zero_division (toggle i p c al).
Proof. rewrite toggle_eq. by destruct (al !! i). Qed.

Lemma nzd_individual_costs ns its al :
  no_zero_division (individual_costs ns its al).
Proof.
  intros H. apply individual_costs_raise in H as [k Hk]. discriminate.
Qed.
End no_zero_division.

Lemma raises_only_lift_nzd {A} (r : result A) :
  no_zero_division r → raises_only (λ e, e ≠ ZeroDivisionError) (lift r).
Proof. intros Hr. apply raises_only_lift. intros e -> ->. by apply Hr. Qed.

Ltac no_division :=
  handler_steps;
  repeat first
    [ apply raises_only_raise; discriminate
    | apply raises_only_lift_nzd;
      first [ apply nzd_bind; [apply nzd_getitem|intros ?]
            | apply nzd_getitem | apply nzd_setitem | apply nzd_py_copy
            | apply nzd_read_items | apply nzd_read_bill | apply nzd_toggle
            | apply nzd_individual_costs ];
      first [ apply nzd_as_str | apply nzd_as_num | apply nzd_py_float
            | apply nzd_elements_of | idtac ]
    | progress handler_steps ].

(** Steps 1 to 4 divide nothing. *)
Lemma enter_names_no_division inp :
  raises_only (λ e, e ≠ ZeroDivisionError) (enter_names inp).
Proof. unfold enter_names. no_division. Qed.

Lemma upload_and_process_no_division inp :
  raises_only (λ e, e ≠ ZeroDivisionError) (upload_and_process inp).
Proof. unfold upload_and_process, get_gemini_response. no_division. Qed.

Lemma verify_and_edit_no_division inp :
  raises_only (λ e, e ≠ ZeroDivisionError) (verify_and_edit inp).
Proof.
  unfold verify_and_edit, edit_item, edit_number, recalculate_total,
    set_edited_item, set_edited, edited.
  no_division.
Qed.

Lemma allocate_items_no_division inp :
  raises_only (λ e, e ≠ ZeroDivisionError) (allocate_items inp).
Proof. unfold allocate_items, on_allocations. no_division. Qed.

(** ** Step 4 and the keys of the allocations *)

Lemma on_allocations_run f s pg al :
  allocations s = Some al →
  on_allocations f {| session := s; page := pg |}
  = match f al with
    | Ok al' => (Ok (), {| session := set_allocations al' s; page := pg |})
    | Raise e => (Raise e, {| session := s; page := pg |})
    end.
Proof.
  intros Hal. unfold on_allocations. run_M. rewrite Hal. run_M.
  by destruct (f al).
Qed.

(** The checkboxes of one item whose name is a key. *)
Lemma toggle_row_ok inp item ns : ∀ s pg al,
  allocations s = Some al → name item ∈ dom al →
  ∃ al',
    for_each_M (λ person,
      on_allocations
        (toggle (name item) person
           (checkbox inp (checkbox_key (name item) person)))) ns
      {| session := s; page := pg |}
    = (Ok (), {| session := set_allocations al' s; page := pg |})
    ∧ dom al' = dom al.
Proof.
  induction ns as [|person ns IH]; intros s pg al Hal Hin.
  - exists al. cbn [for_each_M]. run_M. split; [|done].
    destruct s. cbn in *. by rewrite Hal.
  - cbn [for_each_M]. rewrite M_bind_run, (on_allocations_run _ _ _ _ Hal).
    apply elem_of_dom in Hin as Hl. destruct Hl as [l Hl].
    rewrite toggle_eq, Hl.
    set (al1 := <[name item := _]> al).
    assert (dom al1 = dom al) as Hdom.
    { unfold al1. rewrite dom_insert_L. set_solver. }
    destruct (IH (set_allocations al1 s) pg al1) as (al' & Hrun & Hd);
      [done|by rewrite Hdom|].
    exists al'. rewrite Hrun. split; [done|congruence].
Qed.

(** The first checkbox of an item whose name is not a key raises. *)
Lemma toggle_row_absent inp item ns s pg al :
  allocations s = Some al → name item ∉ dom al → ns ≠ [] →
  (for_each_M (λ person,
      on_allocations
        (toggle (name item) person
           (checkbox inp (checkbox_key (name item) person)))) ns
     {| session := s; page := pg |}).1
  = Raise (KeyError (name item)).
Proof.
  intros Hal Hin Hns. destruct ns as [|person ns]; [done|].
  cbn [for_each_M]. rewrite M_bind_run, (on_allocations_run _ _ _ _ Hal).
  apply not_elem_of_dom in Hin. by rewrite toggle_eq, Hin.
Qed.

Section allocate_loops.
Context (inp : Inputs) (ns : list string).

Lemma toggle_rows_ok its : ∀ s pg al,
  allocations s = Some al → (∀ it, it ∈ its → name it ∈ dom al) →
  ∃ al', toggle_rows inp ns its {| session := s; page := pg |}
         = (Ok (), {| session := set_allocations al' s; page := pg |})
    ∧ dom al' = dom al.
Proof.
  induction its as [|item its IH]; intros s pg al Hal Hin.
  - exists al. unfold toggle_rows. cbn [for_each_M]. run_M. split; [|done].
    destruct s. cbn in *. by rewrite Hal.
  - unfold toggle_rows. cbn [for_each_M]. rewrite M_bind_run.
    destruct (toggle_row_ok inp item ns s pg al Hal) as (al1 & Hrow & Hd1);
      [apply Hin; by left|].
    rewrite Hrow.
    destruct (IH (set_allocations al1 s) pg al1) as (al' & Hrun & Hd);
      [done|intros it Hit; rewrite Hd1; apply Hin; by right|].
    exists al'. fold (toggle_rows inp ns its). rewrite Hrun. split; [done|congruence].
Qed.

Lemma toggle_rows_absent its : ∀ s pg al,
  allocations s = Some al → ns ≠ [] →
  (∃ it, it ∈ its ∧ name it ∉ dom al) →
  ∃ it, it ∈ its ∧ (name it ∉ dom al)
    ∧ (toggle_rows inp ns its {| session := s; page := pg |}).1
      = Raise (KeyError (name it)).
Proof.
  induction its as [|item its IH]; intros s pg al Hal Hns (it & Hit & Hab).
  - by apply elem_of_nil in Hit.
  - unfold toggle_rows. cbn [for_each_M]. rewrite M_bind_run.
    destruct (decide (name item ∈ dom al)) as [Hin|Hout].
    + destruct (toggle_row_ok inp item ns s pg al Hal Hin)
        as (al1 & Hrow & Hd1).
      rewrite Hrow. fold (toggle_rows inp ns its).
      destruct (IH (set_allocations al1 s) pg al1) as (it' & Hit' & Hab' & Hr);
        [done|done| |].
      * exists it. rewrite Hd1. split; [|done].
        apply elem_of_cons in Hit as [->|Hit]; [done|done].
      * exists it'. rewrite <- Hd1. split; [by right|]. by split.
    + exists item. split; [by left|]. split; [done|].
      pose proof (toggle_row_absent inp item ns s pg al Hal Hout Hns) as Hr.
      destruct (for_each_M _ ns _) as [[[]|e] st1]; cbn [fst] in *;
        [done|exact Hr].
Qed.
End allocate_loops.

Lemma init_allocations_lookup_gen its : ∀ (al : gmap string (list string)) k,
  foldl (λ m it, <[name it := []]> m) al its !! k
  = if decide (k ∈ name <$> its) then Some [] else al !! k.
Proof.
  induction its as [|it its IH]; intros al k; cbn [foldl fmap list_fmap].
  - case_decide as Hk; [by apply elem_of_nil in Hk|done].
  - rewrite IH. destruct (decide (k = name it)) as [->|Hne].
    + rewrite lookup_insert_eq.
      destruct (decide (name it ∈ name <$> its)),
               (decide (name it ∈ name it :: (name <$> its)));
        try done; set_solver.
    + rewrite lookup_insert_ne by done.
      destruct (decide (k ∈ name <$> its)),
               (decide (k ∈ name it :: (name <$> its)));
        try done; set_solver.
Qed.

Lemma init_allocations_dom its :
  dom (init_allocations its) = list_to_set (name <$> its).
Proof.
  apply set_eq. intros k. unfold init_allocations.
  rewrite elem_of_dom, init_allocations_lookup_gen, lookup_empty,
    elem_of_list_to_set.
  destruct (decide (k ∈ name <$> its)); split; try done.
  all: try (by intros _; eexists); try (by intros [? ?]).
Qed.

Lemma init_allocations_empty its k l :
  init_allocations its !! k = Some l → l = [].
Proof.
  unfold init_allocations.
  rewrite init_allocations_lookup_gen, lookup_empty.
  destruct (decide _); congruence.
Qed.

(** Step 4 as a whole, on a session that has a bill and names. *)
Lemma allocate_items_run inp s pg ed ns its :
  edited_bill_data s = Some ed → names s = Some ns →
  read_items ed = Ok its →
  allocate_items inp {| session := s; page := pg |}
  = toggle_rows inp ns its
      {| session :=
           match allocations s with
           | None => set_allocations (init_allocations its) s
           | Some _ => s
           end;
         page := pg |}.
Proof.
  intros Hed Hns Hits. unfold allocate_items. run_M.
  rewrite Hed, Hns, Hits. run_M.
  destruct (allocations s); run_M; reflexivity.
Qed.

(** ** Runs of the script *)

Lemma split_commas_nonempty cur s : split_commas cur s ≠ [].
Proof.
  revert cur. induction s as [|c s IH]; intros cur; simpl; [done|].
  destruct (Ascii.eqb c ","); [done|apply IH].
Qed.

(** A stored list of names has at least one element. *)
Lemma parse_names_nonempty text : parse_names text ≠ [].
Proof.
  unfold parse_names. intros H%fmap_nil_inv.
  by apply split_commas_nonempty in H.
Qed.

Lemma bind_session (R : Session → Session → Prop) `{!Transitive R}
    {A C : Type} (m : M A) (k : A → M C) st :
  R (session st) (session (m st).2) →
  (∀ a, R (session (m st).2) (session (k a (m st).2).2)) →
  R (session st) (session ((m ≫= k) st).2).
Proof.
  intros Hm Hk. rewrite M_bind_run.
  destruct (m st) as [[a|e] st1]; cbn [snd] in *; [|done].
  etrans; [exact Hm|apply Hk].
Qed.

Global Instance same_keys_refl : Reflexive same_keys.
Proof. intros s al Hal. eauto. Qed.

Global Instance same_keys_trans : Transitive same_keys.
Proof.
  intros s1 s2 s3 H12 H23 al Hal.
  destruct (H12 al Hal) as (al2 & Hal2 & Hd2).
  destruct (H23 al2 Hal2) as (al3 & Hal3 & Hd3).
  exists al3. split; [done|congruence].
Qed.

Lemma keeps_allocations_same_keys {A} (m : M A) st :
  keeps allocations m → same_keys (session st) (session (m st).2).
Proof. intros Hm al Hal. exists al. by rewrite Hm. Qed.

Lemma enter_names_keeps_allocations inp : keeps allocations (enter_names inp).
Proof. unfold enter_names. frame. Qed.

Lemma allocate_items_same_keys inp st :
  same_keys (session st) (session (allocate_items inp st).2).
Proof.
  intros al Hal.
  pose proof (allocate_items_keeps_keys inp st) as Hk.
  unfold allocation_keys in Hk. rewrite Hal in Hk.
  destruct (allocations (session (allocate_items inp st).2)) as [al'|];
    cbn in Hk.
  - exists al'. split; [done|]. apply (inj Some). by apply Hk.
  - by discriminate Hk.
Qed.

(** A run of the script never rebuilds the allocations. *)
Lemma main_same_keys inp st : same_keys (session st) (session (main inp st).2).
Proof.
  unfold main.
  apply (bind_session same_keys);
    [apply keeps_allocations_same_keys, enter_names_keeps_allocations|].
  intros _.
  apply (bind_session same_keys);
    [apply keeps_allocations_same_keys, upload_and_process_keeps_allocations|].
  intros _.
  apply (bind_session same_keys);
    [apply keeps_allocations_same_keys, verify_and_edit_keeps_allocations|].
  intros _.
  apply (bind_session same_keys); [apply allocate_items_same_keys|].
  intros _. apply keeps_allocations_same_keys, calculate_keeps.
Qed.

Lemma run_all_same_keys inps s : same_keys s (run_all inps s).
Proof.
  revert s. induction inps as [|inp inps IH]; intros s; [done|].
  cbn [run_all foldl]. etrans; [|apply IH].
  apply (main_same_keys inp {| session := s; page := [] |}).
Qed.

(** Names: Step 1 stores a non-empty list, the other steps store none. *)
Lemma keeps_both_has_participants {A} (m : M A) st :
  keeps names m → keeps allocations m →
  has_participants (session st) → has_participants (session (m st).2).
Proof. intros Hn Ha [H1 H2]. split; rewrite ?Hn, ?Ha; done. Qed.

Lemma enter_names_has_participants inp st :
  has_participants (session st) →
  has_participants (session (enter_names inp st).2).
Proof.
  intros [H1 H2].
  destruct (enter_names_run inp st) as (shown & ns & -> & _ & Hns).
  cbn [snd session]. split; cbn [names allocations].
  - destruct Hns as [->| ->]; [done|].
    intros [= H]. by apply parse_names_nonempty in H.
  - destruct Hns as [->| ->]; [done|done].
Qed.

Lemma allocate_items_without_names inp st :
  names (session st) = None → allocate_items inp st = (Ok (), st).
Proof.
  intros Hns. unfold allocate_items. run_M. rewrite Hns.
  by destruct (edited_bill_data (session st)).
Qed.

Lemma allocate_items_has_participants inp st :
  has_participants (session st) →
  has_participants (session (allocate_items inp st).2).
Proof.
  intros [H1 H2]. split.
  - by rewrite allocate_items_keeps_names.
  - rewrite allocate_items_keeps_names. intros Hal Hns.
    rewrite (allocate_items_without_names _ _ Hns) in Hal. cbn [snd] in Hal.
    by apply H2.
Qed.

(** Step 5 divides by the number of names only. *)
Lemma calculate_no_division inp st :
  has_participants (session st) →
  (calculate inp st).1 ≠ Raise ZeroDivisionError.
Proof.
  intros [Hne _]. unfold calculate.
  destruct (calculate_split_button inp); [|done]. run_M.
  destruct (allocations (session st)) as [al|]; [|done].
  destruct (edited_bill_data (session st)) as [ed|]; [|done].
  destruct (names (session st)) as [ns|]; run_M; [|done].
  destruct (read_bill ed) as [bill|e] eqn:Hb; run_M.
  2:{ intros [= ->]. by apply (nzd_read_bill ed). }
  destruct (individual_costs ns (items bill) al) as [costs|e] eqn:Hc; run_M.
  2:{ intros [= ->]. by apply (nzd_individual_costs ns (items bill) al). }
  destruct ns as [|n ns]; [done|].
  rewrite final_costs_nonempty by done. run_M. done.
Qed.

Lemma main_has_participants inp st :
  has_participants (session st) → has_participants (session (main inp st).2).
Proof.
  intros H0. unfold main.
  pose proof (enter_names_has_participants inp st H0) as H1.
  rewrite M_bind_run.
  destruct (enter_names inp st) as [[[]|e] st1]; cbn [snd] in *; [|done].
  pose proof (keeps_both_has_participants _ st1
                (upload_and_process_keeps_names inp)
                (upload_and_process_keeps_allocations inp) H1) as H2.
  rewrite M_bind_run.
  destruct (upload_and_process inp st1) as [[[]|e] st2]; cbn [snd] in *;
    [|done].
  pose proof (keeps_both_has_participants _ st2
                (verify_and_edit_keeps_names inp)
                (verify_and_edit_keeps_allocations inp) H2) as H3.
  rewrite M_bind_run.
  destruct (verify_and_edit inp st2) as [[[]|e] st3]; cbn [snd] in *;
    [|done].
  pose proof (allocate_items_has_participants inp st3 H3) as H4.
  rewrite M_bind_run.
  destruct (allocate_items inp st3) as [[[]|e] st4]; cbn [snd] in *;
    [|done].
  apply (keeps_both_has_participants _ st4); [apply calculate_keeps..|done].
Qed.

(** No run of the script on a session with participants divides by zero. *)
Lemma main_no_division inp st :
  has_participants (session st) → (main inp st).1 ≠ Raise ZeroDivisionError.
Proof.
  intros H0. unfold main.
  pose proof (enter_names_has_participants inp st H0) as H1.
  pose proof (enter_names_no_division inp st) as N1.
  rewrite M_bind_run.
  destruct (enter_names inp st) as [[[]|e] st1]; cbn [fst snd] in *;
    [|intros [= ->]; by apply (N1 ZeroDivisionError)].
  pose proof (keeps_both_has_participants _ st1
                (upload_and_process_keeps_names inp)
                (upload_and_process_keeps_allocations inp) H1) as H2.
  pose proof (upload_and_process_no_division inp st1) as N2.
  rewrite M_bind_run.
  destruct (upload_and_process inp st1) as [[[]|e] st2]; cbn [fst snd] in *;
    [|intros [= ->]; by apply (N2 ZeroDivisionError)].
  pose proof (keeps_both_has_participants _ st2
                (verify_and_edit_keeps_names inp)
                (verify_and_edit_keeps_allocations inp) H2) as H3.
  pose proof (verify_and_edit_no_division inp st2) as N3.
  rewrite M_bind_run.
  destruct (verify_and_edit inp st2) as [[[]|e] st3]; cbn [fst snd] in *;
    [|intros [= ->]; by apply (N3 ZeroDivisionError)].
  pose proof (allocate_items_has_participants inp st3 H3) as H4.
  pose proof (allocate_items_no_division inp st3) as N4.
  rewrite M_bind_run.
  destruct (allocate_items inp st3) as [[[]|e] st4]; cbn [fst snd] in *;
    [|intros [= ->]; by apply (N4 ZeroDivisionError)].
  by apply calculate_no_division.
Qed.

Lemma new_session_has_participants : has_participants new_session.
Proof. by split. Qed.

Lemma run_all_has_participants inps s :
  has_participants s → has_participants (run_all inps s).
Proof.
  revert s. induction inps as [|inp inps IH]; intros s Hs; [done|].
  cbn [run_all foldl]. apply IH.
  by apply (main_has_participants inp {| session := s; page := [] |}).
Qed.

Lemma individual_costs_keys ns its al costs :
  individual_costs ns its al = Ok costs →
  ∀ it, it ∈ its → name it ∈ dom al.
Proof.
  unfold individual_costs. generalize (init_costs ns). revert costs.
  induction its as [|item its IH]; intros costs c0 Hrun it Hit.
  - by apply elem_of_nil in Hit.
  - cbn [for_each] in Hrun.
    destruct (item_step al c0 item) as [c1|e] eqn:Hstep; [|done].
    cbn [mbind result_bind] in Hrun.
    apply elem_of_cons in Hit as [->|Hit]; [|by eapply IH].
    unfold item_step in Hstep. apply elem_of_dom.
    destruct (al !! name item); [eauto|done].
Qed.

(** C6 (as amended).  The split calculation has no guard for an empty list
    of participants and no error of its own for it: called with no
    participant it never returns a result, and unless the item loop already
    failed on a missing key it raises the ZeroDivisionError of the division
    of tax and tip by [len(names)].  The script does not call it so: a
    session stores names only from a non-empty input, whose split at the
    commas has at least one element, and has allocations, without which
    nothing is calculated, only once it has names; so no run of the script,
    after any interactions, raises ZeroDivisionError. *)
Theorem C6_empty_participants :
  (∀ bill al, ∃ e, calculate_split [] bill al = Raise e
                   ∧ (e = ZeroDivisionError ∨ ∃ k, e = KeyError k))
  ∧ (∀ bill al costs, individual_costs [] (items bill) al = Ok costs →
       calculate_split [] bill al = Raise ZeroDivisionError)
  ∧ (∀ text, parse_names text ≠ [])
  ∧ (∀ inps, has_participants (run_all inps new_session))
  ∧ (∀ inps inp, (run_main inp (run_all inps new_session)).1
                 ≠ Raise ZeroDivisionError).
Proof.
  repeat apply conj.
  - intros bill al. unfold calculate_split.
    destruct (individual_costs [] (items bill) al) as [costs|e] eqn:Hc.
    + exists ZeroDivisionError. split; [done|by left].
    + exists e. split; [done|]. right. by eapply individual_costs_raise.
  - intros bill al costs Hc. unfold calculate_split. by rewrite Hc.
  - apply parse_names_nonempty.
  - intros inps. apply run_all_has_participants, new_session_has_participants.
  - intros inps inp. apply main_no_division. cbn [session].
    apply run_all_has_participants, new_session_has_participants.
Qed.

(** C6, as the claim states it, fails: with no participant the calculation
    raises the raw ZeroDivisionError. *)
Lemma C6_raw_division_error_counterexample :
  calculate_split [] pizza_soda nobody_allocations = Raise ZeroDivisionError.
Proof. reflexivity. Qed.

(** C10.  Step 4 creates the allocations when the session has none, with one
    key per name of the items of that moment, each with no sharer; no run of
    the script, whatever is renamed or analyzed in it, changes the keys of
    allocations that exist; and both Step 4, which has at least one
    checkbox per item, and the split calculation raise KeyError when a
    current item has a name that is not a key. *)
Theorem C10_allocations_created_once :
  (∀ inp s pg ed ns its,
     edited_bill_data s = Some ed → names s = Some ns →
     allocations s = None → read_items ed = Ok its →
     (allocate_items inp {| session := s; page := pg |}).1 = Ok ()
     ∧ ∃ al, allocations
               (session (allocate_items inp {| session := s; page := pg |}).2)
             = Some al
         ∧ dom al = list_to_set (name <$> its)
         ∧ dom (init_allocations its) = list_to_set (name <$> its)
         ∧ ∀ k l, init_allocations its !! k = Some l → l = [])
  ∧ (∀ inp s, same_keys s (session (run_main inp s).2))
  ∧ (∀ inps s, same_keys s (run_all inps s))
  ∧ (∀ inp s pg ed ns al its,
       edited_bill_data s = Some ed → names s = Some ns → ns ≠ [] →
       allocations s = Some al → read_items ed = Ok its →
       (∃ it, it ∈ its ∧ name it ∉ dom al) →
       ∃ it, it ∈ its ∧ (name it ∉ dom al)
         ∧ (allocate_items inp {| session := s; page := pg |}).1
           = Raise (KeyError (name it)))
  ∧ (∀ ns its al, (∃ it, it ∈ its ∧ name it ∉ dom al) →
       ∃ k, individual_costs ns its al = Raise (KeyError k)).
Proof.
  repeat apply conj.
  - intros inp s pg ed ns its Hed Hns Hal Hits.
    rewrite (allocate_items_run _ _ _ _ _ _ Hed Hns Hits), Hal.
    destruct (toggle_rows_ok inp ns its
                (set_allocations (init_allocations its) s) pg
                (init_allocations its)) as (al & Hrun & Hdom); [done| |].
    { intros it Hit. rewrite init_allocations_dom, elem_of_list_to_set.
      by apply list_elem_of_fmap_2. }
    rewrite Hrun. split; [done|]. exists al. cbn.
    split; [done|]. split; [by rewrite Hdom, init_allocations_dom|].
    split; [apply init_allocations_dom|apply init_allocations_empty].
  - intros inp s. apply (main_same_keys inp {| session := s; page := [] |}).
  - apply run_all_same_keys.
  - intros inp s pg ed ns al its Hed Hns Hne Hal Hits Hab.
    rewrite (allocate_items_run _ _ _ _ _ _ Hed Hns Hits), Hal.
    by apply toggle_rows_absent.
  - intros ns its al (it & Hit & Hab).
    destruct (individual_costs ns its al) as [costs|e] eqn:Hc.
    + exfalso. apply Hab. by eapply individual_costs_keys.
    + apply individual_costs_raise in Hc as [k ->]. eauto.
Qed.

(** Renaming the item after the allocations exist: the same run stops in
    Step 4 on the missing key, with the allocations as they were. *)
Example rename_after_allocation :
  (run_main rename_to_pasta pizza_session).1 = Raise (KeyError "Pasta")
  ∧ allocations (session (run_main rename_to_pasta pizza_session).2)
    = Some {[ "Pizza" := [] ]}.
Proof. vm_compute. auto. Qed.

(** Step 5 of the script is the split calculation on the session's names,
    bill and allocations: it fails as the calculation fails, and otherwise
    shows the two rounded tables. *)
Lemma calculate_run inp s pg al ed ns bill :
  calculate_split_button inp = true →
  allocations s = Some al → edited_bill_data s = Some ed →
  names s = Some ns → read_bill ed = Ok bill →
  match calculate_split ns bill al with
  | Ok r =>
      calculate inp {| session := s; page := pg |}
      = (Ok (), {| session := s;
                   page := pg ++ [st_table (results_df r);
                                  st_write_total (total bill);
                                  st_table (final_df r)] |})
  | Raise e => (calculate inp {| session := s; page := pg |}).1 = Raise e
  end.
Proof.
  intros Hb Hal Hed Hns Hbill. unfold calculate, calculate_split.
  rewrite Hb. run_M. rewrite Hal, Hed, Hns. run_M. rewrite Hbill. run_M.
  destruct (individual_costs ns (items bill) al) as [costs|e]; run_M;
    [|done].
  cbn [mbind result_bind].
  destruct (final_costs ns bill costs) as [fin|e]; run_M; [|done].
  cbn [mbind result_bind mret result_ret results_df final_df].
  by rewrite <- !(assoc_L (++)).
Qed.

(** The first run that has both a bill and names creates the allocations,
    one empty list per item name; later runs find them there. *)
Example allocations_created :
  let before :=
    {| names := Some ["Alice"; "Bob"]; original_bill_data := Some one_pizza;
       edited_bill_data := Some one_pizza; allocations := None |} in
  (run_main idle before).1 = Ok ()
  ∧ allocations (session (run_main idle before).2)
    = Some {[ "Pizza" := [] ]}.
Proof. vm_compute. auto. Qed.

(** * Further properties of the script *)

(** ** The split, participant by participant *)

Lemma occurrences_absent p l : p ∉ l → occurrences p l = 0%nat.
Proof.
  induction l as [|x l IH]; [done|]. intros Hp. cbn [occurrences].
  destruct (String.eqb_spec x p) as [->|_]; [set_solver|].
  rewrite IH; [done|set_solver].
Qed.

Lemma occurrences_NoDup p l :
  NoDup l → occurrences p l = if decide (p ∈ l) then 1%nat else 0%nat.
Proof.
  induction 1 as [|x l Hx Hnd IH]; cbn [occurrences].
  - by rewrite decide_False by apply not_elem_of_nil.
  - destruct (String.eqb_spec x p) as [->|Hne].
    + rewrite occurrences_absent by done.
      by rewrite decide_True by by left.
    + rewrite IH. destruct (decide (p ∈ l)).
      * by rewrite decide_True by by right.
      * rewrite decide_False; [done|]. set_solver.
Qed.

(** The inner loop adds the share once per occurrence of a name. *)
Lemma add_costs_lookup c sharers : ∀ costs costs' p,
  for_each (add_cost c) costs sharers = Ok costs' →
  costs' !! p
  = (λ v, v + Qc_of_nat (occurrences p sharers) * c) <$> costs !! p.
Proof.
  induction sharers as [|n sharers IH]; intros costs costs' p Hrun.
  - injection Hrun as <-. cbn [occurrences]. rewrite Qc_of_nat_0.
    destruct (costs !! p) as [v|]; [|done]. cbn. f_equal. ring.
  - cbn [for_each] in Hrun.
    destruct (costs !! n) as [v|] eqn:Hn.
    2:{ by rewrite (add_cost_None _ _ _ Hn) in Hrun. }
    rewrite (add_cost_Some _ _ _ _ Hn) in Hrun.
    cbn [mbind result_bind] in Hrun.
    rewrite (IH _ _ p Hrun). cbn [occurrences].
    destruct (String.eqb_spec n p) as [->|Hne].
    + rewrite lookup_insert_eq, Hn. cbn. f_equal.
      change (1 + occurrences p sharers)%nat with (S (occurrences p sharers)).
      rewrite Qc_of_nat_S. ring.
    + by rewrite lookup_insert_ne.
Qed.

Lemma item_step_lookup al costs costs' it p :
  item_step al costs it = Ok costs' →
  costs' !! p = (λ v, v + share_of al p it) <$> costs !! p.
Proof.
  unfold item_step, share_of.
  destruct (al !! name it) as [[|n sharers]|]; [| |done].
  - intros [= <-]. cbn [occurrences]. rewrite Qc_of_nat_0.
    destruct (costs !! p) as [v|]; [|done]. cbn. f_equal. ring.
  - cbn [py_div mbind result_bind length]. apply add_costs_lookup.
Qed.

Lemma items_lookup al its : ∀ costs costs' p,
  for_each (item_step al) costs its = Ok costs' →
  costs' !! p = (λ v, v + expected_cost al p its) <$> costs !! p.
Proof.
  induction its as [|it its IH]; intros costs costs' p Hrun.
  - injection Hrun as <-. cbn [expected_cost foldr].
    destruct (costs !! p) as [v|]; [|done]. cbn. f_equal. ring.
  - cbn [for_each] in Hrun.
    destruct (item_step al costs it) as [c1|e] eqn:Hstep; [|done].
    cbn [mbind result_bind] in Hrun.
    rewrite (IH _ _ p Hrun), (item_step_lookup _ _ _ _ p Hstep).
    cbn [expected_cost foldr]. fold (expected_cost al p its).
    destruct (costs !! p) as [v|]; [|done]. cbn. f_equal. ring.
Qed.

(** X1.  When every item has an entry whose sharers are all participants,
    the item loop returns, and the individual cost of each participant is
    the sum, over the items, of the item's price divided by the number of
    its sharers, once for each time the participant is listed for the item;
    names that are not participants get no entry. *)
Theorem X1_individual_cost_of_each_participant names its al :
  forallb (sharers_known names al) its = true →
  ∃ costs, individual_costs names its al = Ok costs
    ∧ (∀ p, p ∈ names → costs !! p = Some (expected_cost al p its))
    ∧ (∀ p, p ∉ names → costs !! p = None)
    ∧ (∀ p it sharers, al !! name it = Some sharers → NoDup sharers →
         share_of al p it
         = if decide (p ∈ sharers)
           then price it / Qc_of_nat (length sharers) else 0).
Proof.
  intros Hall.
  destruct (for_each_items_ok names al its (init_costs names))
    as (costs & Hrun & _); [apply init_costs_dom|done|].
  exists costs. split; [exact Hrun|].
  split; [|split].
  - intros p Hp. rewrite (items_lookup _ _ _ _ p Hrun), init_costs_lookup.
    rewrite decide_True by done. cbn. f_equal. ring.
  - intros p Hp. rewrite (items_lookup _ _ _ _ p Hrun), init_costs_lookup.
    by rewrite decide_False.
  - intros p it sharers Hal Hnd. unfold share_of. rewrite Hal.
    rewrite (occurrences_NoDup _ _ Hnd).
    destruct (decide (p ∈ sharers)).
    + change (Qc_of_nat 1) with (Qc_of_nat (S 0)).
      rewrite Qc_of_nat_S, Qc_of_nat_0. ring.
    + rewrite Qc_of_nat_0. ring.
Qed.

Lemma X1_individual_cost_of_each_participant_witness :
  ∃ costs,
    individual_costs ["Alice"; "Bob"] (items pizza_soda)
      pizza_soda_allocations = Ok costs
    ∧ costs !! "Alice"
      = Some (expected_cost pizza_soda_allocations "Alice" (items pizza_soda))
    ∧ costs !! "Carol" = None.
Proof.
  destruct (X1_individual_cost_of_each_participant ["Alice"; "Bob"]
              (items pizza_soda) pizza_soda_allocations)
    as (costs & Hrun & Hin & Hout & _); [vm_compute; reflexivity|].
  exists costs. split; [exact Hrun|]. split.
  - apply Hin. apply existsb_eqb_elem_of. vm_compute. reflexivity.
  - apply Hout. intros H%existsb_eqb_elem_of. vm_compute in H. discriminate.
Defined.

(** ** When the item loop fails *)

Lemma add_costs_ok_inv c sharers : ∀ costs costs',
  for_each (add_cost c) costs sharers = Ok costs' →
  (∀ n, n ∈ sharers → n ∈ dom costs) ∧ dom costs' = dom costs.
Proof.
  induction sharers as [|n sharers IH]; intros costs costs' Hrun.
  - injection Hrun as <-. split; [|done]. intros n Hn.
    by apply elem_of_nil in Hn.
  - cbn [for_each] in Hrun. destruct (costs !! n) as [v|] eqn:Hn.
    2:{ by rewrite (add_cost_None _ _ _ Hn) in Hrun. }
    rewrite (add_cost_Some _ _ _ _ Hn) in Hrun.
    cbn [mbind result_bind] in Hrun.
    destruct (IH _ _ Hrun) as [Hin Hdom].
    assert (n ∈ dom costs) as Hnd by (apply elem_of_dom; eauto).
    assert (dom (<[n := v + c]> costs) = dom costs) as Hd1.
    { rewrite dom_insert_L. set_solver. }
    split; [|congruence].
    intros k [->|Hk]%elem_of_cons; [done|].
    rewrite <- Hd1. by apply Hin.
Qed.

Lemma add_costs_raise_key c sharers : ∀ costs e,
  for_each (add_cost c) costs sharers = Raise e →
  ∃ k, e = KeyError k ∧ k ∈ sharers ∧ k ∉ dom costs.
Proof.
  induction sharers as [|n sharers IH]; intros costs e Hrun; [done|].
  cbn [for_each] in Hrun. destruct (costs !! n) as [v|] eqn:Hn.
  - rewrite (add_cost_Some _ _ _ _ Hn) in Hrun.
    cbn [mbind result_bind] in Hrun.
    destruct (IH _ _ Hrun) as (k & -> & Hk & Hout).
    exists k. split; [done|]. split; [by right|].
    rewrite dom_insert_L in Hout. set_solver.
  - rewrite (add_cost_None _ _ _ Hn) in Hrun. injection Hrun as <-.
    exists n. split; [done|]. split; [by left|]. by apply not_elem_of_dom.
Qed.

Lemma item_step_ok_inv names al costs costs' it :
  dom costs = list_to_set names →
  item_step al costs it = Ok costs' →
  sharers_known names al it = true ∧ dom costs' = dom costs.
Proof.
  intros Hdom. unfold item_step. rewrite sharers_known_spec.
  destruct (al !! name it) as [[|n sharers]|]; [| |done].
  - intros [= <-]. split; [|done]. exists []. split; [done|].
    intros k Hk. by apply elem_of_nil in Hk.
  - cbn [py_div mbind result_bind length].
    intros [Hin Hd]%add_costs_ok_inv. split; [|done].
    exists (n :: sharers). split; [done|]. intros k Hk.
    apply Hin in Hk. by rewrite Hdom, elem_of_list_to_set in Hk.
Qed.

Lemma items_ok_inv names al its : ∀ costs costs',
  dom costs = list_to_set names →
  for_each (item_step al) costs its = Ok costs' →
  forallb (sharers_known names al) its = true.
Proof.
  induction its as [|it its IH]; intros costs costs' Hdom Hrun; [done|].
  cbn [for_each] in Hrun.
  destruct (item_step al costs it) as [c1|e] eqn:Hstep; [|done].
  cbn [mbind result_bind] in Hrun.
  destruct (item_step_ok_inv names _ _ _ _ Hdom Hstep) as [Hk Hd1].
  cbn [forallb]. rewrite Hk. cbn [andb].
  apply (IH c1 costs'); [congruence|done].
Qed.

Lemma items_raise_key names al its : ∀ costs e,
  dom costs = list_to_set names →
  for_each (item_step al) costs its = Raise e →
  ∃ k, e = KeyError k ∧ missing_key names al its k.
Proof.
  induction its as [|it its IH]; intros costs e Hdom Hrun; [done|].
  cbn [for_each] in Hrun.
  destruct (item_step al costs it) as [c1|e1] eqn:Hstep.
  - cbn [mbind result_bind] in Hrun.
    destruct (item_step_ok_inv names _ _ _ _ Hdom Hstep) as [_ Hd1].
    destruct (IH c1 e) as (k & -> & it' & Hit' & Hbad); [congruence|done|].
    exists k. split; [done|]. exists it'. split; [by right|done].
  - injection Hrun as <-. unfold item_step in Hstep.
    destruct (al !! name it) as [[|n sharers]|] eqn:Hal; [done| |].
    + cbn [py_div mbind result_bind length] in Hstep.
      apply add_costs_raise_key in Hstep as (k & -> & Hk & Hout).
      exists k. split; [done|]. exists it. split; [by left|]. right.
      exists (n :: sharers). split; [done|]. split; [done|].
      by rewrite Hdom, elem_of_list_to_set in Hout.
    + injection Hstep as <-. exists (name it). split; [done|].
      exists it. split; [by left|]. by left.
Qed.

(** X2.  The item loop of the split returns exactly when every item has an
    entry in the allocations and all the sharers listed there are
    participants.  Otherwise it raises KeyError, and the key is the name of
    an item without an entry or a listed sharer who is not a participant,
    as happens after an item is renamed or the names are entered again. *)
Theorem X2_item_loop_returns_iff_keys_known names its al :
  is_ok (individual_costs names its al)
  = forallb (sharers_known names al) its
  ∧ ∀ e, individual_costs names its al = Raise e →
         ∃ k, e = KeyError k ∧ missing_key names al its k.
Proof.
  split.
  - destruct (forallb (sharers_known names al) its) eqn:Hall.
    + destruct (for_each_items_ok names al its (init_costs names))
        as (costs & Hrun & _); [apply init_costs_dom|done|].
      unfold individual_costs. by rewrite Hrun.
    + destruct (individual_costs names its al) as [costs|e] eqn:Hrun;
        [|done].
      apply (items_ok_inv names) in Hrun; [congruence|apply init_costs_dom].
  - intros e Hrun. eapply items_raise_key; [apply init_costs_dom|exact Hrun].
Qed.

(** Bob shared the pizza; the names are then entered again without him. *)
Example stale_sharer_raises :
  individual_costs ["Alice"] (items pizza_soda) pizza_soda_allocations
  = Raise (KeyError "Bob").
Proof. reflexivity. Qed.

(** ** Sums and signs of the split *)

Lemma occurrences_not_in p l : py_in p l = false → occurrences p l = 0%nat.
Proof.
  intros H. apply occurrences_absent. intros Hp%py_in_elem_of. congruence.
Qed.

Lemma expected_cost_nothing al p its :
  shares_nothing al p its = true → expected_cost al p its = 0.
Proof.
  induction its as [|it its IH]; [done|].
  cbn [shares_nothing forallb]. intros [Hit Hall]%andb_true_iff.
  cbn [expected_cost foldr]. fold (expected_cost al p its).
  rewrite (IH Hall). unfold share_of.
  destruct (al !! name it) as [sharers|]; [|ring]. cbn [default] in Hit.
  rewrite occurrences_not_in by by apply negb_true_iff.
  rewrite Qc_of_nat_0. ring.
Qed.

(** X3.  A participant who is a sharer of no item has the individual cost 0
    and, as final cost, exactly the even share of tax and tip. *)
Theorem X3_participant_without_items names bill al p :
  p ∈ names →
  forallb (sharers_known names al) (items bill) = true →
  shares_nothing al p (items bill) = true →
  ∃ r, calculate_split names bill al = Ok r
    ∧ individual r !! p = Some 0
    ∧ final r !! p
      = Some ((tax bill + tip bill) / Qc_of_nat (length names)).
Proof.
  intros Hp Hall Hnone.
  destruct (for_each_items_ok names al (items bill) (init_costs names))
    as (costs & Hrun & _); [apply init_costs_dom|done|].
  assert (names ≠ []) as Hne by (intros ->; by apply elem_of_nil in Hp).
  assert (costs !! p = Some 0) as Hc.
  { rewrite (items_lookup _ _ _ _ p Hrun), init_costs_lookup.
    rewrite decide_True by done. cbn.
    rewrite (expected_cost_nothing _ _ _ Hnone). f_equal; ring. }
  eexists. unfold calculate_split, individual_costs. rewrite Hrun.
  cbn [mbind result_bind]. rewrite (final_costs_nonempty _ _ _ Hne).
  cbn [mbind result_bind mret result_ret]. split; [reflexivity|].
  cbn [individual final]. split; [done|].
  rewrite lookup_fmap, Hc. cbn. f_equal; ring.
Qed.

Lemma X3_participant_without_items_witness :
  ∃ r, calculate_split ["Alice"; "Bob"; "Carol"] pizza_soda
         pizza_soda_allocations = Ok r
    ∧ individual r !! "Carol" = Some 0
    ∧ final r !! "Carol" = Some ((qc 2 1 + qc 3 1) / Qc_of_nat 3).
Proof.
  apply (X3_participant_without_items ["Alice"; "Bob"; "Carol"] pizza_soda
           pizza_soda_allocations "Carol").
  - apply existsb_eqb_elem_of. vm_compute. reflexivity.
  - vm_compute. reflexivity.
  - vm_compute. reflexivity.
Defined.





Lemma Qc_of_nat_nonneg n : (0 ≤ Qc_of_nat n)%Qc.
Proof.
  unfold Qcle, Qc_of_nat, Qc_of_Z. cbn [this]. unfold Qle. simpl. lia.
Qed.

Lemma Qc_mult_nonneg (x y : Qc) : (0 ≤ x → 0 ≤ y → 0 ≤ x * y)%Qc.
Proof.
  intros Hx Hy. rewrite <- (Qcmult_0_r x).
  by apply Qcmult_le_mono_nonneg_l.
Qed.

Lemma Qc_div_nat_nonneg (x : Qc) n : (0 ≤ x → 0 ≤ x / Qc_of_nat n)%Qc.
Proof.
  intros Hx. unfold Qcdiv. apply Qc_mult_nonneg; [done|].
  destruct n as [|n].
  - replace (/ Qc_of_nat 0) with (Q2Qc 0) by (apply Qc_is_canon; reflexivity).
    apply Qcle_refl.
  - apply Qclt_le_weak, Qcinv_pos.
    destruct (Qcle_lt_or_eq _ _ (Qc_of_nat_nonneg (S n))) as [H|H]; [done|].
    symmetry in H. by apply Qc_of_nat_nonzero in H.
Qed.

Lemma prices_nonnegative_spec its :
  prices_nonnegative its = true → ∀ it, it ∈ its → (0 ≤ price it)%Qc.
Proof.
  unfold prices_nonnegative. rewrite forallb_forall. intros H it Hit.
  apply list_elem_of_In, H in Hit. by apply Qle_bool_iff in Hit.
Qed.

Lemma expected_cost_nonneg al p its :
  prices_nonnegative its = true → (0 ≤ expected_cost al p its)%Qc.
Proof.
  intros Hb. pose proof (prices_nonnegative_spec _ Hb) as Hpr. clear Hb.
  induction its as [|it its IH]; [apply Qcle_refl|].
  cbn [expected_cost foldr]. fold (expected_cost al p its).
  apply Qcplus_nonneg_nonneg.
  - unfold share_of. destruct (al !! name it); [|apply Qcle_refl].
    apply Qc_mult_nonneg; [apply Qc_of_nat_nonneg|].
    apply Qc_div_nat_nonneg, Hpr. by left.
  - apply IH. intros it' Hit'. apply Hpr. by right.
Qed.

(** X5.  When no price is negative, no individual cost is negative; and when
    tax plus tip is not negative either, every final cost is at least the
    individual cost of the participant, hence not negative. *)
Theorem X5_costs_are_not_negative names bill al :
  prices_nonnegative (items bill) = true → names ≠ [] →
  forallb (sharers_known names al) (items bill) = true →
  ∃ r, calculate_split names bill al = Ok r
    ∧ (∀ p c, individual r !! p = Some c → (0 ≤ c)%Qc)
    ∧ ((0 ≤ tax bill + tip bill)%Qc →
       ∀ p c f, individual r !! p = Some c → final r !! p = Some f →
                (c ≤ f)%Qc ∧ (0 ≤ f)%Qc).
Proof.
  intros Hpr Hne Hall.
  destruct (for_each_items_ok names al (items bill) (init_costs names))
    as (costs & Hrun & Hdom); [apply init_costs_dom|done|].
  assert (∀ p c, costs !! p = Some c → (0 ≤ c)%Qc) as Hpos.
  { intros p c Hc. rewrite (items_lookup _ _ _ _ p Hrun) in Hc.
    rewrite init_costs_lookup in Hc. destruct (decide (p ∈ names)); [|done].
    injection Hc as <-. rewrite Qcplus_0_l. by apply expected_cost_nonneg. }
  eexists. unfold calculate_split, individual_costs. rewrite Hrun.
  cbn [mbind result_bind]. rewrite (final_costs_nonempty _ _ _ Hne).
  cbn [mbind result_bind mret result_ret]. split; [reflexivity|].
  cbn [individual final]. split; [exact Hpos|].
  intros Htt p c f Hc. rewrite lookup_fmap, Hc. intros [= <-].
  assert (0 ≤ (tax bill + tip bill) / Qc_of_nat (length names))%Qc as Hshare
    by by apply Qc_div_nat_nonneg.
  split.
  - rewrite <- (Qcplus_0_r c) at 1. by apply Qcplus_le_mono_l.
  - apply Qcplus_nonneg_nonneg; [by eapply Hpos|done].
Qed.

Lemma X5_costs_are_not_negative_witness :
  ∃ r, calculate_split ["Alice"; "Bob"] pizza_soda pizza_soda_allocations
       = Ok r
    ∧ (∀ p c, individual r !! p = Some c → (0 ≤ c)%Qc)
    ∧ ((0 ≤ qc 2 1 + qc 3 1)%Qc →
       ∀ p c f, individual r !! p = Some c → final r !! p = Some f →
                (c ≤ f)%Qc ∧ (0 ≤ f)%Qc).
Proof.
  apply (X5_costs_are_not_negative ["Alice"; "Bob"] pizza_soda
           pizza_soda_allocations).
  - vm_compute. reflexivity.
  - discriminate.
  - vm_compute. reflexivity.
Defined.

(** ** The displayed amounts *)








(** ** The names of Step 1 *)








Example names_with_spaces :
  parse_names " Alice ,Bob,, Carol Ann " = ["Alice"; "Bob"; ""; "Carol Ann"].
Proof. reflexivity. Qed.

(** ** More on the extraction *)

(** X8.  With a reply in hand, [get_gemini_response] never raises: its
    handler turns every failure to parse into the value None, after showing
    the error, a heading and the raw reply, and shows nothing when the reply
    parses.  Whatever the call did, the session is left as it was and what
    was on the page stays there. *)
Theorem X8_extraction_swallows_parse_errors :
  (∀ (text : string) st,
     (∃ v, try_extract (Ok text) = Ok v
           ∧ get_gemini_response (Ok text) st = (Ok v, st))
     ∨ (∃ e, try_extract (Ok text) = Raise e
             ∧ get_gemini_response (Ok text) st
               = (Ok PNone,
                  {| session := session st;
                     page := page st ++ [st_error_exn e;
                                         st_error "Raw response from Gemini:";
                                         st_code text] |})))
  ∧ (∀ call st,
       session (get_gemini_response call st).2 = session st
       ∧ ∃ shown, page (get_gemini_response call st).2 = page st ++ shown).
Proof.
  split.
  - intros text st. destruct (try_extract (Ok text)) as [v|e] eqn:Hx.
    + left. exists v. split; [done|]. by apply get_gemini_response_ok.
    + right. exists e. split; [done|].
      by apply get_gemini_response_unparsed.
  - intros call st. split; [apply (get_gemini_response_keeps id)|].
    destruct call as [text|e].
    + destruct (try_extract (Ok text)) as [v|e] eqn:Hx.
      * rewrite (get_gemini_response_ok _ _ _ Hx). exists [].
        by rewrite app_nil_r.
      * rewrite (get_gemini_response_unparsed _ _ _ Hx). by eexists.
    + rewrite get_gemini_response_call_raised. by eexists.
Qed.

(** X9.  The fallback can only produce a dict: when strict parsing of the
    reply fails, [get_gemini_response] returns a dict, parsed from the text
    between the first open brace and the last closing brace, or None.  A
    list, a number, a string or a boolean is returned only for a reply that
    is, as a whole, JSON for it. *)
Theorem X9_fallback_yields_a_dict (text : string) st e v st' :
  json_loads text = Raise e →
  get_gemini_response (Ok text) st = (Ok v, st') →
  (v = PNone ∧ ∃ e', try_extract (Ok text) = Raise e')
  ∨ (∃ d m, v = PDict d ∧ re_search_braces text = Some m
            ∧ json_loads m = Ok (PDict d)).
Proof.
  intros He Hret.
  destruct (try_extract (Ok text)) as [w|e'] eqn:Hx.
  - rewrite (get_gemini_response_ok _ _ _ Hx) in Hret.
    injection Hret as -> _. right.
    unfold try_extract in Hx. cbn [mbind result_bind] in Hx.
    rewrite He, (json_loads_raise _ _ He) in Hx.
    destruct (re_search_braces text) as [m|] eqn:Hm; [|done].
    destruct (re_search_braces_some _ _ Hm) as (pre & mid & post & _ & Hl & _).
    destruct (json_loads_brace _ _ _ Hl Hx) as [d ->]. by exists d, m.
  - rewrite (get_gemini_response_unparsed _ _ _ Hx) in Hret.
    injection Hret as <- _. left. eauto.
Qed.

Lemma X9_fallback_yields_a_dict_witness :
  ∃ d m, re_search_braces chatty_reply = Some m
    ∧ json_loads m = Ok (PDict d).
Proof.
  pose (st := {| session := new_session; page := [] |}).
  pose (v := match (get_gemini_response (Ok chatty_reply) st).1 with
             | Ok v => v
             | Raise _ => PNone
             end).
  destruct (X9_fallback_yields_a_dict chatty_reply st JSONDecodeError v st)
    as [[Hnone [e' He']]|(d & m & _ & Hm & Hd)].
  - vm_compute. reflexivity.
  - vm_compute. reflexivity.
  - vm_compute in He'. discriminate.
  - exists d, m. by split.
Defined.

(** ** Replies that are not a bill *)

Lemma upload_and_process_parsed inp st (text : string) v :
  uploaded_file inp = true → analyze_bill inp = true →
  generate_content inp = Ok text → try_extract (Ok text) = Ok v →
  upload_and_process inp st
  = match py_copy v with
    | Ok copy =>
        (Ok (),
         {| session :=
              set_edited_bill_data copy
                (set_original_bill_data v (session st));
            page := page st ++ [st_success "Bill processed successfully!"] |})
    | Raise e =>
        (Raise e, {| session := set_original_bill_data v (session st);
                     page := page st |})
    end.
Proof.
  intros Hup Han Hcall Hx. unfold upload_and_process.
  rewrite Hup, Han, Hcall. cbn [andb].
  rewrite M_bind_run, (get_gemini_response_ok _ _ _ Hx). run_M.
  destruct (py_copy v); run_M; reflexivity.
Qed.

(** X10.  A reply that parses, but not to a JSON object, gives no bill: for
    None, a number, a string or a boolean the Analyze handler stores the
    value as the original bill and raises AttributeError on its [copy],
    leaving the edited bill as it was; a list is copied and stored as the
    edited bill, and Step 3 of the same run raises TypeError on
    [['items']]. *)
Theorem X10_replies_that_are_not_objects inp s (text : string) v e :
  uploaded_file inp = true → analyze_bill inp = true →
  generate_content inp = Ok text → try_extract (Ok text) = Ok v →
  unusable_reply v = Some e →
  (run_main inp s).1 = Raise e
  ∧ original_bill_data (session (run_main inp s).2) = Some v
  ∧ edited_bill_data (session (run_main inp s).2)
    = match v with PList _ => Some v | _ => edited_bill_data s end.
Proof.
  intros Hup Han Hcall Hx Hbad.
  destruct (enter_names_run inp {| session := s; page := [] |})
    as (shown & ns & Hnames & _ & _).
  unfold run_main, main. rewrite (M_bind_ok _ _ _ _ _ Hnames).
  rewrite M_bind_run, (upload_and_process_parsed _ _ _ _ Hup Han Hcall Hx).
  destruct v as [|b|x|str|l|d]; cbn in Hbad; try done;
    injection Hbad as <-; cbn [py_copy fst snd session]; done.
Qed.

Lemma X10_replies_that_are_not_objects_witness :
  (run_main (press_analyze (Ok "[1, 2]")) new_session).1 = Raise TypeError
  ∧ (run_main (press_analyze (Ok "42")) new_session).1 = Raise AttributeError.
Proof.
  pose (parsed text := match try_extract (Ok text) with
                       | Ok v => v
                       | Raise _ => PNone
                       end).
  split.
  - apply (X10_replies_that_are_not_objects (press_analyze (Ok "[1, 2]"))
             new_session "[1, 2]" (parsed "[1, 2]") TypeError);
      vm_compute; reflexivity.
  - apply (X10_replies_that_are_not_objects (press_analyze (Ok "42"))
             new_session "42" (parsed "42") AttributeError);
      vm_compute; reflexivity.
Defined.



(** ** Step 3, run after run *)

(** The loop of lines 96-102 stops at the first item it cannot show. *)
Lemma edit_items_loop_raise inp rest : ∀ before d s pg e,
  edited_bill_data s = Some (PDict d) →
  dict_get d "items" = Some (PList (before ++ rest)) →
  edited_items inp (length before) rest = Raise e →
  (for_each_M (edit_item inp)
     (imap (λ i item, ((length before + i)%nat, item)) rest)
     {| session := s; page := pg |}).1
  = Raise e.
Proof.
  induction rest as [|item rest IH]; intros before d s pg e Hed Hit Hnew;
    [done|].
  cbn [edited_items] in Hnew. cbn [imap for_each_M]. rewrite M_bind_run.
  unfold edit_item at 1.
  destruct (getitem item "name" ≫= as_str) as [nm|e1] eqn:Hnm.
  2:{ run_M. cbn [mbind result_bind] in Hnew. congruence. }
  cbn [mbind result_bind] in Hnew. run_M.
  destruct (getitem item "price" ≫= py_float) as [pr|e1] eqn:Hpr.
  2:{ run_M. cbn [mbind result_bind] in Hnew. congruence. }
  cbn [mbind result_bind] in Hnew. run_M.
  destruct (edited_items inp (S (length before)) rest) as [its|e1] eqn:Hits;
    [done|].
  injection Hnew as ->.
  rewrite (set_edited_item_run _ _ d (before ++ item :: rest)) by done.
  rewrite insert_app_r, !Nat.add_0_r. cbn [insert list_insert].
  set (it := {| name := widget_value (item_name_input inp (length before)) nm;
                price := widget_value (item_price_input inp (length before)) pr |}).
  erewrite (imap_ext _ (λ i x, ((length (before ++ [item_dict it]) + i)%nat, x))).
  2:{ intros i x _. unfold compose. rewrite length_app. simpl.
      f_equal. lia. }
  apply (IH (before ++ [item_dict it])
            (dict_set d "items" (PList (before ++ item_dict it :: rest)))).
  - done.
  - by rewrite dict_get_set_eq, <- (assoc_L (++)).
  - rewrite length_app. simpl. by rewrite Nat.add_1_r.
Qed.

Lemma verify_and_edit_raise inp s pg ed e :
  edited_bill_data s = Some ed →
  edit_bill inp ed = Raise e →
  (verify_and_edit inp {| session := s; page := pg |}).1 = Raise e.
Proof.
  intros Hed Hedit. unfold edit_bill in Hedit. unfold verify_and_edit.
  run_M. rewrite Hed.
  destruct (getitem ed "items" ≫= elements_of) as [shown|e1] eqn:Hshown.
  2:{ run_M. cbn [mbind result_bind] in Hedit. congruence. }
  cbn [mbind result_bind] in Hedit. run_M.
  assert (∃ d, ed = PDict d) as [d ->].
  { destruct ed; try done. eauto. }
  destruct (edited_items inp 0 shown) as [its|e1] eqn:Hits.
  2:{ cbn [mbind result_bind] in Hedit. injection Hedit as ->.
      destruct shown as [|x shown]; [done|].
      cbn [getitem] in Hshown.
      destruct (dict_get d "items") as [o|] eqn:Ho; [|done].
      cbn [mbind result_bind] in Hshown.
      apply elements_of_nonempty in Hshown as ->.
      pose proof (edit_items_loop_raise inp (x :: shown) [] d s pg e Hed Ho
                    Hits) as Hloop.
      cbn [length Nat.add] in Hloop.
      destruct (for_each_M _ _ _) as [[[]|e2] st1]; cbn [fst] in *;
        [done|]. run_M. done. }
  cbn [mbind result_bind] in Hedit.
  set (d1 := match shown with
             | [] => d
             | _ :: _ => dict_set d "items" (PList (item_dict <$> its))
             end).
  assert (for_each_M (edit_item inp) (imap (λ i item, (i, item)) shown)
            {| session := s; page := pg |}
          = (Ok (), {| session := set_edited_bill_data (PDict d1) s;
                       page := pg |})) as Hloop.
  { unfold d1. destruct shown as [|x shown].
    - cbn [imap for_each_M]. run_M. by rewrite (set_edited_same _ _ Hed).
    - cbn [getitem] in Hshown.
      destruct (dict_get d "items") as [o|] eqn:Ho; [|done].
      cbn [mbind result_bind] in Hshown.
      apply elements_of_nonempty in Hshown as ->.
      exact (edit_items_loop inp (x :: shown) [] d s pg its Hed Ho Hits). }
  assert ((match shown with
           | [] => Ok (PDict d)
           | _ :: _ => setitem (PDict d) "items" (PList (item_dict <$> its))
           end) = Ok (PDict d1)) as Hd1 by by destruct shown.
  rewrite Hd1 in Hedit. cbn [mbind result_bind] in Hedit. clear Hd1.
  rewrite Hloop. run_M. rewrite edit_number_run.
  cbn [session page set_edited_bill_data edited_bill_data].
  destruct (getitem (PDict d1) "subtotal" ≫= py_float) as [sub|e1] eqn:Hsub.
  2:{ run_M. cbn [mbind result_bind] in Hedit. congruence. }
  cbn [mbind result_bind setitem] in Hedit. cbn [setitem]. run_M.
  set (a := widget_value (subtotal_input inp) sub) in *.
  rewrite edit_number_run.
  cbn [session page set_edited_bill_data edited_bill_data].
  destruct (getitem (PDict (dict_set d1 "subtotal" (PNum a))) "tax"
            ≫= py_float) as [tx|e1] eqn:Htx.
  2:{ run_M. cbn [mbind result_bind] in Hedit. congruence. }
  cbn [mbind result_bind setitem] in Hedit. cbn [setitem]. run_M.
  set (b := widget_value (tax_input inp) tx) in *.
  rewrite edit_number_run.
  cbn [session page set_edited_bill_data edited_bill_data].
  destruct (getitem
              (PDict (dict_set (dict_set d1 "subtotal" (PNum a)) "tax"
                        (PNum b))) "tip" ≫= py_float) as [tp|e1] eqn:Htp.
  2:{ run_M. cbn [mbind result_bind] in Hedit. congruence. }
  cbn [mbind result_bind setitem] in Hedit. done.
Qed.

Lemma widget_value_idem {A : Type} (typed : option A) (x : A) :
  widget_value typed (widget_value typed x) = widget_value typed x.
Proof. by destruct typed. Qed.


(** Showing the stored items again, with the same inputs, stores them
    again. *)
Lemma edited_items_again inp shown : ∀ i its,
  edited_items inp i shown = Ok its →
  edited_items inp i (item_dict <$> its) = Ok its.
Proof.
  induction shown as [|item rest IH]; intros i its Hits.
  - by injection Hits as <-.
  - cbn [edited_items] in Hits.
    destruct (getitem item "name" ≫= as_str) as [nm|] eqn:Hnm; [|done].
    cbn [mbind result_bind] in Hits.
    destruct (getitem item "price" ≫= py_float) as [pr|] eqn:Hpr; [|done].
    cbn [mbind result_bind] in Hits.
    destruct (edited_items inp (S i) rest) as [its'|] eqn:Hrest; [|done].
    injection Hits as <-.
    cbn [fmap list_fmap edited_items item_dict getitem dict_get name price].
    cbn [String.eqb Ascii.eqb Bool.eqb mbind result_bind as_str py_float].
    rewrite (IH _ _ Hrest). cbn [mbind result_bind mret result_ret].
    by rewrite !widget_value_idem.
Qed.

(** What a run of Step 3 that returns leaves in the bill. *)
Lemma edit_bill_ok_inv inp ed ed' :
  edit_bill inp ed = Ok ed' →
  ∃ d shown its sub tx tp,
    ed = PDict d
    ∧ getitem ed "items" ≫= elements_of = Ok shown
    ∧ edited_items inp 0 shown = Ok its
    ∧ let d1 := match shown with
                | [] => d
                | _ :: _ => dict_set d "items" (PList (item_dict <$> its))
                end in
      let a := widget_value (subtotal_input inp) sub in
      let b := widget_value (tax_input inp) tx in
      let c := widget_value (tip_input inp) tp in
      ed' = PDict (dict_set (dict_set (dict_set (dict_set d1
                     "subtotal" (PNum a)) "tax" (PNum b)) "tip" (PNum c))
                     "total" (PNum (a + b + c))).
Proof.
  intros Hedit. unfold edit_bill in Hedit.
  destruct (getitem ed "items" ≫= elements_of) as [shown|] eqn:Hshown;
    [|done].
  cbn [mbind result_bind] in Hedit.
  destruct (edited_items inp 0 shown) as [its|] eqn:Hits; [|done].
  cbn [mbind result_bind] in Hedit.
  assert (∃ d, ed = PDict d) as [d ->].
  { destruct ed; try done. eauto. }
  set (d1 := match shown with
             | [] => d
             | _ :: _ => dict_set d "items" (PList (item_dict <$> its))
             end).
  assert ((match shown with
           | [] => Ok (PDict d)
           | _ :: _ => setitem (PDict d) "items" (PList (item_dict <$> its))
           end) = Ok (PDict d1)) as Hd1 by by destruct shown.
  rewrite Hd1 in Hedit. cbn [mbind result_bind] in Hedit. clear Hd1.
  destruct (getitem (PDict d1) "subtotal" ≫= py_float) as [sub|] eqn:Hsub;
    [|done].
  cbn [mbind result_bind setitem] in Hedit.
  destruct (getitem (PDict (dict_set d1 "subtotal" _)) "tax"
            ≫= py_float) as [tx|] eqn:Htx; [|done].
  cbn [mbind result_bind setitem] in Hedit.
  destruct (getitem (PDict (dict_set (dict_set d1 "subtotal" _) "tax" _))
              "tip" ≫= py_float) as [tp|] eqn:Htp; [|done].
  cbn [mbind result_bind setitem] in Hedit.
  injection Hedit as <-.
  by exists d, shown, its, sub, tx, tp.
Qed.

Lemma edit_bill_again inp ed ed' :
  edit_bill inp ed = Ok ed' → edit_bill inp ed' = Ok ed'.
Proof.
  intros Hedit.
  destruct (edit_bill_ok_inv _ _ _ Hedit)
    as (d & shown & its & sub & tx & tp & -> & Hshown & Hits & Hd').
  cbn zeta in Hd'.
  set (d1 := match shown with
             | [] => d
             | _ :: _ => dict_set d "items" (PList (item_dict <$> its))
             end) in *.
  set (a := widget_value (subtotal_input inp) sub) in *.
  set (b := widget_value (tax_input inp) tx) in *.
  set (c := widget_value (tip_input inp) tp) in *.
  set (d' := dict_set _ "total" _) in Hd'. subst ed'.
  assert (dict_get d' "subtotal" = Some (PNum a)) as Ha.
  { unfold d'. by rewrite !(dict_get_set_ne _ _ "subtotal") by done;
      rewrite dict_get_set_eq. }
  assert (dict_get d' "tax" = Some (PNum b)) as Hb.
  { unfold d'. by rewrite !(dict_get_set_ne _ _ "tax") by done;
      rewrite dict_get_set_eq. }
  assert (dict_get d' "tip" = Some (PNum c)) as Hc.
  { unfold d'. by rewrite !(dict_get_set_ne _ _ "tip") by done;
      rewrite dict_get_set_eq. }
  assert (dict_get d' "total" = Some (PNum (a + b + c))) as Ht.
  { unfold d'. by rewrite dict_get_set_eq. }
  assert (dict_get d' "items" = dict_get d1 "items") as Hi.
  { unfold d'. by rewrite !(dict_get_set_ne _ _ "items") by done. }
  assert (∃ shown', getitem (PDict d') "items" ≫= elements_of = Ok shown'
            ∧ edited_items inp 0 shown' = Ok (match shown with
                                              | [] => []
                                              | _ :: _ => its
                                              end)
            ∧ (shown' ≠ [] →
               dict_get d' "items" = Some (PList shown')
               ∧ shown' = item_dict <$> its
               ∧ shown ≠ []))
    as (shown' & Hshown' & Hits' & Hne).
  { cbn [getitem]. rewrite Hi. unfold d1. destruct shown as [|x shown].
    - exists []. split; [exact Hshown|]. done.
    - rewrite dict_get_set_eq. cbn [mbind result_bind elements_of].
      exists (item_dict <$> its). split; [done|].
      split; [by apply (edited_items_again _ (x :: shown))|]. done. }
  unfold edit_bill. rewrite Hshown'. cbn [mbind result_bind].
  rewrite Hits'. cbn [mbind result_bind].
  assert ((match shown' with
           | [] => Ok (PDict d')
           | _ :: _ =>
               setitem (PDict d') "items"
                 (PList (item_dict <$> match shown with
                                       | [] => []
                                       | _ :: _ => its
                                       end))
           end) = Ok (PDict d')) as ->.
  { destruct shown' as [|y shown']; [done|].
    destruct Hne as (Hget & Heq & Hs); [done|].
    destruct shown as [|x shown]; [done|].
    cbn [setitem]. rewrite <- Heq. by rewrite (dict_set_id _ _ _ Hget). }
  assert (widget_value (subtotal_input inp) a = a) as Ea
    by apply widget_value_idem.
  assert (widget_value (tax_input inp) b = b) as Eb
    by apply widget_value_idem.
  assert (widget_value (tip_input inp) c = c) as Ec
    by apply widget_value_idem.
  cbn [mbind result_bind getitem]. rewrite Ha.
  cbn [mbind result_bind py_float setitem].
  rewrite !Ea, !(dict_set_id _ _ _ Ha).
  cbn [mbind result_bind getitem]. rewrite Hb.
  cbn [mbind result_bind py_float setitem].
  rewrite !Eb, !(dict_set_id _ _ _ Hb).
  cbn [mbind result_bind getitem]. rewrite Hc.
  cbn [mbind result_bind py_float setitem].
  rewrite !Ec, !(dict_set_id _ _ _ Hc).
  by rewrite (dict_set_id _ _ _ Ht).
Qed.

Lemma verify_and_edit_ok_inv inp s pg ed :
  edited_bill_data s = Some ed →
  (verify_and_edit inp {| session := s; page := pg |}).1 = Ok () →
  ∃ ed' t,
    edit_bill inp ed = Ok ed'
    ∧ verify_and_edit inp {| session := s; page := pg |}
      = (Ok (), {| session := set_edited_bill_data ed' s;
                   page := pg ++ [st_write_total t] |}).
Proof.
  intros Hed Hok. destruct (edit_bill inp ed) as [ed'|e] eqn:Hedit.
  - destruct (verify_and_edit_run inp s pg ed ed' Hed Hedit) as (t & Hrun & _).
    by exists ed', t.
  - rewrite (verify_and_edit_raise inp s pg ed e Hed Hedit) in Hok. done.
Qed.

(** X12.  Step 3 is idempotent: after a run of Step 3 that returns, running
    it again with the same widget inputs returns too, leaves the session as
    it is and shows the same total. *)
Theorem X12_step3_again_changes_nothing inp s pg ed :
  edited_bill_data s = Some ed →
  (verify_and_edit inp {| session := s; page := pg |}).1 = Ok () →
  let st1 := (verify_and_edit inp {| session := s; page := pg |}).2 in
  ∀ pg', ∃ t,
    page st1 = pg ++ [st_write_total t]
    ∧ verify_and_edit inp {| session := session st1; page := pg' |}
      = (Ok (), {| session := session st1;
                   page := pg' ++ [st_write_total t] |}).
Proof.
  intros Hed Hok st1 pg'.
  destruct (verify_and_edit_ok_inv inp s pg ed Hed Hok)
    as (ed' & t & Hedit & Hrun).
  unfold st1. rewrite Hrun. cbn [snd session page].
  destruct (verify_and_edit_run inp s pg ed ed' Hed Hedit) as (t0 & Hrun0 & Ht0).
  assert (t0 = t) as -> by (rewrite Hrun in Hrun0; by simplify_list_eq).
  destruct (verify_and_edit_run inp (set_edited_bill_data ed' s) pg' ed' ed')
    as (t' & Hrun' & Ht'); [done|by apply (edit_bill_again _ ed)|].
  assert (t' = t) as -> by congruence.
  exists t. split; [done|]. by rewrite Hrun'.
Qed.

Lemma X12_step3_again_changes_nothing_witness :
  let s := set_edited_bill_data stale_total_bill new_session in
  let st1 := (verify_and_edit edit_ten_one_two {| session := s; page := [] |}).2 in
  ∃ t, page st1 = [st_write_total t]
    ∧ verify_and_edit edit_ten_one_two {| session := session st1; page := [] |}
      = (Ok (), {| session := session st1; page := [st_write_total t] |}).
Proof.
  intros s st1.
  apply (X12_step3_again_changes_nothing edit_ten_one_two s []
           stale_total_bill); [reflexivity|vm_compute; reflexivity].
Defined.



(** ** Step 4, checkbox by checkbox *)

Lemma py_remove_elem_of z x l : z ∈ py_remove x l → z ∈ l.
Proof.
  induction l as [|y r IH]; simpl; [done|].
  destruct (String.eqb y x); [by right|].
  rewrite !elem_of_cons. intros [->|H]; [by left|right; by apply IH].
Qed.

Lemma py_remove_NoDup x l : NoDup l → NoDup (py_remove x l) ∧ x ∉ py_remove x l.
Proof.
  induction 1 as [|y r Hy Hr IH]; simpl; [split; [constructor|by intros ?%elem_of_nil]|].
  destruct (String.eqb_spec y x) as [->|Hne]; [done|].
  destruct IH as [IH1 IH2]. split.
  - constructor; [|done]. intros H. by apply Hy, (py_remove_elem_of _ x).
  - rewrite elem_of_cons. intros [->|H]; [done|by apply IH2].
Qed.

Lemma toggled_NoDup p c l : NoDup l → NoDup (toggled p c l).
Proof.
  intros Hl. unfold toggled. destruct c.
  - destruct (py_in p l) eqn:Hp; [done|].
    apply list.NoDup_app. split; [done|]. split; [|apply NoDup_singleton].
    intros x Hx ->%list_elem_of_singleton.
    apply py_in_elem_of in Hx. congruence.
  - by apply py_remove_NoDup.
Qed.

Lemma toggled_same p c l : NoDup l → p ∈ toggled p c l ↔ c = true.
Proof.
  intros Hl. unfold toggled. destruct c.
  - split; [done|intros _].
    destruct (py_in p l) eqn:Hp; [by apply py_in_elem_of|].
    apply elem_of_app. right. by apply list_elem_of_singleton.
  - split; [|done]. intros H. by apply (py_remove_NoDup p l Hl) in H.
Qed.

Lemma toggled_other p q c l : p ≠ q → p ∈ toggled q c l ↔ p ∈ l.
Proof.
  intros Hne. rewrite <- !py_in_elem_of. by rewrite py_in_toggled_other.
Qed.

Lemma toggle_distinct i p c al al' :
  toggle i p c al = Ok al' → distinct_sharers al → distinct_sharers al'.
Proof.
  rewrite toggle_eq. destruct (al !! i) as [l|] eqn:Hl; [|done].
  intros [= <-] Hd k l'. destruct (decide (k = i)) as [->|Hne].
  - rewrite lookup_insert_eq. intros [= <-]. apply toggled_NoDup. by eapply Hd.
  - rewrite lookup_insert_ne by done. apply Hd.
Qed.

Lemma toggle_keeps_mirror inp i p i' p' al al' :
  distinct_sharers al → mirrors inp al i p →
  toggle i' p' (checkbox inp (checkbox_key i' p')) al = Ok al' →
  mirrors inp al' i p.
Proof.
  intros Hd Hm. rewrite toggle_eq.
  destruct (al !! i') as [l|] eqn:Hl; [|done]. intros [= <-].
  unfold mirrors in *. destruct (decide (i' = i)) as [->|Hi].
  - rewrite lookup_insert_eq. cbn [from_option id]. rewrite Hl in Hm. cbn in Hm.
    destruct (decide (p' = p)) as [->|Hp].
    + apply toggled_same. by eapply Hd.
    + by rewrite toggled_other.
  - by rewrite lookup_insert_ne.
Qed.

Lemma toggle_sets_mirror inp i p al al' :
  distinct_sharers al →
  toggle i p (checkbox inp (checkbox_key i p)) al = Ok al' →
  mirrors inp al' i p.
Proof.
  intros Hd. rewrite toggle_eq.
  destruct (al !! i) as [l|] eqn:Hl; [|done]. intros [= <-].
  unfold mirrors. rewrite lookup_insert_eq. cbn [from_option id].
  apply toggled_same. by eapply Hd.
Qed.

Lemma toggle_keeps_others i q c al al' p k :
  p ≠ q → toggle i q c al = Ok al' →
  p ∈ default [] (al' !! k) ↔ p ∈ default [] (al !! k).
Proof.
  intros Hne. rewrite toggle_eq.
  destruct (al !! i) as [l|] eqn:Hl; [|done]. intros [= <-].
  destruct (decide (i = k)) as [->|Hi].
  - rewrite lookup_insert_eq, Hl. cbn [from_option id]. by apply toggled_other.
  - by rewrite lookup_insert_ne.
Qed.

Lemma for_each_M_session {A : Type} (P : Session → Prop) (body : A → M unit)
    l :
  (∀ x st, x ∈ l → P (session st) → P (session (body x st).2)) →
  ∀ st, P (session st) → P (session (for_each_M body l st).2).
Proof.
  induction l as [|x l IH]; intros Hb st HP; cbn [for_each_M].
  - by run_M.
  - rewrite M_bind_run.
    pose proof (Hb x st (list_elem_of_here _ _) HP) as H1.
    destruct (body x st) as [[[]|e] st1]; cbn [snd] in *; [|done].
    apply IH; [|done]. intros y st' Hy. apply Hb. by right.
Qed.

Lemma for_each_M_app {A : Type} (body : A → M unit) l1 l2 st :
  for_each_M body (l1 ++ l2) st
  = match for_each_M body l1 st with
    | (Ok _, st1) => for_each_M body l2 st1
    | (Raise e, st1) => (Raise e, st1)
    end.
Proof.
  revert st. induction l1 as [|x l1 IH]; intros st; cbn [app for_each_M].
  - by run_M.
  - rewrite !M_bind_run. destruct (body x st) as [[[]|e] st1]; [|done].
    apply IH.
Qed.

Lemma on_allocations_session (P : gmap string (list string) → Prop) f st :
  (∀ al al', P al → f al = Ok al' → P al') →
  with_allocations P (session st) →
  with_allocations P (session (on_allocations f st).2).
Proof.
  intros Hf (al & Hal & HP). destruct st as [s pg].
  rewrite (on_allocations_run _ _ _ _ Hal).
  destruct (f al) as [al'|e] eqn:Hfal; cbn [snd session].
  - exists al'. split; [done|]. by eapply Hf.
  - by exists al.
Qed.

Section step4.
Context (inp : Inputs) (ns : list string).

Lemma toggle_row_session (P : gmap string (list string) → Prop) item st :
  (∀ p al al', p ∈ ns → P al →
     toggle (name item) p (checkbox inp (checkbox_key (name item) p)) al
     = Ok al' → P al') →
  with_allocations P (session st) →
  with_allocations P
    (session (for_each_M (λ person,
                on_allocations
                  (toggle (name item) person
                     (checkbox inp (checkbox_key (name item) person)))) ns
                st).2).
Proof.
  intros Hf. apply (for_each_M_session (with_allocations P)).
  intros p st' Hp. apply on_allocations_session. intros al al'. by apply Hf.
Qed.

Lemma toggle_rows_session (P : gmap string (list string) → Prop) its st :
  (∀ it p al al', it ∈ its → p ∈ ns → P al →
     toggle (name it) p (checkbox inp (checkbox_key (name it) p)) al
     = Ok al' → P al') →
  with_allocations P (session st) →
  with_allocations P (session (toggle_rows inp ns its st).2).
Proof.
  intros Hf. apply (for_each_M_session (with_allocations P)).
  intros it st' Hit. apply toggle_row_session. intros p al al'.
  by apply Hf.
Qed.

Lemma toggle_row_mirror item p st st' :
  p ∈ ns → with_allocations distinct_sharers (session st) →
  for_each_M (λ person,
    on_allocations
      (toggle (name item) person
         (checkbox inp (checkbox_key (name item) person)))) ns st
  = (Ok (), st') →
  with_allocations
    (λ al, distinct_sharers al ∧ mirrors inp al (name item) p) (session st').
Proof.
  intros Hp Hd Hrun.
  revert st Hd Hrun.
  assert (∀ seen st,
    with_allocations
      (λ al, distinct_sharers al
             ∧ (p ∈ seen → mirrors inp al (name item) p)) (session st) →
    ∀ todo, for_each_M (λ person,
      on_allocations
        (toggle (name item) person
           (checkbox inp (checkbox_key (name item) person)))) todo st
      = (Ok (), st') →
    with_allocations
      (λ al, distinct_sharers al
             ∧ (p ∈ seen ++ todo → mirrors inp al (name item) p))
      (session st')) as Hgen.
  { intros seen st Hst todo. revert seen st Hst.
    induction todo as [|q todo IH]; intros seen st Hst Hrun.
    - cbn [for_each_M] in Hrun. rewrite M_ret_run in Hrun.
      injection Hrun as <-. by rewrite app_nil_r.
    - cbn [for_each_M] in Hrun. rewrite M_bind_run in Hrun.
      destruct Hst as (al & Hal & Hd & Hm). destruct st as [s pg].
      rewrite (on_allocations_run _ _ _ _ Hal) in Hrun.
      destruct (toggle (name item) q _ al) as [al1|e] eqn:Ht; [|done].
      rewrite (cons_middle q seen todo), (assoc_L (++)).
      eapply (IH (seen ++ [q])); [|exact Hrun].
      exists al1. split; [done|]. split; [by eapply toggle_distinct|].
      intros Hin. destruct (decide (q = p)) as [->|Hne].
      + by eapply toggle_sets_mirror.
      + eapply toggle_keeps_mirror; [done| |done].
        apply Hm. apply elem_of_app in Hin as [Hin|Hin]; [done|].
        apply list_elem_of_singleton in Hin. congruence. }
  intros st (al & Hal & Hd) Hrun.
  destruct (Hgen [] st) with (todo := ns) as (al' & Hal' & Hd' & Hm');
    [|done|].
  - exists al. split; [done|]. split; [done|]. by intros ?%elem_of_nil.
  - exists al'. split; [done|]. split; [done|]. by apply Hm'.
Qed.

Lemma toggle_rows_mirror its it p st st' :
  it ∈ its → p ∈ ns → with_allocations distinct_sharers (session st) →
  toggle_rows inp ns its st = (Ok (), st') →
  with_allocations
    (λ al, distinct_sharers al ∧ mirrors inp al (name it) p) (session st').
Proof.
  intros Hit Hp Hd Hrun.
  apply list_elem_of_split in Hit as (pre & post & ->).
  unfold toggle_rows in Hrun. rewrite for_each_M_app in Hrun.
  pose proof (toggle_rows_session distinct_sharers pre st) as H1.
  unfold toggle_rows in H1.
  destruct (for_each_M _ pre st) as [[[]|e] st1]; [|done].
  cbn [snd] in H1. cbn [for_each_M] in Hrun. rewrite M_bind_run in Hrun.
  destruct (for_each_M _ ns st1) as [[[]|e] st2] eqn:Hrow; [|done].
  apply (toggle_row_mirror it p) in Hrow; [|done|].
  2:{ apply H1; [|done]. intros ? ? ? ? _ _ ? ?. by eapply toggle_distinct. }
  pose proof (toggle_rows_session
                (λ al, distinct_sharers al ∧ mirrors inp al (name it) p)
                post st2) as H3.
  unfold toggle_rows in H3. rewrite Hrun in H3. apply H3; [|done].
  intros it' q al al' _ _ [Hd' Hm'] Ht.
  split; [by eapply toggle_distinct|by eapply toggle_keeps_mirror].
Qed.
End step4.

Lemma init_allocations_distinct its : distinct_sharers (init_allocations its).
Proof.
  intros k l Hl. apply init_allocations_empty in Hl as ->. constructor.
Qed.

Lemma elem_of_sharers_of al k p :
  p ∈ sharers_of al k ↔ p ∈ default [] (al !! k).
Proof. unfold sharers_of. by rewrite elem_of_list_to_set. Qed.

(** Step 4 keeps every list of sharers free of duplicates, also when it
    raises. *)
Lemma allocate_items_distinct inp st :
  sharers_distinct (session st) →
  sharers_distinct (session (allocate_items inp st).2).
Proof.
  intros Hd. destruct st as [s pg].
  destruct (edited_bill_data s) as [ed|] eqn:Hed.
  2:{ unfold allocate_items. run_M. by rewrite Hed. }
  destruct (names s) as [ns|] eqn:Hns.
  2:{ unfold allocate_items. run_M. by rewrite Hed, Hns. }
  destruct (read_items ed) as [its|e] eqn:Hits.
  2:{ unfold allocate_items. run_M. rewrite Hed, Hns, Hits. by run_M. }
  rewrite (allocate_items_run _ _ _ _ _ _ Hed Hns Hits).
  set (s0 := match allocations s with
             | Some _ => s
             | None => set_allocations (init_allocations its) s
             end).
  assert (with_allocations distinct_sharers s0) as H0.
  { unfold s0. destruct (allocations s) as [al|] eqn:Hal.
    - exists al. split; [done|]. by apply Hd.
    - eexists. split; [done|]. apply init_allocations_distinct. }
  pose proof (toggle_rows_session inp ns distinct_sharers its
                {| session := s0; page := pg |}) as H1.
  destruct H1 as (al' & Hal' & Hd'); [|done|].
  { intros ? ? ? ? _ _ ? ?. by eapply toggle_distinct. }
  intros al Hal. rewrite Hal' in Hal. by injection Hal as <-.
Qed.

(** X14.  Step 4 makes the allocations mirror the checkboxes.  When the
    lists of sharers hold no name twice and Step 4 returns, then for every
    item of the bill and every participant the participant is a sharer of
    the item exactly when the checkbox of the two is ticked; a sharer who is
    not a participant any more is neither added nor removed; and the lists
    still hold no name twice. *)
Theorem X14_sharers_mirror_the_checkboxes inp s pg ed ns its :
  edited_bill_data s = Some ed → names s = Some ns →
  read_items ed = Ok its → sharers_distinct s →
  (allocate_items inp {| session := s; page := pg |}).1 = Ok () →
  ∃ al',
    allocations (session (allocate_items inp {| session := s; page := pg |}).2)
    = Some al'
    ∧ (∀ it p, it ∈ its → p ∈ ns →
         p ∈ sharers_of al' (name it)
         ↔ checkbox inp (checkbox_key (name it) p) = true)
    ∧ (∀ k p, p ∉ ns →
         p ∈ sharers_of al' k ↔ p ∈ sharers_of (default ∅ (allocations s)) k)
    ∧ distinct_sharers al'.
Proof.
  intros Hed Hns Hits Hd Hok.
  rewrite (allocate_items_run _ _ _ _ _ _ Hed Hns Hits) in Hok |- *.
  set (s0 := match allocations s with
             | Some _ => s
             | None => set_allocations (init_allocations its) s
             end) in *.
  set (al0 := default (init_allocations its) (allocations s)).
  assert (allocations s0 = Some al0 ∧ distinct_sharers al0) as [Hal0 Hd0].
  { unfold s0, al0. destruct (allocations s) as [al|] eqn:Hal; cbn.
    - split; [done|]. by apply Hd.
    - split; [done|]. apply init_allocations_distinct. }
  assert (∀ k p, p ∈ sharers_of al0 k
                 ↔ p ∈ sharers_of (default ∅ (allocations s)) k) as Hsame.
  { intros k p. unfold al0. destruct (allocations s) as [al|]; cbn; [done|].
    rewrite !elem_of_sharers_of, lookup_empty. cbn.
    destruct (init_allocations its !! k) as [l|] eqn:Hl; cbn; [|done].
    by apply init_allocations_empty in Hl as ->. }
  destruct (toggle_rows inp ns its {| session := s0; page := pg |})
    as [[[]|e] st'] eqn:Hrun; [|done]. cbn [snd].
  destruct (toggle_rows_session inp ns distinct_sharers its
              {| session := s0; page := pg |}) as (al' & Hal' & Hd').
  { intros ? ? ? ? _ _ ? ?. by eapply toggle_distinct. }
  { by exists al0. }
  rewrite Hrun in Hal'. cbn [snd] in Hal'.
  exists al'. split; [done|]. split; [|split; [|done]].
  - intros it p Hit Hp.
    destruct (toggle_rows_mirror inp ns its it p
                {| session := s0; page := pg |} st' Hit Hp)
      as (al1 & Hal1 & _ & Hm); [by exists al0|done|].
    rewrite Hal' in Hal1. injection Hal1 as <-.
    by rewrite elem_of_sharers_of.
  - intros k p Hp. rewrite <- Hsame.
    destruct (toggle_rows_session inp ns
                (λ al, ∀ k, p ∈ sharers_of al k ↔ p ∈ sharers_of al0 k) its
                {| session := s0; page := pg |}) as (al1 & Hal1 & Hkeep).
    { intros it q al al1 _ Hq Hal Ht k'.
      rewrite <- Hal, !elem_of_sharers_of.
      eapply toggle_keeps_others; [|done]. by intros ->. }
    { by exists al0. }
    rewrite Hrun in Hal1. cbn [snd] in Hal1.
    rewrite Hal' in Hal1. injection Hal1 as <-. apply Hkeep.
Qed.

Lemma X14_sharers_mirror_the_checkboxes_witness :
  ∃ al',
    allocations
      (session (allocate_items tick_pizza_alice
                  {| session := pizza_session; page := [] |}).2) = Some al'
    ∧ "Alice" ∈ sharers_of al' "Pizza"
    ∧ "Bob" ∉ sharers_of al' "Pizza".
Proof.
  destruct (X14_sharers_mirror_the_checkboxes tick_pizza_alice pizza_session
              [] one_pizza ["Alice"; "Bob"]
              [{| name := "Pizza"; price := qc 20 1 |}])
    as (al' & Hal' & Hm & _ & _).
  - reflexivity.
  - reflexivity.
  - reflexivity.
  - intros al [= <-] k l [_ <-]%lookup_singleton_Some. constructor.
  - vm_compute. reflexivity.
  - exists al'. split; [exact Hal'|]. split.
    + apply (Hm {| name := "Pizza"; price := qc 20 1 |} "Alice");
        [by left|by left|reflexivity].
    + intros H.
      apply (Hm {| name := "Pizza"; price := qc 20 1 |} "Bob") in H;
        [discriminate H|by left|by right; left].
Defined.

Lemma keeps_allocations_distinct {A : Type} (m : M A) st :
  keeps allocations m →
  sharers_distinct (session st) → sharers_distinct (session (m st).2).
Proof. intros Hm Hd al. rewrite Hm. apply Hd. Qed.

Lemma main_distinct inp st :
  sharers_distinct (session st) → sharers_distinct (session (main inp st).2).
Proof.
  intros H0. unfold main.
  pose proof (keeps_allocations_distinct _ st
                (enter_names_keeps_allocations inp) H0) as H1.
  rewrite M_bind_run.
  destruct (enter_names inp st) as [[[]|e] st1]; cbn [snd] in *; [|done].
  pose proof (keeps_allocations_distinct _ st1
                (upload_and_process_keeps_allocations inp) H1) as H2.
  rewrite M_bind_run.
  destruct (upload_and_process inp st1) as [[[]|e] st2]; cbn [snd] in *;
    [|done].
  pose proof (keeps_allocations_distinct _ st2
                (verify_and_edit_keeps_allocations inp) H2) as H3.
  rewrite M_bind_run.
  destruct (verify_and_edit inp st2) as [[[]|e] st3]; cbn [snd] in *;
    [|done].
  pose proof (allocate_items_distinct inp st3 H3) as H4.
  rewrite M_bind_run.
  destruct (allocate_items inp st3) as [[[]|e] st4]; cbn [snd] in *;
    [|done].
  apply (keeps_allocations_distinct _ st4); [apply calculate_keeps|done].
Qed.

(** X15.  No run of the script lists a participant twice under an item:
    a run keeps the lists of sharers free of duplicates, whether it returns
    or raises, so they are free of duplicates in every session reached from
    a new one. *)
Theorem X15_no_sharer_is_listed_twice :
  (∀ inp s, sharers_distinct s → sharers_distinct (session (run_main inp s).2))
  ∧ (∀ inps al k l,
       allocations (run_all inps new_session) = Some al →
       al !! k = Some l → NoDup l).
Proof.
  split.
  - intros inp s. apply (main_distinct inp {| session := s; page := [] |}).
  - intros inps.
    assert (∀ s, sharers_distinct s → sharers_distinct (run_all inps s))
      as Hall.
    { induction inps as [|inp inps IH]; intros s Hs; [done|].
      cbn [run_all foldl]. apply IH.
      by apply (main_distinct inp {| session := s; page := [] |}). }
    intros al k l Hal Hl.
    eapply (Hall new_session); [by intros al'|exact Hal|exact Hl].
Qed.

(** ** Step 5 and the session *)

Lemma calculate_page inp st :
  ∃ shown, page (calculate inp st).2 = page st ++ shown.
Proof.
  unfold calculate.
  destruct (calculate_split_button inp);
    [|exists []; by rewrite app_nil_r]. run_M.
  destruct (allocations (session st)) as [al|];
    [|exists []; by rewrite app_nil_r].
  destruct (edited_bill_data (session st)) as [ed|];
    [|exists []; by rewrite app_nil_r].
  destruct (names (session st)) as [ns|]; run_M;
    [|exists []; by rewrite app_nil_r].
  destruct (read_bill ed) as [bill|e]; run_M;
    [|exists []; by rewrite app_nil_r].
  destruct (individual_costs ns (items bill) al) as [costs|e]; run_M;
    [|exists []; by rewrite app_nil_r].
  destruct (final_costs ns bill costs) as [fin|e]; run_M; cbn [snd page];
    rewrite <- ?(assoc_L (++)); by eexists.
Qed.

(** X16.  Pressing Calculate Split only reads the session and writes on the
    page: the run leaves the session that the same interaction without the
    press leaves, its page starts with the page of that run, and it raises
    whatever that run raises. *)
Theorem X16_calculate_only_reads inp s :
  session (run_main inp s).2 = session (run_main (without_calculate inp) s).2
  ∧ (∃ shown, page (run_main inp s).2
              = page (run_main (without_calculate inp) s).2 ++ shown)
  ∧ (∀ e, (run_main (without_calculate inp) s).1 = Raise e →
          (run_main inp s).1 = Raise e).
Proof.
  unfold run_main, main.
  change (enter_names (without_calculate inp)) with (enter_names inp).
  change (upload_and_process (without_calculate inp))
    with (upload_and_process inp).
  change (verify_and_edit (without_calculate inp)) with (verify_and_edit inp).
  change (allocate_items (without_calculate inp)) with (allocate_items inp).
  change (calculate (without_calculate inp)) with (mret () : M unit).
  rewrite !(M_bind_run (enter_names inp)).
  destruct (enter_names inp _) as [[[]|e1] st1];
    [|by split; [|split; [exists []; rewrite app_nil_r|]]].
  rewrite !(M_bind_run (upload_and_process inp)).
  destruct (upload_and_process inp st1) as [[[]|e2] st2];
    [|by split; [|split; [exists []; rewrite app_nil_r|]]].
  rewrite !(M_bind_run (verify_and_edit inp)).
  destruct (verify_and_edit inp st2) as [[[]|e3] st3];
    [|by split; [|split; [exists []; rewrite app_nil_r|]]].
  rewrite !(M_bind_run (allocate_items inp)).
  destruct (allocate_items inp st3) as [[[]|e4] st4];
    [|by split; [|split; [exists []; rewrite app_nil_r|]]].
  rewrite M_ret_run. cbn [fst snd].
  split; [apply (calculate_keeps id)|]. split; [apply calculate_page|done].
Qed.

(** ** Exceptions that leave a run *)

Section unhandled_only.
Lemma uo_raise {A : Type} e : handled e = false → unhandled_only (@Raise A e).
Proof. by intros He e' [= <-]. Qed.

Lemma uo_ok {A : Type} (a : A) : unhandled_only (Ok a).
Proof. by intros e. Qed.

Lemma uo_bind {A C : Type} (r : result A) (k : A → result C) :
  unhandled_only r → (∀ a, unhandled_only (k a)) → unhandled_only (r ≫= k).
Proof.
  destruct r as [a|e].
  - intros _ Hk. apply Hk.
  - intros Hr _ e' [= <-]. by apply Hr.
Qed.

Lemma uo_mapM {A C : Type} (f : A → result C) l :
  (∀ x, unhandled_only (f x)) → unhandled_only (mapM f l).
Proof.
  intros Hf. induction l as [|x l IH]; [apply uo_ok|].
  cbn [mapM]. apply uo_bind; [apply Hf|]. intros y.
  apply uo_bind; [apply IH|]. intros ys. apply uo_ok.
Qed.

Lemma uo_getitem o k : unhandled_only (getitem o k).
Proof.
  destruct o; try by apply uo_raise. simpl.
  destruct (dict_get _ _); [apply uo_ok|by apply uo_raise].
Qed.

Lemma uo_setitem o k v : unhandled_only (setitem o k v).
Proof. destruct o; by (apply uo_raise || apply uo_ok). Qed.

Lemma uo_as_str o : unhandled_only (as_str o).
Proof. destruct o; by (apply uo_raise || apply uo_ok). Qed.

Lemma uo_as_num o : unhandled_only (as_num o).
Proof. destruct o; by (apply uo_raise || apply uo_ok). Qed.

Lemma uo_py_float o : unhandled_only (py_float o).
Proof.
  destruct o; try by (apply uo_raise || apply uo_ok). simpl.
  destruct (number_of_word _); by (apply uo_raise || apply uo_ok).
Qed.

Lemma uo_elements_of o : unhandled_only (elements_of o).
Proof.
  destruct o as [| | |[|??]| |[|??]]; by (apply uo_raise || apply uo_ok).
Qed.

Lemma uo_py_copy o : unhandled_only (py_copy o).
Proof. destruct o; by (apply uo_raise || apply uo_ok). Qed.

Lemma uo_read_items ed : unhandled_only (read_items ed).
Proof.
  unfold read_items.
  apply uo_bind; [apply uo_bind; [apply uo_getitem|apply uo_elements_of]|].
  intros its. apply uo_mapM. intros o. unfold read_item.
  apply uo_bind; [apply uo_bind; [apply uo_getitem|apply uo_as_str]|].
  intros n.
  apply uo_bind; [apply uo_bind; [apply uo_getitem|apply uo_as_num]|].
  intros p. apply uo_ok.
Qed.

Lemma uo_read_bill ed : unhandled_only (read_bill ed).
Proof.
  unfold read_bill. apply uo_bind; [apply uo_read_items|]. intros its.
  do 4 (apply uo_bind;
          [apply uo_bind; [apply uo_getitem|apply uo_as_num]|intros ?]).
  apply uo_ok.
Qed.

Lemma uo_toggle i p c al : unhandled_only (toggle i p c al).
Proof.
  rewrite toggle_eq. destruct (al !! i); by (apply uo_raise || apply uo_ok).
Qed.

Lemma uo_individual_costs ns its al :
  unhandled_only (individual_costs ns its al).
Proof. intros e H. by apply individual_costs_raise in H as [k ->]. Qed.

Lemma uo_final_costs ns bill costs : unhandled_only (final_costs ns bill costs).
Proof. destruct ns; by (apply uo_raise || apply uo_ok). Qed.
End unhandled_only.

Lemma raises_only_lift_uo {A : Type} (r : result A) :
  unhandled_only r → raises_only (λ e, handled e = false) (lift r).
Proof. intros Hr. by apply raises_only_lift. Qed.

Ltac unhandled :=
  handler_steps;
  repeat first
    [ apply raises_only_raise; reflexivity
    | apply raises_only_lift_uo;
      first [ apply uo_bind; [apply uo_getitem|intros ?]
            | apply uo_getitem | apply uo_setitem | apply uo_py_copy
            | apply uo_read_items | apply uo_read_bill | apply uo_toggle
            | apply uo_individual_costs | apply uo_final_costs ];
      first [ apply uo_as_str | apply uo_as_num | apply uo_py_float
            | apply uo_elements_of | idtac ]
    | progress handler_steps ].

(** X17.  The exceptions that [get_gemini_response] handles stay inside it:
    no run of the script raises the parser's JSONDecodeError or the
    exception of the outbound call, whatever the reply, the inputs and the
    session. *)
Theorem X17_handled_exceptions_stay_inside inp s :
  (run_main inp s).1 ≠ Raise JSONDecodeError
  ∧ (run_main inp s).1 ≠ Raise CallError.
Proof.
  assert (raises_only (λ e, handled e = false) (main inp)) as Hmain.
  { unfold main, enter_names, upload_and_process, get_gemini_response,
      verify_and_edit, edit_item, edit_number, recalculate_total,
      set_edited_item, set_edited, edited, allocate_items, on_allocations,
      calculate.
    unhandled. }
  split; intros He; by apply Hmain in He.
Qed.

(** ** A run, end to end *)

Lemma allocate_items_keeps_bill inp :
  keeps edited_bill_data (allocate_items inp).
Proof. unfold allocate_items, on_allocations. frame. Qed.

(** X18.  A run with Calculate Split pressed, end to end.  When the run
    returns, either the session has no allocations or no bill, and Step 5
    wrote nothing, or the page ends with the table of the individual costs,
    the total and the table of the final costs, which are those of
    [calculate_split] on the names, the bill and the allocations that the
    run leaves in the session; the total shown is the sum of the subtotal,
    the tax and the tip of that bill, as Step 3 of the same run stored
    it. *)
Theorem X18_what_a_returning_run_displays inp s :
  calculate_split_button inp = true →
  (run_main inp s).1 = Ok () →
  let s' := session (run_main inp s).2 in
  ((allocations s' = None ∨ edited_bill_data s' = None)
   ∧ run_main inp s = run_main (without_calculate inp) s)
  ∨ ∃ ns al ed bill r before,
      names s' = Some ns ∧ allocations s' = Some al
      ∧ edited_bill_data s' = Some ed ∧ read_bill ed = Ok bill
      ∧ total bill = subtotal bill + tax bill + tip bill
      ∧ calculate_split ns bill al = Ok r
      ∧ page (run_main inp s).2
        = before ++ [st_table (results_df r); st_write_total (total bill);
                     st_table (final_df r)].
Proof.
  intros Hb. unfold run_main, main.
  change (enter_names (without_calculate inp)) with (enter_names inp).
  change (upload_and_process (without_calculate inp))
    with (upload_and_process inp).
  change (verify_and_edit (without_calculate inp)) with (verify_and_edit inp).
  change (allocate_items (without_calculate inp)) with (allocate_items inp).
  change (calculate (without_calculate inp)) with (mret () : M unit).
  rewrite !(M_bind_run (enter_names inp)).
  destruct (enter_names inp _) as [[[]|e1] st1]; [|done].
  rewrite !(M_bind_run (upload_and_process inp)).
  destruct (upload_and_process inp st1) as [[[]|e2] st2]; [|done].
  rewrite !(M_bind_run (verify_and_edit inp)).
  destruct (verify_and_edit inp st2) as [[[]|e3] st3] eqn:H3; [|done].
  rewrite !(M_bind_run (allocate_items inp)).
  pose proof (allocate_items_keeps_bill inp st3) as Hkeep.
  destruct (allocate_items inp st3) as [[[]|e4] st4]; [|done].
  cbn [snd] in Hkeep. rewrite M_ret_run.
  pose proof (calculate_keeps id inp st4) as Hc. unfold id in Hc.
  intros Hok. cbn zeta. rewrite !Hc. clear Hc.
  destruct (allocations (session st4)) as [al|] eqn:Hal.
  2:{ left. split; [by left|]. unfold calculate. rewrite Hb. run_M.
      by rewrite Hal. }
  destruct (edited_bill_data (session st4)) as [ed|] eqn:Hed.
  2:{ left. split; [by right|]. unfold calculate. rewrite Hb. run_M.
      by rewrite Hal, Hed. }
  right.
  destruct (names (session st4)) as [ns|] eqn:Hns.
  2:{ exfalso. revert Hok. unfold calculate. rewrite Hb. run_M.
      rewrite Hal, Hed, Hns. by run_M. }
  destruct (read_bill ed) as [bill|e] eqn:Hbill.
  2:{ exfalso. revert Hok. unfold calculate. rewrite Hb. run_M.
      rewrite Hal, Hed, Hns. run_M. rewrite Hbill. by run_M. }
  destruct st4 as [s4 pg4]. cbn [session] in *.
  pose proof (calculate_run inp s4 pg4 al ed ns bill Hb Hal Hed Hns Hbill)
    as Hcalc.
  destruct (calculate_split ns bill al) as [r|e] eqn:Hsplit; [|congruence].
  exists ns, al, ed, bill, r, pg4. rewrite Hcalc. cbn [snd page].
  do 4 (split; [done|]). split; [|done].
  destruct st2 as [s2 pg2].
  destruct (edited_bill_data s2) as [ed2|] eqn:Hed2.
  - destruct (verify_and_edit_ok_inv inp s2 pg2 ed2 Hed2)
      as (ed' & t & Hedit & Hrun); [by rewrite H3|].
    rewrite Hrun in H3. apply (f_equal snd) in H3. cbn [snd] in H3.
    subst st3. cbn in Hkeep. injection Hkeep as ->.
    destruct (edit_bill_readable _ _ _ Hedit) as (bill' & Hb' & Ht & _).
    rewrite Hb' in Hbill. by injection Hbill as <-.
  - exfalso. revert H3. unfold verify_and_edit. run_M. rewrite Hed2. run_M.
    intros H. apply (f_equal snd) in H. cbn [snd] in H. subst st3.
    cbn in Hkeep. congruence.
Qed.

Lemma X18_what_a_returning_run_displays_witness :
  ∃ bill r before,
    edited_bill_data (session (run_main press_calculate pizza_session).2)
    = Some one_pizza
    ∧ read_bill one_pizza = Ok bill
    ∧ total bill = subtotal bill + tax bill + tip bill
    ∧ page (run_main press_calculate pizza_session).2
      = before ++ [st_table (results_df r); st_write_total (total bill);
                   st_table (final_df r)].
Proof.
  destruct (X18_what_a_returning_run_displays press_calculate pizza_session)
    as [[[Hno|Hno] _]|(ns & al & ed & bill & r & before & _ & _ & Hed & Hbill
                        & Ht & _ & Hpage)].
  - reflexivity.
  - vm_compute. reflexivity.
  - vm_compute in Hno. discriminate Hno.
  - vm_compute in Hno. discriminate Hno.
  - assert (ed = one_pizza) as ->.
    { assert (edited_bill_data
                (session (run_main press_calculate pizza_session).2)
              = Some one_pizza) as H by (vm_compute; reflexivity).
      rewrite H in Hed. by injection Hed as <-. }
    exists bill, r, before. split; [vm_compute; reflexivity|]. by split.
Defined.
